(** * Inference and validation of the Fashion-MNIST classifier

    A shallow embedding of the notebook
    [intro-to-pytorch/Part 5 - Inference and Validation (Exercises).ipynb]:
    the two [Classifier] classes (cell 3 and cell 16), and the two
    train/validate loops (cell 13 and cell 17).

    Tensor entries are real numbers: the arithmetic of the notebook is read
    exactly, without rounding.  A tensor is contiguous, stored row-major. *)

From Stdlib Require Import Reals List Arith Bool Lia Lra Permutation.
Import ListNotations.

Set Implicit Arguments.

Open Scope R_scope.

(** ** Raising computations *)

(** A Python statement either raises or yields a value and a new store. *)
Definition SE (S A : Type) : Type := S -> option (A * S).

Definition ret {S A} (a : A) : SE S A := fun s => Some (a, s).

Definition bind {S A B} (m : SE S A) (k : A -> SE S B) : SE S B :=
  fun s => match m s with
           | Some (a, s') => k a s'
           | None => None
           end.

Definition raise {S A} : SE S A := fun _ => None.

Definition get {S} : SE S S := fun s => Some (s, s).

Definition modify {S} (f : S -> S) : SE S unit := fun s => Some (tt, f s).

Definition lift {S A} (o : option A) : SE S A :=
  fun s => match o with Some a => Some (a, s) | None => None end.

Declare Scope se_scope.
Delimit Scope se_scope with se.
Notation "x <- m ;; k" := (bind m (fun x => k))
  (at level 61, m at next level, right associativity) : se_scope.
Notation "m ;; k" := (bind m (fun _ => k))
  (at level 61, right associativity) : se_scope.

(** Binding in [option], for the pure tensor operations. *)
Definition obind {A B} (o : option A) (k : A -> option B) : option B :=
  match o with Some a => k a | None => None end.

Notation "'let?' x := o 'in' k" := (obind o (fun x => k))
  (at level 10, x name, o at level 100, k at level 200).

(** How the body of a [for] loop ends: it falls through to the next item, or
    it leaves the loop with [break]. *)
Inductive ctl : Type := Next | Break.

Section Loops.
Context {S A : Type}.

(** [for x in xs: body  else: orelse]: the [else] suite runs when the
    iteration is exhausted, and is skipped when the loop is left by
    [break]. *)
Fixpoint for_else (xs : list A) (body : A -> SE S ctl) (orelse : SE S unit)
  : SE S unit :=
  match xs with
  | [] => orelse
  | x :: xs' =>
      (c <- body x ;;
       match c with
       | Next => for_else xs' body orelse
       | Break => ret tt
       end)%se
  end.

(** [for x in xs: body], without an [else] suite. *)
Fixpoint for_ (xs : list A) (body : A -> SE S ctl) : SE S unit :=
  match xs with
  | [] => ret tt
  | x :: xs' =>
      (c <- body x ;;
       match c with
       | Next => for_ xs' body
       | Break => ret tt
       end)%se
  end.
End Loops.

(** ** The tensor operations of the framework *)

Module Torch.

(** A tensor: its shape and its entries in row-major order. *)
Record Tensor : Type := mkTensor { shape : list nat; data : list R }.

(** A two-dimensional tensor, as its list of rows. *)
Definition Matrix : Type := list (list R).

Definition numel (sh : list nat) : nat := fold_right Nat.mul 1%nat sh.

(** Every tensor the framework builds holds as many entries as its shape
    says. *)
Definition tensor_ok (x : Tensor) : bool :=
  (length (data x) =? numel (shape x))%nat.

Fixpoint rows (b cols : nat) (d : list R) : Matrix :=
  match b with
  | O => []
  | S b' => firstn cols d :: rows b' cols (skipn cols d)
  end.

(** Modelled from the spec: [x.view(x.shape[0], -1)] of the framework, which
    is not part of the sources.  The first dimension is kept and the others
    are merged; a tensor without dimensions has no [shape[0]], and the size
    standing for [-1] cannot be inferred for a tensor without entries. *)
Definition view_batch (x : Tensor) : option Matrix :=
  match shape x with
  | [] => None
  | b :: rest =>
      if (numel (shape x) =? 0)%nat then None
      else Some (rows b (numel rest) (data x))
  end.

Definition sum (x : list R) : R := fold_right Rplus 0 x.

Fixpoint dot (u v : list R) : R :=
  match u, v with
  | a :: u', b :: v' => a * b + dot u' v'
  | _, _ => 0
  end.

(** Modelled from the spec: [nn.Linear(in_features, out_features)] of the
    framework, an affine transformation [y = x W^T + b] with [W] of shape
    [out_features x in_features]. *)
Record Linear : Type := mkLinear {
  in_features : nat;
  out_features : nat;
  weight : Matrix;
  bias : list R
}.

(** The shapes a layer has from its constructor on. *)
Definition Linear_ok (i o : nat) (l : Linear) : bool :=
  (in_features l =? i)%nat && (out_features l =? o)%nat &&
  (length (weight l) =? o)%nat &&
  forallb (fun w => (length w =? i)%nat) (weight l) &&
  (length (bias l) =? o)%nat.

Fixpoint affine_row (w : Matrix) (b : list R) (x : list R) : list R :=
  match w, b with
  | wj :: w', bj :: b' => (dot x wj + bj) :: affine_row w' b' x
  | _, _ => []
  end.

(** Applying a layer raises when a row of the input has not
    [in_features] entries. *)
Definition linear (l : Linear) (x : Matrix) : option Matrix :=
  if forallb (fun r => (length r =? in_features l)%nat) x
  then Some (map (affine_row (weight l) (bias l)) x)
  else None.

(** Modelled from the spec: [F.relu], which clips negative values to
    zero. *)
Definition relu (x : Matrix) : Matrix := map (map (Rmax 0)) x.

Definition row_max (x : list R) : R :=
  match x with
  | [] => 0
  | v :: r => fold_right Rmax v r
  end.

(** Modelled from the spec: [F.log_softmax(_, dim=1)], the logarithm of the
    softmax of each row, in the stable form that subtracts the maximum of
    the row before exponentiating. *)
Definition log_softmax_row (x : list R) : list R :=
  let m := row_max x in
  let lse := ln (sum (map (fun v => exp (v - m)) x)) in
  map (fun v => v - m - lse) x.

Definition log_softmax (x : Matrix) : Matrix := map log_softmax_row x.

Section Random.
(** The state of the random number generator of the framework, and its
    draws: [bernoulli q] is [true] with probability [q], and [uniform a b]
    is a number between [a] and [b]. *)
Variable Rng : Type.
Variable bernoulli : R -> Rng -> bool * Rng.
Variable uniform : R -> R -> Rng -> R * Rng.

Fixpoint uniform_list (n : nat) (a b : R) (g : Rng) : list R * Rng :=
  match n with
  | O => ([], g)
  | S n' =>
      let (v, g1) := uniform a b g in
      let (r, g2) := uniform_list n' a b g1 in
      (v :: r, g2)
  end.

Fixpoint uniform_rows (o i : nat) (a b : R) (g : Rng) : Matrix * Rng :=
  match o with
  | O => ([], g)
  | S o' =>
      let (r, g1) := uniform_list i a b g in
      let (m, g2) := uniform_rows o' i a b g1 in
      (r :: m, g2)
  end.

(** The constructor of a layer draws its weights and its bias between
    [-1/sqrt(in_features)] and [1/sqrt(in_features)]. *)
Definition nn_Linear (i o : nat) (g : Rng) : Linear * Rng :=
  let k := sqrt (/ INR i) in
  let (w, g1) := uniform_rows o i (- k) k g in
  let (b, g2) := uniform_list o (- k) k g1 in
  (mkLinear i o w b, g2).

Fixpoint dropout_row (p : R) (x : list R) (g : Rng) : list R * Rng :=
  match x with
  | [] => ([], g)
  | v :: x' =>
      let (keep, g1) := bernoulli (1 - p) g in
      let (r, g2) := dropout_row p x' g1 in
      ((if keep then v / (1 - p) else 0) :: r, g2)
  end.

Fixpoint dropout_rows (p : R) (x : Matrix) (g : Rng) : Matrix * Rng :=
  match x with
  | [] => ([], g)
  | r :: x' =>
      let (r1, g1) := dropout_row p r g in
      let (x1, g2) := dropout_rows p x' g1 in
      (r1 :: x1, g2)
  end.

(** Modelled from the spec: [nn.Dropout(p)].  In training mode every entry
    is zeroed with probability [p], independently, and the others are
    scaled by [1/(1-p)]; in evaluation mode the layer is the identity and
    draws nothing. *)
Definition dropout (p : R) (training : bool) (x : Matrix) (g : Rng)
  : Matrix * Rng :=
  if training then dropout_rows p x g else (x, g).
End Random.

(** Modelled from the spec: [nn.NLLLoss()] with its mean reduction: the mean
    over the batch of the negated log-probability of the true class.  It
    raises when the batch sizes differ and when a label is not a class. *)
Fixpoint picks (log_ps : Matrix) (labels : list nat) : option (list R) :=
  match log_ps, labels with
  | [], [] => Some []
  | r :: log_ps', y :: labels' =>
      let? v := nth_error r y in
      let? vs := picks log_ps' labels' in
      Some (v :: vs)
  | _, _ => None
  end.

Definition nll_loss (log_ps : Matrix) (labels : list nat) : option R :=
  let? vs := picks log_ps labels in
  Some (sum (map Ropp vs) / INR (length vs)).

(** [_.topk(1, dim=1)] is framework code outside the sources.  It returns,
    for every row, a largest entry and the index of that entry.  Which
    index it returns when several entries of a row are largest is left open
    by its documentation and is not decided by the notebook: the index the
    framework returns for a row is a parameter. *)
Class TopK : Type := { topk_index : list R -> nat }.

(** [_.topk(1, dim=1)] on one row: the entry at the index the framework
    returns, and the index.  The framework raises on a row without
    entries. *)
Definition topk1_row {K : TopK} (x : list R) : option (R * nat) :=
  match x with
  | [] => None
  | v :: _ => let i := topk_index x in Some (nth i x v, i)
  end.

(** [topk] along the rows of a matrix: the column of the largest entries and
    the column of their indices. *)
Fixpoint topk1 {K : TopK} (x : Matrix) : option (list R * list nat) :=
  match x with
  | [] => Some ([], [])
  | r :: x' =>
      let? t := topk1_row r in
      let? ts := topk1 x' in
      Some (fst t :: fst ts, snd t :: snd ts)
  end.

(** Framework code outside the sources, modelled from its documentation:
    [torch.exp], entry by entry. *)
Definition torch_exp (x : Matrix) : Matrix := map (map exp) x.

(** [x.shape] of a two-dimensional tensor. *)
Definition shape2 (x : Matrix) : list nat := [length x; length (hd [] x)].

(** Framework code outside the sources, modelled from its documentation:
    [x.view(sh)] for a shape [sh] without [-1], the same entries in another
    shape; the framework raises when the shape asks for another number of
    entries. *)
Definition view (sh : list nat) (x : Tensor) : option Tensor :=
  if (numel sh =? numel (shape x))%nat then Some (mkTensor sh (data x))
  else None.

(** Framework code outside the sources, modelled from its documentation:
    [x[i]] for an index [i >= 0], the [i]-th slice along the first
    dimension; the framework raises on a tensor without dimensions and on an
    index that is not below the first dimension. *)
Definition select (i : nat) (x : Tensor) : option Tensor :=
  match shape x with
  | [] => None
  | b :: rest =>
      if (i <? b)%nat
      then Some (mkTensor rest
                   (firstn (numel rest) (skipn (i * numel rest) (data x))))
      else None
  end.

(** Framework code outside the sources, modelled from its documentation:
    [_.type(torch.FloatTensor)] of a tensor of booleans, and [torch.mean].
    The mean of no entry is not a number in the framework; no batch of the
    notebook is empty. *)
Definition float (b : bool) : R := if b then 1 else 0.

Definition mean (x : list R) : R := sum x / INR (length x).

End Torch.

Import Torch.

(** ** The data sets and their loaders (cell 1) *)

Module Data.

(** A labelled image: its entries and its class. *)
Definition Sample : Type := (list R * nat)%type.

(** A data set: the shape every image has, and the labelled images. *)
Record Dataset : Type := mkDataset {
  image_shape : list nat;
  items : list Sample
}.

Record DataLoader : Type := mkDataLoader {
  dataset : Dataset;
  batch_size : nat;
  shuffle : bool
}.

Record Batch : Type := mkBatch { images : Tensor; labels : list nat }.

(** [len(loader)]: the number of batches, the last of which may be
    smaller. *)
Definition len (dl : DataLoader) : nat :=
  ((length (items (dataset dl)) + batch_size dl - 1) / batch_size dl)%nat.

Fixpoint chunks (count bs : nat) (idx : list nat) : list (list nat) :=
  match count with
  | O => []
  | S c => firstn bs idx :: chunks c bs (skipn bs idx)
  end.

Fixpoint fetch (its : list Sample) (idx : list nat) : option (list Sample) :=
  match idx with
  | [] => Some []
  | i :: idx' =>
      let? x := nth_error its i in
      let? xs := fetch its idx' in
      Some (x :: xs)
  end.

(** The images of a batch are stacked along a new first dimension. *)
Definition collate (sh : list nat) (xs : list Sample) : Batch :=
  mkBatch (mkTensor (length xs :: sh) (concat (map fst xs))) (map snd xs).

Fixpoint batches_of (ds : Dataset) (ixs : list (list nat))
  : option (list Batch) :=
  match ixs with
  | [] => Some []
  | ix :: ixs' =>
      let? xs := fetch (items ds) ix in
      let? bs := batches_of ds ixs' in
      Some (collate (image_shape ds) xs :: bs)
  end.

Section Sampling.
Variable Rng : Type.

(** [randperm n] draws an arrangement of the indices below [n]. *)
Variable randperm : nat -> Rng -> list nat * Rng.

(** One traversal of a loader: the indices, shuffled or in order, are cut
    into batches. *)
Definition iter (dl : DataLoader) : SE Rng (list Batch) :=
  fun g =>
    let n := length (items (dataset dl)) in
    let (perm, g') := if shuffle dl then randperm n g else (seq 0 n, g) in
    let? bs := batches_of (dataset dl)
                 (chunks (len dl) (batch_size dl) perm) in
    Some (bs, g').

(** [next(iter(loader))]: the first batch of a fresh traversal; the
    iterator raises when it has no batch. *)
Definition next_batch (dl : DataLoader) : SE Rng Batch :=
  (batches <- iter dl ;; lift (hd_error batches))%se.
End Sampling.

End Data.

Import Data.

(** ** The parameters of a model *)

(** The parameters an optimizer is given: the four affine layers. *)
Record Params : Type := mkParams {
  layer1 : Linear;
  layer2 : Linear;
  layer3 : Linear;
  layer4 : Linear
}.

(** The shapes [__init__] gives the layers in both classes. *)
Definition Params_ok (p : Params) : bool :=
  Linear_ok 784 256 (layer1 p) && Linear_ok 256 128 (layer2 p) &&
  Linear_ok 128 64 (layer3 p) && Linear_ok 64 10 (layer4 p).

(** ** The model without dropout (cell 3) *)

Module Baseline.

Record Classifier : Type := mkClassifier {
  fc1 : Linear;
  fc2 : Linear;
  fc3 : Linear;
  fc4 : Linear;
  training : bool
}.

Section Init.
Variable Rng : Type.
Variable uniform : R -> R -> Rng -> R * Rng.

(** [Classifier()]: a fresh module is in training mode. *)
Definition init (g : Rng) : Classifier * Rng :=
  let (l1, g1) := nn_Linear uniform 784 256 g in
  let (l2, g2) := nn_Linear uniform 256 128 g1 in
  let (l3, g3) := nn_Linear uniform 128 64 g2 in
  let (l4, g4) := nn_Linear uniform 64 10 g3 in
  (mkClassifier l1 l2 l3 l4 true, g4).
End Init.

Definition forward (self : Classifier) (x : Tensor) : option Matrix :=
  let? x := view_batch x in
  let? x := option_map relu (linear (fc1 self) x) in
  let? x := option_map relu (linear (fc2 self) x) in
  let? x := option_map relu (linear (fc3 self) x) in
  let? x := option_map log_softmax (linear (fc4 self) x) in
  Some x.

(** [self.train()], [self.eval()] and [self.parameters()] of [nn.Module],
    and the parameters as an optimizer writes them back. *)
Definition train (self : Classifier) : Classifier :=
  mkClassifier (fc1 self) (fc2 self) (fc3 self) (fc4 self) true.

Definition eval (self : Classifier) : Classifier :=
  mkClassifier (fc1 self) (fc2 self) (fc3 self) (fc4 self) false.

Definition parameters (self : Classifier) : Params :=
  mkParams (fc1 self) (fc2 self) (fc3 self) (fc4 self).

Definition load (p : Params) (self : Classifier) : Classifier :=
  mkClassifier (layer1 p) (layer2 p) (layer3 p) (layer4 p) (training self).

End Baseline.

(** ** The model with dropout (cell 16) *)

Module Regularized.

Record Classifier : Type := mkClassifier {
  fc1 : Linear;
  fc2 : Linear;
  fc3 : Linear;
  fc4 : Linear;
  dropout : R;
  training : bool
}.

Section Forward.
Variable Rng : Type.
Variable bernoulli : R -> Rng -> bool * Rng.
Variable uniform : R -> R -> Rng -> R * Rng.

(** [Classifier()], with [self.dropout = nn.Dropout(0.2)]. *)
Definition init (g : Rng) : Classifier * Rng :=
  let (l1, g1) := nn_Linear uniform 784 256 g in
  let (l2, g2) := nn_Linear uniform 256 128 g1 in
  let (l3, g3) := nn_Linear uniform 128 64 g2 in
  let (l4, g4) := nn_Linear uniform 64 10 g3 in
  (mkClassifier l1 l2 l3 l4 (2 / 10) true, g4).

(** [self.dropout(x)]: the layer follows the mode of the model. *)
Definition call_dropout (self : Classifier) (x : Matrix) : SE Rng Matrix :=
  fun g => Some (Torch.dropout bernoulli (dropout self) (training self) x g).

Definition forward (self : Classifier) (x : Tensor) : SE Rng Matrix :=
  (x <- lift (view_batch x) ;;
   x <- lift (option_map relu (linear (fc1 self) x)) ;;
   x <- call_dropout self x ;;
   x <- lift (option_map relu (linear (fc2 self) x)) ;;
   x <- call_dropout self x ;;
   x <- lift (option_map relu (linear (fc3 self) x)) ;;
   x <- call_dropout self x ;;
   x <- lift (option_map log_softmax (linear (fc4 self) x)) ;;
   ret x)%se.
End Forward.

(** [self.train()], [self.eval()] and [self.parameters()] of [nn.Module],
    and the parameters as an optimizer writes them back.  The layer of
    dropout follows the mode of the model and has no parameter. *)
Definition train (self : Classifier) : Classifier :=
  mkClassifier (fc1 self) (fc2 self) (fc3 self) (fc4 self) (dropout self) true.

Definition eval (self : Classifier) : Classifier :=
  mkClassifier (fc1 self) (fc2 self) (fc3 self) (fc4 self) (dropout self)
    false.

Definition parameters (self : Classifier) : Params :=
  mkParams (fc1 self) (fc2 self) (fc3 self) (fc4 self).

Definition load (p : Params) (self : Classifier) : Classifier :=
  mkClassifier (layer1 p) (layer2 p) (layer3 p) (layer4 p) (dropout self)
    (training self).

End Regularized.

(** ** The interface of a model *)

(** What the loops use of [nn.Module]: the call of the model, the two mode
    switches, and the parameters, which the optimizer updates in place. *)
Class NNModule (Rng T : Type) : Type := {
  call : T -> Tensor -> SE Rng Matrix;
  train : T -> T;
  eval : T -> T;
  is_training : T -> bool;
  parameters : T -> Params;
  load : Params -> T -> T
}.

#[export] Instance baseline_module (Rng : Type)
  : NNModule Rng Baseline.Classifier := {
  call self x := lift (Baseline.forward self x);
  train := Baseline.train;
  eval := Baseline.eval;
  is_training := Baseline.training;
  parameters := Baseline.parameters;
  load := Baseline.load
}.

#[export] Instance regularized_module (Rng : Type)
  (bernoulli : R -> Rng -> bool * Rng)
  : NNModule Rng Regularized.Classifier := {
  call self x := Regularized.forward bernoulli self x;
  train := Regularized.train;
  eval := Regularized.eval;
  is_training := Regularized.training;
  parameters := Regularized.parameters;
  load := Regularized.load
}.

(** ** The train/validate loops (cells 13 and 17) *)

(** The line an epoch prints. *)
Record Report : Type := mkReport {
  epoch : nat;
  of_epochs : nat;
  training_loss : R;
  test_loss : R;
  accuracy_percent : R
}.

(** What a run lets an observer see, in order: a switch of the mode, a
    training step with the mode the model was called in and the loss, a
    validation step with the mode, the batch, the log-probabilities and the
    loss. *)
Inductive Event : Type :=
| EMode (training : bool)
| ETrain (training : bool) (loss : R)
| EValidate (training : bool) (b : Batch) (log_ps : Matrix) (loss : R).

(** The labels viewed in the shape of [top_class], a column as long as
    [top_class]; the framework raises when the sizes differ. *)
Definition view_as (top_class labels : list nat) : option (list nat) :=
  if (length labels =? length top_class)%nat then Some labels else None.

(** [top_class == labels], entry by entry. *)
Fixpoint equals (top_class labels : list nat) : list bool :=
  match top_class, labels with
  | c :: top_class', y :: labels' => (c =? y)%nat :: equals top_class' labels'
  | _, _ => []
  end.

(** [torch.sum(equals.type(torch.FloatTensor))]. *)
Definition count_true (eqs : list bool) : nat :=
  length (filter (fun b => b) eqs).

(** [x /= n] raises on a zero divisor. *)
Definition divide (x : R) (n : nat) : option R :=
  if (n =? 0)%nat then None else Some (x / INR n).

Section Training.
Variable Rng : Type.
Variable randperm : nat -> Rng -> list nat * Rng.
Context {K : TopK}.

(** The optimizer and the differentiation of the framework: the state of
    Adam, the gradients it reads, and its update of the parameters. *)
Variable OptState : Type.
Variable Grad : Type.
Variable grad_zero : Grad.
Variable grad_add : Grad -> Grad -> Grad.
Variable adam : OptState -> Params -> Grad -> Params * OptState.

Context {T : Type} {M : NNModule Rng T}.

(** The gradient of the loss of a batch, for the model and the generator
    state the forward pass started from. *)
Variable autograd : T -> Batch -> Rng -> Grad.

Variable trainset testset : Dataset.

(** Cell 1. *)
Definition trainloader : DataLoader := mkDataLoader trainset 64 true.
Definition testloader : DataLoader := mkDataLoader testset 64 true.

(** The store of a loop: the objects and the variables it assigns, what it
    has printed, and what it has let an observer see. *)
Record State : Type := mkState {
  model : T;
  optimizer : OptState;
  grad : Grad;
  rng : Rng;
  running_loss : R;
  testing_loss : R;
  accuracy : R;
  stdout : list Report;
  trace : list Event
}.

Definition set_model (m : T) (s : State) : State :=
  mkState m (optimizer s) (grad s) (rng s) (running_loss s)
    (testing_loss s) (accuracy s) (stdout s) (trace s).

Definition set_optimizer (o : OptState) (s : State) : State :=
  mkState (model s) o (grad s) (rng s) (running_loss s)
    (testing_loss s) (accuracy s) (stdout s) (trace s).

Definition set_grad (d : Grad) (s : State) : State :=
  mkState (model s) (optimizer s) d (rng s) (running_loss s)
    (testing_loss s) (accuracy s) (stdout s) (trace s).

Definition set_rng (g : Rng) (s : State) : State :=
  mkState (model s) (optimizer s) (grad s) g (running_loss s)
    (testing_loss s) (accuracy s) (stdout s) (trace s).

Definition set_running_loss (v : R) (s : State) : State :=
  mkState (model s) (optimizer s) (grad s) (rng s) v
    (testing_loss s) (accuracy s) (stdout s) (trace s).

Definition set_testing_loss (v : R) (s : State) : State :=
  mkState (model s) (optimizer s) (grad s) (rng s) (running_loss s)
    v (accuracy s) (stdout s) (trace s).

Definition set_accuracy (v : R) (s : State) : State :=
  mkState (model s) (optimizer s) (grad s) (rng s) (running_loss s)
    (testing_loss s) v (stdout s) (trace s).

Definition print (r : Report) (s : State) : State :=
  mkState (model s) (optimizer s) (grad s) (rng s) (running_loss s)
    (testing_loss s) (accuracy s) (stdout s ++ [r]) (trace s).

Definition observe (e : Event) (s : State) : State :=
  mkState (model s) (optimizer s) (grad s) (rng s) (running_loss s)
    (testing_loss s) (accuracy s) (stdout s) (trace s ++ [e]).

(** A computation on the generator, run on the generator of the store. *)
Definition with_rng {A} (m : SE Rng A) : SE State A :=
  fun s => match m (rng s) with
           | Some (a, g) => Some (a, set_rng g s)
           | None => None
           end.

(** [model(images)] *)
Definition call_model (x : Tensor) : SE State Matrix :=
  fun s => with_rng (call (model s) x) s.

(** [model.train()] and [model.eval()] *)
Definition model_train : SE State unit :=
  modify (fun s => observe (EMode true) (set_model (train (model s)) s)).

Definition model_eval : SE State unit :=
  modify (fun s => observe (EMode false) (set_model (eval (model s)) s)).

(** [optimizer.zero_grad()], [loss.backward()] and [optimizer.step()] *)
Definition zero_grad : SE State unit := modify (set_grad grad_zero).

Definition backward (m0 : T) (b : Batch) (g0 : Rng) : SE State unit :=
  modify (fun s => set_grad (grad_add (grad s) (autograd m0 b g0)) s).

Definition optimizer_step : SE State unit :=
  modify (fun s =>
    let (p, o) := adam (optimizer s) (parameters (model s)) (grad s) in
    set_optimizer o (set_model (load p (model s)) s)).

(** The body of the loop over [trainloader]. *)
Definition train_batch (b : Batch) : SE State ctl :=
  (zero_grad ;;
   s0 <- get ;;
   log_ps <- call_model (images b) ;;
   loss <- lift (nll_loss log_ps (labels b)) ;;
   backward (model s0) b (rng s0) ;;
   optimizer_step ;;
   modify (fun s => set_running_loss (running_loss s + loss) s) ;;
   modify (observe (ETrain (is_training (model s0)) loss)) ;;
   ret Next)%se.

(** The body of the loop over [testloader]. *)
Definition validate_batch (b : Batch) : SE State ctl :=
  (s0 <- get ;;
   log_ps <- call_model (images b) ;;
   loss <- lift (nll_loss log_ps (labels b)) ;;
   modify (fun s => set_testing_loss (testing_loss s + loss) s) ;;
   top <- lift (topk1 log_ps) ;;
   lbl <- lift (view_as (snd top) (labels b)) ;;
   modify (fun s => set_accuracy
     (accuracy s + INR (count_true (equals (snd top) lbl))) s) ;;
   modify (observe (EValidate (is_training (model s0)) b log_ps loss)) ;;
   ret Next)%se.

(** The [else] suite of the validation loop: the three means and the
    printed line. *)
Definition report (e epochs : nat) : SE State unit :=
  (s <- get ;;
   r <- lift (divide (running_loss s) (len trainloader)) ;;
   modify (set_running_loss r) ;;
   t <- lift (divide (testing_loss s) (len testloader)) ;;
   modify (set_testing_loss t) ;;
   a <- lift (divide (accuracy s) (length (items (dataset testloader)))) ;;
   modify (set_accuracy a) ;;
   modify (print (mkReport (e + 1) epochs r t (a * 100))))%se.

(** The validation pass of cell 13: the [else] suite of its training
    loop. *)
Definition validation13 (epochs e : nat) : SE State unit :=
  (modify (set_testing_loss 0) ;;
   modify (set_accuracy 0) ;;
   test_batches <- with_rng (iter randperm testloader) ;;
   for_else test_batches validate_batch (report e epochs))%se.

(** One epoch of cell 13. *)
Definition epoch13 (epochs e : nat) : SE State ctl :=
  (modify (set_running_loss 0) ;;
   train_batches <- with_rng (iter randperm trainloader) ;;
   for_else train_batches train_batch (validation13 epochs e) ;;
   ret Next)%se.

(** The validation pass of cell 17. *)
Definition validation17 (epochs e : nat) : SE State unit :=
  (model_eval ;;
   modify (set_testing_loss 0) ;;
   modify (set_accuracy 0) ;;
   test_batches <- with_rng (iter randperm testloader) ;;
   for_else test_batches validate_batch (report e epochs))%se.

(** One epoch of cell 17. *)
Definition epoch17 (epochs e : nat) : SE State ctl :=
  (model_train ;;
   modify (set_running_loss 0) ;;
   train_batches <- with_rng (iter randperm trainloader) ;;
   for_else train_batches train_batch (validation17 epochs e) ;;
   ret Next)%se.

(** The loops over [range(epochs)]. *)
Definition cell13 (epochs : nat) : SE State unit :=
  for_ (seq 0 epochs) (epoch13 epochs).

Definition cell17 (epochs : nat) : SE State unit :=
  for_ (seq 0 epochs) (epoch17 epochs).

(** The same loops in the words of the specification: the [else] suites
    written after their loops, unconditionally. *)
Definition epoch13_flat (epochs e : nat) : SE State ctl :=
  (modify (set_running_loss 0) ;;
   train_batches <- with_rng (iter randperm trainloader) ;;
   for_ train_batches train_batch ;;
   modify (set_testing_loss 0) ;;
   modify (set_accuracy 0) ;;
   test_batches <- with_rng (iter randperm testloader) ;;
   for_ test_batches validate_batch ;;
   report e epochs ;;
   ret Next)%se.

Definition epoch17_flat (epochs e : nat) : SE State ctl :=
  (model_train ;;
   modify (set_running_loss 0) ;;
   train_batches <- with_rng (iter randperm trainloader) ;;
   for_ train_batches train_batch ;;
   model_eval ;;
   modify (set_testing_loss 0) ;;
   modify (set_accuracy 0) ;;
   test_batches <- with_rng (iter randperm testloader) ;;
   for_ test_batches validate_batch ;;
   report e epochs ;;
   ret Next)%se.

Definition cell13_flat (epochs : nat) : SE State unit :=
  for_ (seq 0 epochs) (epoch13_flat epochs).

Definition cell17_flat (epochs : nat) : SE State unit :=
  for_ (seq 0 epochs) (epoch17_flat epochs).

(** Cell 19: the model is switched to evaluation mode, the first image of a
    batch of the test loader is flattened and passed through the model, and
    the image, back in the shape [1 x 28 x 28], and its class probabilities
    are handed to [helper.view_classify], which renders them and returns
    nothing.  They are the value of the cell here. *)
Definition cell19 : SE State (Tensor * Matrix) :=
  (model_eval ;;
   b <- with_rng (next_batch randperm testloader) ;;
   img <- lift (select 0 (images b)) ;;
   img <- lift (view [1; 784]%nat img) ;;
   output <- call_model img ;;
   shown <- lift (view [1; 28; 28]%nat img) ;;
   ret (shown, torch_exp output))%se.

End Training.

(** ** The accuracy of one batch (cells 5, 7, 9 and 11) *)

(** The variables the four cells assign, and the three values they print:
    [ps.shape], [top_class[:10,:]] and the accuracy in percent. *)
Record Inspection : Type := mkInspection {
  v_model : Baseline.Classifier;
  v_images : Tensor;
  v_labels : list nat;
  v_ps : Matrix;
  v_top_p : list R;
  v_top_class : list nat;
  v_equals : list bool;
  v_accuracy : R;
  printed_shape : list nat;
  printed_classes : list nat;
  printed_accuracy : R
}.

Section Inspect.
Variable Rng : Type.
Context {K : TopK}.
Variable randperm : nat -> Rng -> list nat * Rng.
Variable uniform : R -> R -> Rng -> R * Rng.
Variable testset : Dataset.

Definition cells_5_to_11 : SE Rng Inspection :=
  (model <- (fun g => Some (Baseline.init uniform g)) ;;
   b <- next_batch randperm (testloader testset) ;;
   log_ps <- lift (Baseline.forward model (images b)) ;;
   let ps := torch_exp log_ps in
   top <- lift (topk1 ps) ;;
   lbl <- lift (view_as (snd top) (labels b)) ;;
   let eqs := equals (snd top) lbl in
   let acc := mean (map float eqs) in
   ret (mkInspection model (images b) (labels b) ps (fst top) (snd top) eqs
          acc (shape2 ps) (firstn 10 (snd top)) (acc * 100)))%se.
End Inspect.

(** ** Cells 13 and 17 from their first line *)

Section Cells.
Variable Rng : Type.
Context {K : TopK}.
Variable bernoulli : R -> Rng -> bool * Rng.
Variable uniform : R -> R -> Rng -> R * Rng.
Variable randperm : nat -> Rng -> list nat * Rng.
Variable OptState : Type.
Variable Grad : Type.
Variable grad_zero : Grad.
Variable grad_add : Grad -> Grad -> Grad.
Variable adam : OptState -> Params -> Grad -> Params * OptState.

(** [optim.Adam(model.parameters(), lr=0.003)]: the state the optimizer
    starts from. *)
Variable optim_Adam : Params -> OptState.

Variable autograd13 : Baseline.Classifier -> Batch -> Rng -> Grad.
Variable autograd17 : Regularized.Classifier -> Batch -> Rng -> Grad.
Variable trainset testset : Dataset.

(** The store a cell starts its loop from: the model and the optimizer it
    has built, no gradient, nothing printed.  The three statistics are not
    bound before the first epoch, which assigns each of them before it
    reads it; they are 0 here. *)
Definition fresh {T : Type} (model : T) (optimizer : OptState) (g : Rng)
  : State Rng OptState Grad :=
  mkState model optimizer grad_zero g 0 0 0 [] [].

(** Cell 13: [model = Classifier()], the optimizer, [epochs = 30] and the
    loop. *)
Definition notebook_cell13 (g : Rng)
  : option (State Rng OptState Grad (T := Baseline.Classifier)) :=
  let (model, g1) := Baseline.init uniform g in
  let optimizer := optim_Adam (Baseline.parameters model) in
  let epochs := 30%nat in
  option_map snd
    (cell13 (M := baseline_module Rng) randperm grad_zero grad_add adam
       autograd13 trainset testset epochs (fresh model optimizer g1)).

(** Cell 17, with the class of cell 16. *)
Definition notebook_cell17 (g : Rng)
  : option (State Rng OptState Grad (T := Regularized.Classifier)) :=
  let (model, g1) := Regularized.init uniform g in
  let optimizer := optim_Adam (Regularized.parameters model) in
  let epochs := 30%nat in
  option_map snd
    (cell17 (M := regularized_module bernoulli) randperm grad_zero grad_add
       adam autograd17 trainset testset epochs (fresh model optimizer g1)).

End Cells.

(** * The vocabulary of the specification *)

(** A batch the model accepts: at least one image, 784 entries an image. *)
Definition batch_dim (x : Tensor) : nat := hd 0%nat (shape x).

Definition batch_ok (x : Tensor) : bool :=
  (1 <=? batch_dim x)%nat && (numel (tl (shape x)) =? 784)%nat &&
  tensor_ok x && negb (length (shape x) =? 0)%nat.

(** A row of log-probabilities over the ten classes. *)
Definition normalized (r : list R) : Prop :=
  length r = 10%nat /\ sum (map exp r) = 1.

Definition nonpositive (r : list R) : Prop := Forall (fun v => v <= 0) r.

(** A [B x 10] matrix of log-probabilities. *)
Definition log_probs (B : nat) (out : Matrix) : Prop :=
  length out = B /\ Forall normalized out /\ Forall nonpositive out.

(** The stages of the forward computation, in the words of the
    specification: an affine transformation between two widths, the
    rectification, a dropout of probability [p], the log-normalization along
    the class dimension. *)
Inductive Stage : Type :=
| Affine (i o : nat) (l : Linear)
| Rectify
| Drop (p : R)
| LogNormalize.

Section Pipeline.
Variable Rng : Type.
Variable bernoulli : R -> Rng -> bool * Rng.

Definition run_stage (training : bool) (st : Stage) (x : Matrix)
  : SE Rng Matrix :=
  match st with
  | Affine i o l => if Linear_ok i o l then lift (linear l x) else raise
  | Rectify => ret (relu x)
  | Drop p => fun g => Some (Torch.dropout bernoulli p training x g)
  | LogNormalize => ret (log_softmax x)
  end.

Fixpoint run_pipeline (training : bool) (sts : list Stage) (x : Matrix)
  : SE Rng Matrix :=
  match sts with
  | [] => ret x
  | st :: sts' =>
      (y <- run_stage training st x ;; run_pipeline training sts' y)%se
  end.
End Pipeline.

(** The pipeline of the specification without its optional stages, and with
    them at probability [p]. *)
Definition pipeline_plain (p : Params) : list Stage :=
  [Affine 784 256 (layer1 p); Rectify;
   Affine 256 128 (layer2 p); Rectify;
   Affine 128 64 (layer3 p); Rectify;
   Affine 64 10 (layer4 p); LogNormalize].

Definition pipeline_dropout (q : R) (p : Params) : list Stage :=
  [Affine 784 256 (layer1 p); Rectify; Drop q;
   Affine 256 128 (layer2 p); Rectify; Drop q;
   Affine 128 64 (layer3 p); Rectify; Drop q;
   Affine 64 10 (layer4 p); LogNormalize].

(** The index the specification gives a row as its top-1 class: an entry
    that is largest, and the first such. *)
Definition first_argmax (r : list R) (i : nat) : Prop :=
  exists v, nth_error r i = Some v /\
    (forall u, In u r -> u <= v) /\
    (forall j u, (j < i)%nat -> nth_error r j = Some u -> u < v).

(** An index of a row that holds a largest entry, whichever. *)
Definition largest_at (r : list R) (i : nat) : Prop :=
  exists v, nth_error r i = Some v /\ forall u, In u r -> u <= v.

(** What is known of the index [topk] returns.  It holds a largest entry
    of the row. *)
Definition returns_largest (K : TopK) : Prop :=
  forall r : list R, r <> [] -> largest_at r (topk_index r).

(** The selection compares the entries and does nothing else with them: it
    returns the same index for two rows whose entries compare alike, as a
    row and its image under an increasing function do. *)
Definition selects_by_comparing (K : TopK) : Prop :=
  forall (f : R -> R) (r : list R),
    (forall a b, a < b -> f a < f b) ->
    topk_index (map f r) = topk_index r.

(** The class the validation counts for a row, and the number of rows of a
    batch whose class is the label. *)
Definition top1 {K : TopK} (r : list R) : nat := topk_index r.

Definition predictions {K : TopK} (log_ps : Matrix) : list nat :=
  map top1 log_ps.

Definition correct {K : TopK} (log_ps : Matrix) (labels : list nat) : nat :=
  count_true (equals (predictions log_ps) labels).

(** A data set the loops run on: it has an image, every image has 784
    entries, every label is one of the ten classes. *)
Definition dataset_ok (ds : Dataset) : bool :=
  negb (length (items ds) =? 0)%nat &&
  (numel (image_shape ds) =? 784)%nat &&
  forallb (fun it => (length (fst it) =? 784)%nat && (snd it <? 10)%nat)
    (items ds).

Definition batch_wf (b : Batch) : Prop :=
  batch_ok (images b) = true /\
  length (labels b) = batch_dim (images b) /\
  Forall (fun y => (y < 10)%nat) (labels b).

(** The batches of one traversal hold every sample of the data set once. *)
Definition covers (ds : Dataset) (bs : list Batch) : Prop :=
  exists xss, bs = map (collate (image_shape ds)) xss /\
              Permutation (concat xss) (items ds).

(** A computation runs from a store to a result that satisfies [Q]. *)
Definition run {S A : Type} (m : SE S A) (s : S) (Q : A -> S -> Prop) : Prop :=
  exists a s', m s = Some (a, s') /\ Q a s'.

(** A computation that never ends with [break]. *)
Definition falls_through {S : Type} (m : SE S ctl) : Prop :=
  forall s c s', m s = Some (c, s') -> c = Next.

(** A computation that leaves an observation of the store as it was. *)
Definition preserves {S A X : Type} (f : S -> X) (m : SE S A) : Prop :=
  forall s a s', m s = Some (a, s') -> f s' = f s.

(** What the proofs use of a model: a well-shaped model accepts a
    well-shaped batch and yields its log-probabilities; the switches and the
    optimizer change what they are to change and nothing else. *)
Class NNModuleLaws {Rng T : Type} (M : NNModule Rng T) : Prop := {
  call_ok : forall (m : T) (x : Tensor) (g : Rng),
    Params_ok (parameters m) = true -> batch_ok x = true ->
    run (call m x) g (fun out _ => log_probs (batch_dim x) out);
  train_parameters : forall m : T, parameters (train m) = parameters m;
  eval_parameters : forall m : T, parameters (eval m) = parameters m;
  train_mode : forall m : T, is_training (train m) = true;
  eval_mode : forall m : T, is_training (eval m) = false;
  load_parameters : forall (p : Params) (m : T), parameters (load p m) = p;
  load_mode : forall (p : Params) (m : T),
    is_training (load p m) = is_training m
}.

(** The losses of the training steps of a trace, and the losses, the
    batches, the number of correct top-1 classes and the number of samples
    of its validation steps. *)
Fixpoint train_losses (tr : list Event) : list R :=
  match tr with
  | [] => []
  | ETrain _ loss :: tr' => loss :: train_losses tr'
  | _ :: tr' => train_losses tr'
  end.

Fixpoint val_losses (tr : list Event) : list R :=
  match tr with
  | [] => []
  | EValidate _ _ _ loss :: tr' => loss :: val_losses tr'
  | _ :: tr' => val_losses tr'
  end.

Fixpoint val_batches (tr : list Event) : list Batch :=
  match tr with
  | [] => []
  | EValidate _ b _ _ :: tr' => b :: val_batches tr'
  | _ :: tr' => val_batches tr'
  end.

Fixpoint num_correct {K : TopK} (tr : list Event) : nat :=
  match tr with
  | [] => 0%nat
  | EValidate _ b log_ps _ :: tr' =>
      (correct log_ps (labels b) + num_correct tr')%nat
  | _ :: tr' => num_correct tr'
  end.

Fixpoint num_samples (tr : list Event) : nat :=
  match tr with
  | [] => 0%nat
  | EValidate _ b _ _ :: tr' => (length (labels b) + num_samples tr')%nat
  | _ :: tr' => num_samples tr'
  end.

(** The discipline of the modes in the trace of one epoch: the model is
    switched to training mode, the training steps follow, all in training
    mode, the model is switched to evaluation mode, the validation steps
    follow, all in evaluation mode. *)
Fixpoint validating (tr : list Event) : bool :=
  match tr with
  | [] => true
  | EValidate false _ _ _ :: tr' => validating tr'
  | _ => false
  end.

Fixpoint training_then_validating (tr : list Event) : bool :=
  match tr with
  | ETrain true _ :: tr' => training_then_validating tr'
  | EMode false :: tr' => validating tr'
  | _ => false
  end.

Definition disciplined (tr : list Event) : bool :=
  match tr with
  | EMode true :: tr' => training_then_validating tr'
  | _ => false
  end.

(** A trace in which the mode is never switched and every step runs in the
    mode [t]. *)
Definition unswitched (t : bool) (e : Event) : Prop :=
  match e with
  | EMode _ => False
  | ETrain t' _ => t' = t
  | EValidate t' _ _ _ => t' = t
  end.

(** What a step of a trace shows: a training loss that is not negative;
    for a validation step, a well-formed batch, its log-probabilities and
    their loss. *)
Definition event_ok (e : Event) : Prop :=
  match e with
  | EMode _ => True
  | ETrain _ loss => 0 <= loss
  | EValidate _ b log_ps loss =>
      batch_wf b /\ log_probs (length (labels b)) log_ps /\
      nll_loss log_ps (labels b) = Some loss
  end.

Definition is_train (t : bool) (e : Event) : Prop :=
  match e with ETrain t' _ => t' = t | _ => False end.

Definition is_validate (t : bool) (e : Event) : Prop :=
  match e with EValidate t' _ _ _ => t' = t | _ => False end.

Definition is_mode (e : Event) : Prop :=
  match e with EMode _ => True | _ => False end.

(** The accuracy of the validation steps of a trace. *)
Definition accuracy_of {K : TopK} (seg : list Event) : R :=
  INR (num_correct seg) / INR (num_samples seg).

(** What one epoch shows and prints, for the epoch [e] of [epochs]: as many
    training steps as the training loader has batches, as many validation
    steps as the test loader has, over batches that hold every held-out
    sample once, and the line with the three means. *)
Definition epoch_facts {K : TopK} (trainset testset : Dataset)
  (epochs e : nat)
  (seg : list Event) (r : Report) : Prop :=
  Forall event_ok seg /\
  length (train_losses seg) = len (trainloader trainset) /\
  (1 <= len (trainloader trainset))%nat /\
  length (val_losses seg) = len (testloader testset) /\
  (1 <= len (testloader testset))%nat /\
  covers testset (val_batches seg) /\
  num_samples seg = length (items testset) /\
  r = mkReport (e + 1) epochs
        (sum (train_losses seg) / INR (length (train_losses seg)))
        (sum (val_losses seg) / INR (length (val_losses seg)))
        (accuracy_of seg * 100).

(** The metrics of an epoch, as the specification gives them: what an epoch
    shows and prints; an accuracy between 0 and 1, which is 1 only when the
    top-1 class of every sample of every validation step is its label. *)
Definition epoch_metrics {K : TopK} (trainset testset : Dataset)
  (epochs e : nat)
  (seg : list Event) (r : Report) : Prop :=
  epoch_facts trainset testset epochs e seg r /\
  0 <= accuracy_of seg <= 1 /\
  (accuracy_of seg = 1 ->
   forall t b log_ps loss,
     In (EValidate t b log_ps loss) seg -> predictions log_ps = labels b).

(** The traces and the lines of a run, epoch by epoch: the [i]-th trace and
    the [i]-th line satisfy [F i]. *)
Definition each_epoch (F : nat -> list Event -> Report -> Prop)
  (segs : list (list Event)) (rs : list Report) : Prop :=
  length segs = length rs /\
  forall i seg r,
    nth_error segs i = Some seg -> nth_error rs i = Some r -> F i seg r.

(** * A small instance of the framework

    A generator without state that keeps every entry and draws zeros and
    the identity arrangement, an optimizer that leaves the parameters as
    they are, and data sets of one black image of class 0. *)

Definition bernoulli0 (q : R) (g : unit) : bool * unit := (true, g).

Definition uniform0 (a b : R) (g : unit) : R * unit := (0, g).

Definition randperm0 (n : nat) (g : unit) : list nat * unit := (seq 0 n, g).

Definition adam0 (o : unit) (p : Params) (d : unit) : Params * unit := (p, o).

Definition grad_add0 (a b : unit) : unit := tt.

Definition autograd0 {T : Type} (m : T) (b : Batch) (g : unit) : unit := tt.

(** Two choices of the index of [topk] among equal largest entries: the
    first of them, as the specification has it, and the last but one of them
    (the only one when there is one).  In [argmax_from], [best] at index
    [bi] is the largest entry seen so far and [i] is the index of the head
    of [x]; in [argmax_tied], [cur] is the last index that holds [best] and
    [prev] the one before it, or [cur]. *)
Fixpoint argmax_from (bi : nat) (best : R) (i : nat) (x : list R) : nat :=
  match x with
  | [] => bi
  | v :: x' =>
      if Rlt_dec best v then argmax_from i v (S i) x'
      else argmax_from bi best (S i) x'
  end.

Definition topk_first : TopK :=
  {| topk_index r :=
       match r with
       | [] => 0%nat
       | v :: x => argmax_from 0 v 1 x
       end |}.

Fixpoint argmax_tied (prev cur : nat) (best : R) (i : nat) (x : list R)
  : nat :=
  match x with
  | [] => prev
  | v :: x' =>
      if Rlt_dec best v then argmax_tied i i v (S i) x'
      else if Rlt_dec v best then argmax_tied prev cur best (S i) x'
      else argmax_tied cur i best (S i) x'
  end.

Definition topk0 : TopK :=
  {| topk_index r :=
       match r with
       | [] => 0%nat
       | v :: x => argmax_tied 0 0 v 1 x
       end |}.

Definition image0 : list R := repeat 0 784.

Definition batch0 : Tensor := mkTensor [1; 1; 28; 28]%nat image0.

Definition dataset0 : Dataset := mkDataset [1; 28; 28]%nat [(image0, 0%nat)].

Definition sample0 : Batch := collate [1; 28; 28]%nat [(image0, 0%nat)].

Definition baseline0 : Baseline.Classifier := fst (Baseline.init uniform0 tt).

Definition regularized0 : Regularized.Classifier :=
  fst (Regularized.init uniform0 tt).

(** Two images that differ, a data set of 65 images, which fill one batch
    and start a second, a data set without images, and a batch of one image
    of three entries. *)
Definition image1 : list R := repeat 1 784.

Definition dataset65 : Dataset :=
  mkDataset [1; 28; 28]%nat (repeat (image0, 0%nat) 65).

Definition dataset_none : Dataset := mkDataset [1; 28; 28]%nat [].

Definition batch_narrow : Tensor := mkTensor [1; 3]%nat [1; 2; 3].

Definition store13 : State unit unit unit :=
  mkState baseline0 tt tt tt 0 0 0 [] [].

Definition store17 : State unit unit unit :=
  mkState regularized0 tt tt tt 0 0 0 [] [].

(** * Properties *)

Unset Implicit Arguments.

(** ** The definitions on small inputs *)

Section Examples.

Example numel_image : numel [1; 28; 28]%nat = 784%nat.
Proof. reflexivity. Qed.

Example len_last_smaller :
  len (mkDataLoader (mkDataset [1; 28; 28]%nat (repeat ([], 0%nat) 130))
         64 true) = 3%nat.
Proof. reflexivity. Qed.

Example chunks_last_smaller :
  chunks 3 2 [4; 0; 3; 1; 2]%nat = [[4; 0]; [3; 1]; [2]]%nat.
Proof. reflexivity. Qed.

Example view_batch_rows :
  view_batch (mkTensor [2; 1; 3]%nat [1; 2; 3; 4; 5; 6])
  = Some [[1; 2; 3]; [4; 5; 6]].
Proof. reflexivity. Qed.

Example view_batch_empty : view_batch (mkTensor [0; 784]%nat []) = None.
Proof. reflexivity. Qed.

Example view_batch_scalar : view_batch (mkTensor [] [1]) = None.
Proof. reflexivity. Qed.

Example linear_wrong_width :
  linear (mkLinear 2 1 [[1; 1]] [0]) [[1; 2; 3]] = None.
Proof. reflexivity. Qed.

Example linear_affine :
  linear (mkLinear 2 1 [[1; 2]] [3]) [[4; 5]] = Some [[4 * 1 + 5 * 2 + 3]].
Proof.
  unfold linear. simpl.
  replace (4 * 1 + (5 * 2 + 0) + 3) with (4 * 1 + 5 * 2 + 3) by lra.
  reflexivity.
Qed.

Example relu_clips : relu [[-1; 2]] = [[0; 2]].
Proof.
  unfold relu. simpl. unfold Rmax.
  repeat (destruct (Rle_dec _ _); try lra). reflexivity.
Qed.

Example log_softmax_uniform : log_softmax_row [0; 0] = [- ln 2; - ln 2].
Proof.
  unfold log_softmax_row, row_max. simpl.
  replace (Rmax 0 0) with 0 by (unfold Rmax; destruct (Rle_dec 0 0); lra).
  replace (0 - 0) with 0 by lra. rewrite exp_0.
  replace (1 + (1 + 0)) with 2 by lra.
  repeat f_equal; lra.
Qed.

Example nll_loss_mean : nll_loss [[-1; -2]; [-3; -4]] [1; 0]%nat = Some (5 / 2).
Proof. unfold nll_loss. simpl. f_equal. lra. Qed.

Example dropout_eval_identity :
  Torch.dropout bernoulli0 (2 / 10) false [[1; 2]] tt = ([[1; 2]], tt).
Proof. reflexivity. Qed.

Example dropout_train_scales :
  Torch.dropout (fun (q : R) (g : bool) => (g, negb g)) (2 / 10) true
    [[1; 2; 3]] true
  = ([[1 / (1 - 2 / 10); 0; 3 / (1 - 2 / 10)]], false).
Proof. reflexivity. Qed.

Example top1_largest :
  top1 (K := topk_first) [1; 3; 2] = 1%nat /\
  top1 (K := topk0) [1; 3; 2] = 1%nat.
Proof.
  unfold top1, topk_index, topk_first, topk0, argmax_from, argmax_tied.
  split; repeat (destruct (Rlt_dec _ _); try lra); reflexivity.
Qed.

Example top1_tie_first : top1 (K := topk_first) [1; 3; 3; 2; 3] = 1%nat.
Proof.
  unfold top1, topk_index, topk_first, argmax_from.
  repeat (destruct (Rlt_dec _ _); try lra); reflexivity.
Qed.

Example top1_tie_last_but_one : top1 (K := topk0) [1; 3; 3; 2; 3] = 2%nat.
Proof.
  unfold top1, topk_index, topk0, argmax_tied.
  repeat (destruct (Rlt_dec _ _); try lra); reflexivity.
Qed.

Example count_true_equals :
  count_true (equals [1; 2; 3]%nat [1; 0; 3]%nat) = 2%nat.
Proof. reflexivity. Qed.

Example view_as_wrong_size : view_as [1; 2]%nat [1; 2; 3]%nat = None.
Proof. reflexivity. Qed.

Example nll_loss_wrong_label : nll_loss [[0; 0]] [2%nat] = None.
Proof. reflexivity. Qed.

Example divide_by_zero : divide 1 0 = None.
Proof. reflexivity. Qed.

Example disciplined_epoch :
  disciplined
    [EMode true; ETrain true 1; ETrain true 2; EMode false;
     EValidate false (mkBatch (mkTensor [] []) []) [] 0] = true.
Proof. reflexivity. Qed.

Example undisciplined_epoch :
  disciplined
    [ETrain true 1; EValidate true (mkBatch (mkTensor [] []) []) [] 0]
  = false.
Proof. reflexivity. Qed.

Example for_else_break :
  for_else [1; 2; 3]%nat
    (fun x => (modify (fun s : list nat => x :: s) ;;
               ret (if (x =? 2)%nat then Break else Next))%se)
    (modify (fun s => 0%nat :: s)) [] = Some (tt, [2; 1]%nat).
Proof. reflexivity. Qed.

Example for_else_exhausted :
  for_else [1; 2; 3]%nat
    (fun x => (modify (fun s : list nat => x :: s) ;; ret Next)%se)
    (modify (fun s => 0%nat :: s)) [] = Some (tt, [0; 3; 2; 1]%nat).
Proof. reflexivity. Qed.

End Examples.

(** ** The tensor operations *)

Section TorchFacts.

Lemma rows_length (b c : nat) (d : list R) : length (rows b c d) = b.
Proof.
  revert d; induction b as [|b IH]; intro d; simpl; [reflexivity|].
  now rewrite IH.
Qed.

Lemma rows_widths (b c : nat) (d : list R) :
  length d = (b * c)%nat ->
  Forall (fun r => length r = c) (rows b c d).
Proof.
  revert d; induction b as [|b IH]; intros d Hd; simpl; constructor.
  - rewrite length_firstn. simpl in Hd. lia.
  - apply IH. rewrite length_skipn. simpl in Hd. lia.
Qed.

Lemma affine_row_length (w : Matrix) (b x : list R) :
  length w = length b -> length (affine_row w b x) = length b.
Proof.
  revert b; induction w as [|wj w IH]; intros [|bj b] H; simpl in *;
    try discriminate; auto.
Qed.

Lemma Linear_ok_inv (i o : nat) (l : Linear) :
  Linear_ok i o l = true ->
  in_features l = i /\ length (weight l) = o /\ length (bias l) = o.
Proof.
  unfold Linear_ok. rewrite !andb_true_iff, !Nat.eqb_eq. tauto.
Qed.

(** A well-shaped layer accepts every batch of rows of [i] entries and
    yields as many rows of [o] entries. *)
Lemma linear_ok (i o : nat) (l : Linear) (x : Matrix) :
  Linear_ok i o l = true ->
  Forall (fun r => length r = i) x ->
  exists y, linear l x = Some y /\ length y = length x /\
            Forall (fun r => length r = o) y.
Proof.
  intros Hl Hx. apply Linear_ok_inv in Hl. destruct Hl as (Hi & Hw & Hb).
  unfold linear.
  assert (forallb (fun r => (length r =? in_features l)%nat) x = true) as ->.
  { apply forallb_forall. intros r Hr. apply Nat.eqb_eq.
    rewrite Forall_forall in Hx. rewrite Hi. now apply Hx. }
  eexists; split; [reflexivity|]. split; [apply length_map|].
  apply Forall_forall. intros r Hr. apply in_map_iff in Hr.
  destruct Hr as (r0 & <- & _). rewrite affine_row_length; lia.
Qed.

Lemma relu_length (x : Matrix) : length (relu x) = length x.
Proof. apply length_map. Qed.

Lemma relu_widths (n : nat) (x : Matrix) :
  Forall (fun r => length r = n) x ->
  Forall (fun r => length r = n) (relu x).
Proof.
  intro H. unfold relu. apply Forall_map.
  eapply Forall_impl; [|exact H]. intros r Hr. now rewrite length_map.
Qed.

Lemma sum_scale (g : R -> R) (c : R) (x : list R) :
  sum (map (fun v => g v * c) x) = sum (map g x) * c.
Proof. induction x as [|v x IH]; simpl; [lra|]. rewrite IH. lra. Qed.

Lemma sum_exp_pos (m : R) (x : list R) :
  x <> [] -> 0 < sum (map (fun v => exp (v - m)) x).
Proof.
  intro Hx.
  assert (forall y, 0 <= sum (map (fun v => exp (v - m)) y)) as Hnn.
  { induction y as [|v y IH]; simpl; [lra|].
    pose proof (exp_pos (v - m)). lra. }
  destruct x as [|v x]; [congruence|]. simpl.
  pose proof (exp_pos (v - m)). pose proof (Hnn x). lra.
Qed.

Lemma sum_exp_ge (m v : R) (x : list R) :
  In v x -> exp (v - m) <= sum (map (fun v => exp (v - m)) x).
Proof.
  assert (forall y, 0 <= sum (map (fun v => exp (v - m)) y)) as Hnn.
  { induction y as [|u y IH]; simpl; [lra|].
    pose proof (exp_pos (u - m)). lra. }
  induction x as [|u x IH]; simpl; [tauto|].
  intros [->|Hin].
  - pose proof (Hnn x). lra.
  - pose proof (IH Hin). pose proof (exp_pos (u - m)). lra.
Qed.

Lemma log_softmax_row_length (x : list R) :
  length (log_softmax_row x) = length x.
Proof. apply length_map. Qed.

(** The exponentials of a log-softmax sum to one. *)
Lemma log_softmax_row_sum (x : list R) :
  x <> [] -> sum (map exp (log_softmax_row x)) = 1.
Proof.
  intro Hx. unfold log_softmax_row.
  set (m := row_max x).
  set (s := sum (map (fun v => exp (v - m)) x)).
  assert (0 < s) as Hs by (apply sum_exp_pos; exact Hx).
  rewrite map_map.
  rewrite (map_ext (fun v => exp (v - m - ln s))
                   (fun v => exp (v - m) * / s)).
  - rewrite sum_scale. fold s. field. lra.
  - intro v. unfold Rminus. rewrite exp_plus, exp_Ropp, exp_ln by exact Hs.
    reflexivity.
Qed.

(** A log-softmax has no positive entry. *)
Lemma log_softmax_row_nonpos (x : list R) :
  Forall (fun v => v <= 0) (log_softmax_row x).
Proof.
  unfold log_softmax_row.
  set (m := row_max x).
  set (s := sum (map (fun v => exp (v - m)) x)).
  apply Forall_forall. intros u Hu. apply in_map_iff in Hu.
  destruct Hu as (v & <- & Hv).
  assert (ln (exp (v - m)) <= ln s) as H.
  { destruct (Rle_lt_or_eq_dec _ _ (sum_exp_ge m v x Hv)) as [Hlt|Heq].
    - left. apply ln_increasing; [apply exp_pos|exact Hlt].
    - right. fold s in Heq. now rewrite Heq. }
  rewrite ln_exp in H. lra.
Qed.

End TorchFacts.

(** ** The forward passes *)

Section ForwardFacts.
Variable Rng : Type.
Variable bernoulli : R -> Rng -> bool * Rng.

Lemma batch_ok_inv (x : Tensor) :
  batch_ok x = true ->
  exists rest, shape x = batch_dim x :: rest /\ (1 <= batch_dim x)%nat /\
    numel rest = 784%nat /\ length (data x) = (batch_dim x * 784)%nat.
Proof.
  unfold batch_ok, batch_dim, tensor_ok.
  destruct (shape x) as [|b rest] eqn:E; [discriminate|].
  cbn [hd tl length]. rewrite !andb_true_iff, !Nat.eqb_eq, Nat.leb_le.
  intros (((Hb & Hn) & Hd) & _). exists rest. rewrite Hd.
  cbn [numel fold_right]. fold (numel rest). rewrite Hn. auto.
Qed.

Lemma view_batch_ok (x : Tensor) :
  batch_ok x = true ->
  exists m, view_batch x = Some m /\ length m = batch_dim x /\
            Forall (fun r => length r = 784%nat) m.
Proof.
  intro H. destruct (batch_ok_inv x H) as (rest & Hs & Hb & Hn & Hd).
  unfold view_batch. rewrite Hs. rewrite <- Hs.
  assert ((numel (shape x) =? 0)%nat = false) as ->.
  { apply Nat.eqb_neq. rewrite Hs. simpl. rewrite Hn. lia. }
  eexists; split; [reflexivity|]. split; [apply rows_length|].
  rewrite Hn. apply rows_widths. exact Hd.
Qed.

Lemma log_softmax_ok (x : Matrix) :
  Forall (fun r => length r = 10%nat) x ->
  log_probs (length x) (log_softmax x).
Proof.
  intro H. unfold log_probs, log_softmax. split; [apply length_map|].
  split; apply Forall_map.
  - eapply Forall_impl; [|exact H]. intros r Hr. split.
    + now rewrite log_softmax_row_length.
    + apply log_softmax_row_sum. intros ->. discriminate.
  - apply Forall_forall. intros r _. apply log_softmax_row_nonpos.
Qed.

Lemma Params_ok_inv (p : Params) :
  Params_ok p = true ->
  Linear_ok 784 256 (layer1 p) = true /\ Linear_ok 256 128 (layer2 p) = true /\
  Linear_ok 128 64 (layer3 p) = true /\ Linear_ok 64 10 (layer4 p) = true.
Proof. unfold Params_ok. rewrite !andb_true_iff. tauto. Qed.

(** The last three stages of both forward passes, from rows of [i]
    entries on. *)
Lemma hidden_ok (i o : nat) (l : Linear) (x : Matrix) :
  Linear_ok i o l = true ->
  Forall (fun r => length r = i) x ->
  exists y, option_map relu (linear l x) = Some y /\ length y = length x /\
            Forall (fun r => length r = o) y.
Proof.
  intros Hl Hx. destruct (linear_ok _ _ _ _ Hl Hx) as (y & -> & Hlen & Hw).
  exists (relu y). simpl. split; [reflexivity|].
  split; [now rewrite relu_length|now apply relu_widths].
Qed.

Lemma output_ok (l : Linear) (x : Matrix) :
  Linear_ok 64 10 l = true ->
  Forall (fun r => length r = 64%nat) x ->
  exists y, option_map log_softmax (linear l x) = Some y /\
            log_probs (length x) y.
Proof.
  intros Hl Hx. destruct (linear_ok _ _ _ _ Hl Hx) as (y & -> & Hlen & Hw).
  exists (log_softmax y). simpl. split; [reflexivity|].
  rewrite <- Hlen. now apply log_softmax_ok.
Qed.

Lemma baseline_forward_ok (m : Baseline.Classifier) (x : Tensor) :
  Params_ok (Baseline.parameters m) = true ->
  batch_ok x = true ->
  exists out, Baseline.forward m x = Some out /\ log_probs (batch_dim x) out.
Proof.
  intros Hp Hx. apply Params_ok_inv in Hp. simpl in Hp.
  destruct Hp as (H1 & H2 & H3 & H4).
  destruct (view_batch_ok x Hx) as (x0 & E0 & L0 & W0).
  destruct (hidden_ok _ _ _ x0 H1 W0) as (x1 & E1 & L1 & W1).
  destruct (hidden_ok _ _ _ x1 H2 W1) as (x2 & E2 & L2 & W2).
  destruct (hidden_ok _ _ _ x2 H3 W2) as (x3 & E3 & L3 & W3).
  destruct (output_ok _ x3 H4 W3) as (x4 & E4 & P4).
  exists x4. unfold Baseline.forward.
  rewrite E0; simpl. rewrite E1; simpl. rewrite E2; simpl.
  rewrite E3; simpl. rewrite E4; simpl. split; [reflexivity|].
  now rewrite <- L0, <- L1, <- L2, <- L3.
Qed.

Lemma dropout_row_length (p : R) (x : list R) (g : Rng) :
  length (fst (dropout_row bernoulli p x g)) = length x.
Proof.
  revert g; induction x as [|v x IH]; intro g; simpl; [reflexivity|].
  destruct (bernoulli (1 - p) g) as [keep g1].
  specialize (IH g1). destruct (dropout_row bernoulli p x g1) as [r g2].
  simpl in *. now rewrite IH.
Qed.

Lemma dropout_ok (p : R) (t : bool) (n : nat) (x : Matrix) (g : Rng) :
  Forall (fun r => length r = n) x ->
  length (fst (Torch.dropout bernoulli p t x g)) = length x /\
  Forall (fun r => length r = n) (fst (Torch.dropout bernoulli p t x g)).
Proof.
  unfold Torch.dropout. destruct t; [|simpl; auto].
  revert g; induction x as [|r x IH]; intros g H; simpl; [auto|].
  inversion H as [|? ? Hr Hx]; subst.
  pose proof (dropout_row_length p r g) as Hl.
  destruct (dropout_row bernoulli p r g) as [r1 g1].
  specialize (IH g1 Hx). destruct (dropout_rows bernoulli p x g1) as [x1 g2].
  simpl in *. destruct IH as [IH1 IH2]. split; [now rewrite IH1|].
  constructor; [exact Hl|exact IH2].
Qed.

Lemma regularized_forward_ok (m : Regularized.Classifier) (x : Tensor)
  (g : Rng) :
  Params_ok (Regularized.parameters m) = true ->
  batch_ok x = true ->
  exists out g', Regularized.forward bernoulli m x g = Some (out, g') /\
                 log_probs (batch_dim x) out.
Proof.
  intros Hp Hx. apply Params_ok_inv in Hp. simpl in Hp.
  destruct Hp as (H1 & H2 & H3 & H4).
  destruct (view_batch_ok x Hx) as (x0 & E0 & L0 & W0).
  destruct (hidden_ok _ _ _ x0 H1 W0) as (x1 & E1 & L1 & W1).
  set (p := Regularized.dropout m). set (t := Regularized.training m).
  destruct (dropout_ok p t _ _ g W1) as [LD1 WD1].
  destruct (Torch.dropout bernoulli p t x1 g) as [d1 g1] eqn:D1.
  simpl in LD1, WD1.
  destruct (hidden_ok _ _ _ d1 H2 WD1) as (x2 & E2 & L2 & W2).
  destruct (dropout_ok p t _ _ g1 W2) as [LD2 WD2].
  destruct (Torch.dropout bernoulli p t x2 g1) as [d2 g2] eqn:D2.
  simpl in LD2, WD2.
  destruct (hidden_ok _ _ _ d2 H3 WD2) as (x3 & E3 & L3 & W3).
  destruct (dropout_ok p t _ _ g2 W3) as [LD3 WD3].
  destruct (Torch.dropout bernoulli p t x3 g2) as [d3 g3] eqn:D3.
  simpl in LD3, WD3.
  destruct (output_ok _ d3 H4 WD3) as (x4 & E4 & P4).
  exists x4, g3. unfold Regularized.forward, Regularized.call_dropout, bind, lift, ret.
  fold p t. rewrite E0, E1, D1, E2, D2, E3, D3, E4. split; [reflexivity|].
  now rewrite <- L0, <- L1, <- LD1, <- L2, <- LD2, <- L3, <- LD3.
Qed.

End ForwardFacts.

(** ** The constructors *)

Section InitFacts.
Variable Rng : Type.
Variable uniform : R -> R -> Rng -> R * Rng.

Lemma uniform_list_length (n : nat) (a b : R) (g : Rng) :
  length (fst (uniform_list uniform n a b g)) = n.
Proof.
  revert g; induction n as [|n IH]; intro g; simpl; [reflexivity|].
  destruct (uniform a b g) as [v g1]. specialize (IH g1).
  destruct (uniform_list uniform n a b g1) as [r g2]. simpl in *. now rewrite IH.
Qed.

Lemma uniform_rows_shape (o i : nat) (a b : R) (g : Rng) :
  length (fst (uniform_rows uniform o i a b g)) = o /\
  forallb (fun w => (length w =? i)%nat)
    (fst (uniform_rows uniform o i a b g)) = true.
Proof.
  revert g; induction o as [|o IH]; intro g; simpl; [auto|].
  pose proof (uniform_list_length i a b g) as Hl.
  destruct (uniform_list uniform i a b g) as [r g1]. specialize (IH g1).
  destruct (uniform_rows uniform o i a b g1) as [m g2]. simpl in *.
  destruct IH as [IH1 IH2]. rewrite IH1, IH2, Hl, Nat.eqb_refl. auto.
Qed.

Lemma nn_Linear_ok (i o : nat) (g : Rng) :
  Linear_ok i o (fst (nn_Linear uniform i o g)) = true.
Proof.
  unfold nn_Linear, Linear_ok.
  set (k := sqrt (/ INR i)).
  destruct (uniform_rows_shape o i (- k) k g) as [H1 H2].
  destruct (uniform_rows uniform o i (- k) k g) as [w g1].
  pose proof (uniform_list_length o (- k) k g1) as H3.
  destruct (uniform_list uniform o (- k) k g1) as [b g2]. simpl in *.
  now rewrite H1, H2, H3, !Nat.eqb_refl.
Qed.

(** A fresh baseline model has the four layers at their sizes and is in
    training mode. *)
Lemma baseline_init_ok (g : Rng) :
  Params_ok (Baseline.parameters (fst (Baseline.init uniform g))) = true /\
  Baseline.training (fst (Baseline.init uniform g)) = true.
Proof.
  unfold Baseline.init, Params_ok.
  pose proof (nn_Linear_ok 784 256 g) as H1.
  destruct (nn_Linear uniform 784 256 g) as [l1 g1].
  pose proof (nn_Linear_ok 256 128 g1) as H2.
  destruct (nn_Linear uniform 256 128 g1) as [l2 g2].
  pose proof (nn_Linear_ok 128 64 g2) as H3.
  destruct (nn_Linear uniform 128 64 g2) as [l3 g3].
  pose proof (nn_Linear_ok 64 10 g3) as H4.
  destruct (nn_Linear uniform 64 10 g3) as [l4 g4].
  simpl in *. now rewrite H1, H2, H3, H4.
Qed.

(** A fresh model with dropout has them too, and a dropout of 0.2. *)
Lemma regularized_init_ok (g : Rng) :
  Params_ok (Regularized.parameters (fst (Regularized.init uniform g)))
    = true /\
  Regularized.dropout (fst (Regularized.init uniform g)) = 2 / 10 /\
  Regularized.training (fst (Regularized.init uniform g)) = true.
Proof.
  unfold Regularized.init, Params_ok.
  pose proof (nn_Linear_ok 784 256 g) as H1.
  destruct (nn_Linear uniform 784 256 g) as [l1 g1].
  pose proof (nn_Linear_ok 256 128 g1) as H2.
  destruct (nn_Linear uniform 256 128 g1) as [l2 g2].
  pose proof (nn_Linear_ok 128 64 g2) as H3.
  destruct (nn_Linear uniform 128 64 g2) as [l3 g3].
  pose proof (nn_Linear_ok 64 10 g3) as H4.
  destruct (nn_Linear uniform 64 10 g3) as [l4 g4].
  simpl in *. now rewrite H1, H2, H3, H4.
Qed.

End InitFacts.

(** ** The forward passes and the pipeline of the specification *)

Section PipelineFacts.
Variable Rng : Type.
Variable bernoulli : R -> Rng -> bool * Rng.


Lemma baseline_forward_pipeline (m : Baseline.Classifier) (x : Tensor)
  (g : Rng) :
  Params_ok (Baseline.parameters m) = true ->
  lift (Baseline.forward m x) g =
  (y <- lift (view_batch x) ;;
   run_pipeline bernoulli (Baseline.training m)
     (pipeline_plain (Baseline.parameters m)) y)%se g.
Proof.
  intro Hp. apply Params_ok_inv in Hp. simpl in Hp.
  destruct Hp as (H1 & H2 & H3 & H4).
  unfold Baseline.forward, pipeline_plain. cbn [Baseline.parameters
    layer1 layer2 layer3 layer4 run_pipeline run_stage].
  rewrite H1, H2, H3, H4. unfold bind, lift, ret, obind.
  destruct (view_batch x) as [x0|]; [|reflexivity].
  destruct (linear (Baseline.fc1 m) x0) as [x1|]; [|reflexivity]. simpl.
  destruct (linear (Baseline.fc2 m) (relu x1)) as [x2|]; [|reflexivity]. simpl.
  destruct (linear (Baseline.fc3 m) (relu x2)) as [x3|]; [|reflexivity]. simpl.
  destruct (linear (Baseline.fc4 m) (relu x3)) as [x4|]; reflexivity.
Qed.

Lemma regularized_forward_pipeline (m : Regularized.Classifier) (x : Tensor)
  (g : Rng) :
  Params_ok (Regularized.parameters m) = true ->
  Regularized.forward bernoulli m x g =
  (y <- lift (view_batch x) ;;
   run_pipeline bernoulli (Regularized.training m)
     (pipeline_dropout (Regularized.dropout m) (Regularized.parameters m))
     y)%se g.
Proof.
  intro Hp. apply Params_ok_inv in Hp. simpl in Hp.
  destruct Hp as (H1 & H2 & H3 & H4).
  unfold Regularized.forward, Regularized.call_dropout, pipeline_dropout.
  cbn [Regularized.parameters
    layer1 layer2 layer3 layer4 run_pipeline run_stage].
  rewrite H1, H2, H3, H4. unfold bind, lift, ret.
  destruct (view_batch x) as [x0|]; [|reflexivity].
  destruct (linear (Regularized.fc1 m) x0) as [x1|]; [|reflexivity]. simpl.
  destruct (Torch.dropout bernoulli _ _ (relu x1) g) as [d1 g1].
  destruct (linear (Regularized.fc2 m) d1) as [x2|]; [|reflexivity]. simpl.
  destruct (Torch.dropout bernoulli _ _ (relu x2) g1) as [d2 g2].
  destruct (linear (Regularized.fc3 m) d2) as [x3|]; [|reflexivity]. simpl.
  destruct (Torch.dropout bernoulli _ _ (relu x3) g2) as [d3 g3].
  destruct (linear (Regularized.fc4 m) d3) as [x4|]; reflexivity.
Qed.

(** Outside training mode the stages of dropout do nothing: the pipeline
    with them runs as the one without. *)
Lemma pipeline_dropout_eval (q : R) (p : Params) (y : Matrix) (g : Rng) :
  run_pipeline bernoulli false (pipeline_dropout q p) y g =
  run_pipeline bernoulli false (pipeline_plain p) y g.
Proof.
  unfold pipeline_dropout, pipeline_plain.
  cbn [run_pipeline run_stage Torch.dropout]. unfold bind, lift, ret, raise.
  destruct (Linear_ok 784 256 (layer1 p)); [|reflexivity].
  destruct (linear (layer1 p) y) as [x1|]; [|reflexivity].
  destruct (Linear_ok 256 128 (layer2 p)); [|reflexivity].
  destruct (linear (layer2 p) (relu x1)) as [x2|]; [|reflexivity].
  destruct (Linear_ok 128 64 (layer3 p)); [|reflexivity].
  destruct (linear (layer3 p) (relu x2)) as [x3|]; [|reflexivity].
  reflexivity.
Qed.

(** In evaluation mode the forward pass with dropout leaves the generator
    alone, and its output is the same from every state of the generator. *)
Lemma regularized_eval_pure (m : Regularized.Classifier) (x : Tensor)
  (g1 g2 : Rng) :
  Regularized.training m = false ->
  Regularized.forward bernoulli m x g1 =
  match Regularized.forward bernoulli m x g2 with
  | Some (out, _) => Some (out, g1)
  | None => None
  end.
Proof.
  intro Ht.
  unfold Regularized.forward, Regularized.call_dropout, Torch.dropout.
  rewrite Ht. unfold bind, lift, ret.
  destruct (view_batch x) as [x0|]; [|reflexivity].
  destruct (linear (Regularized.fc1 m) x0) as [x1|]; [|reflexivity]. simpl.
  destruct (linear (Regularized.fc2 m) (relu x1)) as [x2|]; [|reflexivity].
  simpl.
  destruct (linear (Regularized.fc3 m) (relu x2)) as [x3|]; [|reflexivity].
  simpl.
  destruct (linear (Regularized.fc4 m) (relu x3)) as [x4|]; reflexivity.
Qed.

End PipelineFacts.

(** ** The top-1 class and the loss *)

Section MetricFacts.

Lemma argmax_from_first (x pre : list R) (bi : nat) (best : R) :
  nth_error pre bi = Some best ->
  (forall u, In u pre -> u <= best) ->
  (forall j u, (j < bi)%nat -> nth_error pre j = Some u -> u < best) ->
  first_argmax (pre ++ x) (argmax_from bi best (length pre) x).
Proof.
  revert pre bi best. induction x as [|v x IH]; intros pre bi best Hn Hmax Hfst.
  - simpl. rewrite app_nil_r. exists best. auto.
  - assert (bi < length pre)%nat as Hbi
      by (apply nth_error_Some; rewrite Hn; discriminate).
    replace (pre ++ v :: x) with ((pre ++ [v]) ++ x)
      by (rewrite <- app_assoc; reflexivity).
    simpl. replace (S (length pre)) with (length (pre ++ [v]))
      by (rewrite length_app; simpl; lia).
    destruct (Rlt_dec best v) as [Hlt|Hge].
    + apply IH.
      * rewrite nth_error_app2, Nat.sub_diag by lia. reflexivity.
      * intros u Hu. apply in_app_or in Hu. destruct Hu as [Hu|[<-|[]]].
        -- apply Hmax in Hu. lra.
        -- lra.
      * intros j u Hj Hu. rewrite nth_error_app1 in Hu by exact Hj.
        apply nth_error_In in Hu. apply Hmax in Hu. lra.
    + apply IH.
      * rewrite nth_error_app1 by exact Hbi. exact Hn.
      * intros u Hu. apply in_app_or in Hu. destruct Hu as [Hu|[<-|[]]].
        -- now apply Hmax.
        -- lra.
      * intros j u Hj Hu. rewrite nth_error_app1 in Hu by lia.
        now apply (Hfst j).
Qed.

(** The first of the largest entries is a choice [topk] can make. *)
Lemma top1_first_argmax (r : list R) :
  r <> [] -> first_argmax r (top1 (K := topk_first) r).
Proof.
  destruct r as [|v x]; [congruence|]. intros _. unfold top1, topk_index.
  cbn [topk_first].
  apply (argmax_from_first x [v] 0 v); simpl.
  - reflexivity.
  - intros u [<-|[]]. lra.
  - intros j u Hj. lia.
Qed.

Lemma first_argmax_largest (r : list R) (i : nat) :
  first_argmax r i -> largest_at r i.
Proof. intros (v & Hv & Hmax & _). exists v. auto. Qed.

Lemma increasing_lt (f : R -> R) (a b : R) :
  (forall a b, a < b -> f a < f b) -> f a < f b -> a < b.
Proof.
  intros Hf H. destruct (Rtotal_order a b) as [Hab|[Hab|Hab]];
    [exact Hab| |].
  - subst. lra.
  - apply Hf in Hab. lra.
Qed.

Lemma argmax_from_alike (f : R -> R) (x : list R) (bi i : nat) (best : R) :
  (forall a b, a < b -> f a < f b) ->
  argmax_from bi (f best) i (map f x) = argmax_from bi best i x.
Proof.
  intro Hf. revert bi i best. induction x as [|v x IH]; intros bi i best;
    [reflexivity|].
  cbn [map argmax_from].
  destruct (Rlt_dec best v) as [H|H], (Rlt_dec (f best) (f v)) as [H'|H'].
  - apply IH.
  - elim H'. now apply Hf.
  - elim H. now apply (increasing_lt f).
  - apply IH.
Qed.

Lemma topk_first_largest : returns_largest topk_first.
Proof.
  intros r Hr. apply first_argmax_largest. now apply top1_first_argmax.
Qed.

Lemma topk_first_compares : selects_by_comparing topk_first.
Proof.
  intros f [|v x] Hf; [reflexivity|]. cbn [topk_index topk_first map].
  now apply argmax_from_alike.
Qed.

(** So is the last but one of them. *)
Lemma argmax_tied_largest (x pre : list R) (prev cur : nat) (best : R) :
  nth_error pre prev = Some best ->
  nth_error pre cur = Some best ->
  (forall u, In u pre -> u <= best) ->
  largest_at (pre ++ x) (argmax_tied prev cur best (length pre) x).
Proof.
  revert pre prev cur best.
  induction x as [|v x IH]; intros pre prev cur best Hp Hc Hmax.
  - simpl. rewrite app_nil_r. exists best. auto.
  - assert (prev < length pre)%nat as Hpl
      by (apply nth_error_Some; rewrite Hp; discriminate).
    assert (cur < length pre)%nat as Hcl
      by (apply nth_error_Some; rewrite Hc; discriminate).
    assert (nth_error (pre ++ [v]) (length pre) = Some v) as Hv
      by (rewrite nth_error_app2, Nat.sub_diag by lia; reflexivity).
    replace (pre ++ v :: x) with ((pre ++ [v]) ++ x)
      by (rewrite <- app_assoc; reflexivity).
    cbn [argmax_tied]. replace (S (length pre)) with (length (pre ++ [v]))
      by (rewrite length_app; simpl; lia).
    destruct (Rlt_dec best v) as [Hlt|Hge]; [|destruct (Rlt_dec v best)].
    + apply IH; [exact Hv|exact Hv|].
      intros u Hu. apply in_app_or in Hu. destruct Hu as [Hu|[<-|[]]].
      * apply Hmax in Hu. lra.
      * lra.
    + apply IH.
      * rewrite nth_error_app1 by exact Hpl. exact Hp.
      * rewrite nth_error_app1 by exact Hcl. exact Hc.
      * intros u Hu. apply in_app_or in Hu. destruct Hu as [Hu|[<-|[]]].
        -- now apply Hmax.
        -- lra.
    + assert (v = best) as -> by lra. apply IH.
      * rewrite nth_error_app1 by exact Hcl. exact Hc.
      * exact Hv.
      * intros u Hu. apply in_app_or in Hu. destruct Hu as [Hu|[<-|[]]].
        -- now apply Hmax.
        -- lra.
Qed.


Lemma topk0_largest : returns_largest topk0.
Proof.
  intros [|v x] Hr; [congruence|]. cbn [topk_index topk0].
  apply (argmax_tied_largest x [v] 0 0 v); try reflexivity.
  intros u [<-|[]]. lra.
Qed.


(** On a row of equal entries it returns the last index but one. *)
Lemma argmax_tied_tie (prev cur i : nat) (c : R) (x : list R) :
  argmax_tied prev cur c i (c :: x) = argmax_tied cur i c (S i) x.
Proof.
  cbn [argmax_tied]. destruct (Rlt_dec c c) as [H|H]; [lra|reflexivity].
Qed.

Lemma topk0_ten_equal (c : R) : top1 (K := topk0) (repeat c 10) = 8%nat.
Proof.
  unfold top1. cbn [topk_index topk0 repeat].
  rewrite !argmax_tied_tie. reflexivity.
Qed.

Context {K : TopK}.

Lemma topk1_row_top1 (r : list R) :
  r <> [] -> option_map snd (topk1_row r) = Some (top1 r).
Proof. destruct r; [congruence|reflexivity]. Qed.

Lemma topk1_predictions (x : Matrix) :
  Forall (fun r => r <> []) x ->
  exists vs, topk1 x = Some (vs, predictions x).
Proof.
  induction 1 as [|r x Hr Hx IH]; simpl.
  - eexists; reflexivity.
  - destruct IH as (vs & ->). destruct r as [|v r]; [congruence|].
    simpl. eexists; reflexivity.
Qed.

(** The classes counted for the rows are indices of largest entries. *)
Lemma predictions_largest (x : Matrix) :
  returns_largest K ->
  Forall (fun r => r <> []) x -> Forall2 largest_at x (predictions x).
Proof.
  intro HK. induction 1 as [|r x Hr _ IH]; simpl; constructor; auto.
Qed.

Lemma count_true_le (a b : list nat) :
  (count_true (equals a b) <= length b)%nat.
Proof.
  unfold count_true. revert b; induction a as [|c a IH]; intros [|y b]; simpl;
    try lia.
  specialize (IH b). destruct (c =? y)%nat; simpl; lia.
Qed.

Lemma count_true_all (a b : list nat) :
  length a = length b -> count_true (equals a b) = length b -> a = b.
Proof.
  unfold count_true. revert b; induction a as [|c a IH]; intros [|y b] Hl Hc;
    simpl in *; try discriminate; [reflexivity|].
  pose proof (count_true_le a b) as Hle. unfold count_true in Hle.
  destruct (c =? y)%nat eqn:E; simpl in Hc; [|lia].
  apply Nat.eqb_eq in E. subst. f_equal. apply IH; lia.
Qed.

Lemma picks_ok (lp : Matrix) (ys : list nat) :
  length lp = length ys ->
  Forall (fun r => length r = 10%nat) lp ->
  Forall nonpositive lp ->
  Forall (fun y => (y < 10)%nat) ys ->
  exists vs, picks lp ys = Some vs /\ Forall (fun v => v <= 0) vs.
Proof.
  revert ys; induction lp as [|r lp IH]; intros [|y ys] Hl Hw Hn Hy;
    simpl in *; try discriminate.
  - exists []. auto.
  - inversion Hw; inversion Hn; inversion Hy; subst.
    destruct (IH ys) as (vs & -> & Hvs); auto.
    destruct (nth_error r y) as [v|] eqn:E.
    + exists (v :: vs). simpl. split; [reflexivity|]. constructor; [|exact Hvs].
      apply nth_error_In in E.
      match goal with H : nonpositive r |- _ =>
        unfold nonpositive in H; rewrite Forall_forall in H; now apply H end.
    + apply nth_error_None in E. lia.
Qed.

Lemma sum_opp_nonneg (vs : list R) :
  Forall (fun v => v <= 0) vs -> 0 <= sum (map Ropp vs).
Proof. induction 1 as [|v vs Hv _ IH]; simpl; lra. Qed.

Lemma mean_nonneg (x : R) (n : nat) : 0 <= x -> 0 <= x / INR n.
Proof.
  intro Hx. destruct n as [|n].
  - simpl. unfold Rdiv. rewrite Rinv_0. lra.
  - apply Rmult_le_pos; [exact Hx|]. left. apply Rinv_0_lt_compat.
    apply lt_0_INR. lia.
Qed.

(** The loss of a batch of log-probabilities is defined and not negative. *)
Lemma nll_loss_ok (B : nat) (lp : Matrix) (ys : list nat) :
  log_probs B lp -> length ys = B ->
  Forall (fun y => (y < 10)%nat) ys ->
  exists loss, nll_loss lp ys = Some loss /\ 0 <= loss.
Proof.
  intros (Hl & Hn & Hp) Hy Hc.
  destruct (picks_ok lp ys) as (vs & E & Hvs); auto; try lia.
  - eapply Forall_impl; [|exact Hn]. intros r Hr. apply Hr.
  - unfold nll_loss. rewrite E. simpl. eexists; split; [reflexivity|].
    apply mean_nonneg. now apply sum_opp_nonneg.
Qed.

End MetricFacts.

(** ** One traversal of a loader *)

Section LoaderFacts.
Variable Rng : Type.
Variable randperm : nat -> Rng -> list nat * Rng.
Hypothesis randperm_perm :
  forall n g, Permutation (fst (randperm n g)) (seq 0 n).

Lemma chunks_length (c bs : nat) (l : list nat) : length (chunks c bs l) = c.
Proof.
  revert l; induction c as [|c IH]; intro l; simpl; [reflexivity|].
  now rewrite IH.
Qed.

Lemma chunks_concat (c bs : nat) (l : list nat) :
  (length l <= c * bs)%nat -> concat (chunks c bs l) = l.
Proof.
  revert l; induction c as [|c IH]; intros l Hl; simpl in *.
  - destruct l; [reflexivity|simpl in Hl; lia].
  - rewrite IH; [apply firstn_skipn|]. rewrite length_skipn. lia.
Qed.

Lemma chunks_nonempty (c bs : nat) (l : list nat) :
  (0 < bs)%nat -> (c * bs < length l + bs)%nat ->
  Forall (fun ch => ch <> []) (chunks c bs l).
Proof.
  intro Hbs. revert l; induction c as [|c IH]; intros l Hl; simpl in *;
    constructor.
  - destruct l as [|a l]; [simpl in Hl; lia|].
    destruct bs; [lia|]. simpl. discriminate.
  - apply IH. rewrite length_skipn.
    destruct (le_lt_dec bs (length l)); [lia|]. nia.
Qed.

Lemma len_bounds (n bs : nat) :
  (0 < n)%nat -> (0 < bs)%nat ->
  (n <= (n + bs - 1) / bs * bs /\ (n + bs - 1) / bs * bs < n + bs /\
   1 <= (n + bs - 1) / bs)%nat.
Proof.
  intros Hn Hbs.
  pose proof (Nat.div_mod_eq (n + bs - 1) bs) as E.
  pose proof (Nat.mod_upper_bound (n + bs - 1) bs ltac:(lia)) as Hr.
  set (c := ((n + bs - 1) / bs)%nat) in *.
  set (r := ((n + bs - 1) mod bs)%nat) in *.
  repeat split; nia.
Qed.

Lemma fetch_ok (its : list Sample) (idx : list nat) :
  Forall (fun i => (i < length its)%nat) idx ->
  exists xs, fetch its idx = Some xs /\ map Some xs = map (nth_error its) idx.
Proof.
  induction 1 as [|i idx Hi _ IH]; simpl.
  - exists []. auto.
  - destruct IH as (xs & -> & E).
    destruct (nth_error its i) as [x|] eqn:En.
    + exists (x :: xs). simpl. now rewrite E.
    + apply nth_error_None in En. lia.
Qed.

Lemma batches_of_ok (ds : Dataset) (ixs : list (list nat)) :
  Forall (Forall (fun i => (i < length (items ds))%nat)) ixs ->
  exists xss,
    batches_of ds ixs = Some (map (collate (image_shape ds)) xss) /\
    map Some (concat xss) = map (nth_error (items ds)) (concat ixs) /\
    Forall2 (fun xs ix => length xs = length ix) xss ixs.
Proof.
  induction 1 as [|ix ixs Hix _ IH]; simpl.
  - exists []. simpl. auto.
  - destruct IH as (xss & -> & E & F).
    destruct (fetch_ok (items ds) ix Hix) as (xs & -> & Ex).
    exists (xs :: xss). simpl. split; [reflexivity|]. split.
    + now rewrite !map_app, E, Ex.
    + constructor; [|exact F].
      apply (f_equal (@length _)) in Ex. now rewrite !length_map in Ex.
Qed.

Lemma Forall2_In_left {A B : Type} (P : A -> B -> Prop) (l : list A)
  (l' : list B) (x : A) :
  Forall2 P l l' -> In x l -> exists y, In y l' /\ P x y.
Proof.
  induction 1 as [|a b l l' Hab _ IH]; simpl; [tauto|].
  intros [<-|Hx]; [eauto|]. destruct (IH Hx) as (y & Hy & Hp). eauto.
Qed.

Lemma nth_error_seq (its : list Sample) :
  map (nth_error its) (seq 0 (length its)) = map Some its.
Proof.
  induction its as [|a its IH]; simpl; [reflexivity|].
  f_equal. rewrite <- seq_shift, map_map. exact IH.
Qed.

Lemma Permutation_Some (xs ys : list Sample) :
  Permutation (map Some xs) (map Some ys) -> Permutation xs ys.
Proof.
  intro H.
  apply (Permutation_map
           (fun o => match o with Some x => x | None => ([], 0%nat) end)) in H.
  rewrite !map_map in H. now rewrite !map_id in H.
Qed.

Lemma perm_in_range (n : nat) (perm : list nat) :
  Permutation perm (seq 0 n) -> Forall (fun i => (i < n)%nat) perm.
Proof.
  intro H. apply Forall_forall. intros i Hi.
  apply (Permutation_in _ H) in Hi. apply in_seq in Hi. lia.
Qed.

Lemma dataset_ok_inv (ds : Dataset) :
  dataset_ok ds = true ->
  (0 < length (items ds))%nat /\ numel (image_shape ds) = 784%nat /\
  Forall (fun it => length (fst it) = 784%nat /\ (snd it < 10)%nat) (items ds).
Proof.
  unfold dataset_ok. rewrite !andb_true_iff, negb_true_iff, !Nat.eqb_eq.
  rewrite Nat.eqb_neq, forallb_forall. intros ((Hn & Hs) & Hf).
  split; [lia|]. split; [exact Hs|]. apply Forall_forall. intros it Hit.
  specialize (Hf it Hit). rewrite andb_true_iff, Nat.eqb_eq, Nat.ltb_lt in Hf.
  exact Hf.
Qed.

Lemma concat_images_length (xs : list Sample) :
  Forall (fun it => length (fst it) = 784%nat) xs ->
  length (concat (map fst xs)) = (length xs * 784)%nat.
Proof.
  induction 1 as [|x xs Hx _ IH]; simpl; [reflexivity|].
  rewrite length_app, IH, Hx. reflexivity.
Qed.

(** A batch collated from samples of a well-formed data set is one the model
    and the loss accept. *)
Lemma collate_wf (ds : Dataset) (xs : list Sample) :
  dataset_ok ds = true -> xs <> [] ->
  Forall (fun x => In x (items ds)) xs ->
  batch_wf (collate (image_shape ds) xs).
Proof.
  intros Hds Hne Hin. apply dataset_ok_inv in Hds.
  destruct Hds as (_ & Hs & Hit). rewrite Forall_forall in Hit.
  assert (Forall (fun it => length (fst it) = 784%nat /\ (snd it < 10)%nat) xs)
    as Hxs.
  { eapply Forall_impl; [|exact Hin]. intros x Hx. now apply Hit. }
  unfold batch_wf, collate, batch_ok, batch_dim, tensor_ok.
  cbn [images labels shape data hd tl length numel fold_right].
  fold (numel (image_shape ds)). rewrite Hs.
  rewrite concat_images_length
    by (eapply Forall_impl; [|exact Hxs]; intros x Hx; apply Hx).
  rewrite length_map. repeat split.
  - destruct xs as [|x xs]; [congruence|]. simpl length.
    rewrite Nat.eqb_refl, Nat.eqb_refl. reflexivity.
  - apply Forall_map. eapply Forall_impl; [|exact Hxs]. intros x Hx. apply Hx.
Qed.

(** A traversal of a loader over a well-formed data set yields [len]
    batches, at least one, each of them well-formed, and together they hold
    every sample once. *)
Lemma iter_ok (ds : Dataset) (bs : nat) (sh : bool) (g : Rng) :
  dataset_ok ds = true -> (0 < bs)%nat ->
  exists batches g',
    iter randperm (mkDataLoader ds bs sh) g = Some (batches, g') /\
    length batches = len (mkDataLoader ds bs sh) /\
    (1 <= len (mkDataLoader ds bs sh))%nat /\
    Forall batch_wf batches /\ covers ds batches.
Proof.
  intros Hds Hbs. pose proof (dataset_ok_inv ds Hds) as (Hn & _ & _).
  unfold iter, len. cbn [dataset batch_size shuffle].
  set (n := length (items ds)) in *.
  set (c := ((n + bs - 1) / bs)%nat).
  destruct (len_bounds n bs Hn Hbs) as (Hc1 & Hc2 & Hc3). fold c in Hc1, Hc2, Hc3.
  assert (exists perm g', (if sh then randperm n g else (seq 0 n, g)) = (perm, g')
                          /\ Permutation perm (seq 0 n)) as (perm & g' & -> & Hp).
  { destruct sh.
    - pose proof (randperm_perm n g) as Hp.
      destruct (randperm n g) as [perm g']. eauto.
    - eauto using Permutation_refl. }
  assert (length perm = n) as Hlen
    by (rewrite (Permutation_length Hp); apply length_seq).
  pose proof (chunks_concat c bs perm ltac:(lia)) as Hcat.
  pose proof (chunks_nonempty c bs perm Hbs ltac:(lia)) as Hne.
  destruct (batches_of_ok ds (chunks c bs perm)) as (xss & -> & E & F).
  { apply Forall_concat. rewrite Hcat. now apply perm_in_range. }
  rewrite Hcat in E.
  assert (Permutation (concat xss) (items ds)) as Hcov.
  { apply Permutation_Some. rewrite E, <- nth_error_seq.
    apply Permutation_map. exact Hp. }
  exists (map (collate (image_shape ds)) xss), g'. simpl.
  split; [reflexivity|]. split.
  { rewrite length_map, (Forall2_length F). apply chunks_length. }
  split; [exact Hc3|]. split; [|exists xss; auto].
  apply Forall_map. apply Forall_forall. intros xs Hxs.
  apply collate_wf; [exact Hds| |].
  - destruct (Forall2_In_left _ _ _ xs F Hxs) as (ix & Hix & Hl).
    rewrite Forall_forall in Hne. specialize (Hne ix Hix).
    intros ->. destruct ix; [congruence|discriminate].
  - apply Forall_forall. intros x Hx.
    apply (Permutation_in _ Hcov). apply in_concat. eauto.
Qed.

End LoaderFacts.

(** ** Running computations *)

Section RunFacts.
Context {S : Type}.

Lemma run_ret {A : Type} (a : A) (s : S) (Q : A -> S -> Prop) :
  Q a s -> run (ret a) s Q.
Proof. intro H. exists a, s. auto. Qed.

Lemma run_bind {A B : Type} (m : SE S A) (k : A -> SE S B) (s : S)
  (Q : B -> S -> Prop) :
  run m s (fun a s' => run (k a) s' Q) -> run (bind m k) s Q.
Proof.
  intros (a & s' & E & b & s'' & E' & H). exists b, s''. unfold bind.
  rewrite E. auto.
Qed.

Lemma run_modify (f : S -> S) (s : S) (Q : unit -> S -> Prop) :
  Q tt (f s) -> run (modify f) s Q.
Proof. intro H. exists tt, (f s). auto. Qed.

Lemma run_weaken {A : Type} (m : SE S A) (s : S) (Q Q' : A -> S -> Prop) :
  run m s Q -> (forall a s', Q a s' -> Q' a s') -> run m s Q'.
Proof. intros (a & s' & E & H) HQ. exists a, s'. auto. Qed.

(** A loop with an [else] suite runs when every body runs, falls through and
    keeps the invariant, and the suite runs from what the last body leaves. *)
Lemma run_for_else {A : Type} (P : A -> Prop) (I : list A -> S -> Prop)
  (body : A -> SE S ctl) (orelse : SE S unit) (Q : unit -> S -> Prop)
  (xs : list A) :
  (forall seen x s, P x -> I seen s ->
     run (body x) s (fun c s' => c = Next /\ I (seen ++ [x]) s')) ->
  Forall P xs ->
  forall seen s,
    I seen s ->
    (forall s', I (seen ++ xs) s' -> run orelse s' Q) ->
    run (for_else xs body orelse) s Q.
Proof.
  intros Hbody. induction 1 as [|x xs Hx _ IH]; intros seen s Hs Helse.
  - simpl. apply Helse. now rewrite app_nil_r.
  - simpl. apply run_bind.
    apply (run_weaken _ _ _ _ (Hbody seen x s Hx Hs)).
    intros c s' [-> Hs']. apply (IH (seen ++ [x]) s' Hs').
    intros s'' H. apply Helse. now rewrite <- app_assoc in H.
Qed.

Lemma run_for {A : Type} (P : A -> Prop) (I : list A -> S -> Prop)
  (body : A -> SE S ctl) (xs : list A) :
  (forall seen x s, P x -> I seen s ->
     run (body x) s (fun c s' => c = Next /\ I (seen ++ [x]) s')) ->
  Forall P xs ->
  forall seen s,
    I seen s -> run (for_ xs body) s (fun _ s' => I (seen ++ xs) s').
Proof.
  intros Hbody. induction 1 as [|x xs Hx _ IH]; intros seen s Hs.
  - simpl. apply run_ret. now rewrite app_nil_r.
  - simpl. apply run_bind.
    apply (run_weaken _ _ _ _ (Hbody seen x s Hx Hs)).
    intros c s' [-> Hs']. apply (run_weaken _ _ _ _ (IH (seen ++ [x]) s' Hs')).
    intros _ s'' H. now rewrite <- app_assoc in H.
Qed.

Lemma falls_through_bind {A : Type} (m : SE S A) (k : A -> SE S ctl) :
  (forall a, falls_through (k a)) -> falls_through (bind m k).
Proof.
  intros Hk s c s'. unfold bind. destruct (m s) as [[a s1]|]; [|discriminate].
  apply Hk.
Qed.

Lemma falls_through_ret : falls_through (ret (S := S) Next).
Proof. intros s c s' E. now inversion E. Qed.

Lemma bind_ext {A B : Type} (m : SE S A) (k1 k2 : A -> SE S B) :
  (forall a s, k1 a s = k2 a s) -> forall s, bind m k1 s = bind m k2 s.
Proof.
  intros H s. unfold bind. destruct (m s) as [[a s']|]; [apply H|reflexivity].
Qed.

Lemma for_ext {A : Type} (xs : list A) (b1 b2 : A -> SE S ctl) :
  (forall x s, b1 x s = b2 x s) -> forall s, for_ xs b1 s = for_ xs b2 s.
Proof.
  intro H. induction xs as [|x xs IH]; intro s; simpl; [reflexivity|].
  unfold bind. rewrite H. destruct (b2 x s) as [[[|] s']|]; auto.
Qed.

(** When no body ends with [break], the [else] suite of a loop runs as if it
    were written after the loop. *)
Lemma for_else_flat {A : Type} (xs : list A) (body : A -> SE S ctl)
  (orelse : SE S unit) :
  (forall x, falls_through (body x)) ->
  forall s, for_else xs body orelse s = (for_ xs body ;; orelse)%se s.
Proof.
  intro Hb. induction xs as [|x xs IH]; intro s; simpl; [reflexivity|].
  unfold bind. destruct (body x s) as [[c s']|] eqn:E; [|reflexivity].
  rewrite (Hb x s c s' E). rewrite IH. reflexivity.
Qed.

Lemma preserves_ret {A X : Type} (f : S -> X) (a : A) : preserves f (ret a).
Proof. intros s a' s' E. now inversion E. Qed.

Lemma preserves_bind {A B X : Type} (f : S -> X) (m : SE S A)
  (k : A -> SE S B) :
  preserves f m -> (forall a, preserves f (k a)) -> preserves f (bind m k).
Proof.
  intros Hm Hk s b s'. unfold bind.
  destruct (m s) as [[a s1]|] eqn:E; [|discriminate].
  intro E'. rewrite (Hk a s1 b s' E'). now apply (Hm s a s1).
Qed.

Lemma preserves_modify {X : Type} (f : S -> X) (g : S -> S) :
  (forall s, f (g s) = f s) -> preserves f (modify g).
Proof. intros H s a s' E. inversion E. apply H. Qed.

Lemma preserves_get {X : Type} (f : S -> X) : preserves f get.
Proof. intros s a s' E. now inversion E. Qed.

Lemma preserves_lift {A X : Type} (f : S -> X) (o : option A) :
  preserves f (lift o).
Proof. intros s a s' E. unfold lift in E. destruct o; now inversion E. Qed.

Lemma preserves_for_else {A X : Type} (f : S -> X) (xs : list A)
  (body : A -> SE S ctl) (orelse : SE S unit) :
  (forall x, preserves f (body x)) -> preserves f orelse ->
  preserves f (for_else xs body orelse).
Proof.
  intros Hb He. induction xs as [|x xs IH]; simpl; [exact He|].
  apply preserves_bind; [apply Hb|]. intros [|]; [exact IH|apply preserves_ret].
Qed.

End RunFacts.

(** ** The two models keep the laws of a model *)

Lemma baseline_laws (Rng : Type) : NNModuleLaws (baseline_module Rng).
Proof.
  constructor; try reflexivity; try (intros [] ?; reflexivity).
  intros m x g Hp Hx.
  destruct (baseline_forward_ok m x Hp Hx) as (out & E & H).
  exists out, g. simpl. unfold lift. rewrite E. auto.
Qed.

Lemma regularized_laws (Rng : Type) (bernoulli : R -> Rng -> bool * Rng) :
  NNModuleLaws (regularized_module bernoulli).
Proof.
  constructor; try reflexivity; try (intros [] ?; reflexivity).
  intros m x g Hp Hx.
  destruct (regularized_forward_ok Rng bernoulli m x g Hp Hx)
    as (out & g' & E & H).
  exists out, g'. auto.
Qed.

(** ** Reading a trace *)

Section TraceFacts.
Context {K : TopK}.

Lemma sum_app (a b : list R) : sum (a ++ b) = sum a + sum b.
Proof. induction a as [|v a IH]; simpl; [lra|]. rewrite IH. lra. Qed.

Lemma train_losses_app (a b : list Event) :
  train_losses (a ++ b) = train_losses a ++ train_losses b.
Proof.
  induction a as [|[] a IH]; simpl; auto. now rewrite IH.
Qed.

Lemma val_losses_app (a b : list Event) :
  val_losses (a ++ b) = val_losses a ++ val_losses b.
Proof.
  induction a as [|[] a IH]; simpl; auto. now rewrite IH.
Qed.

Lemma val_batches_app (a b : list Event) :
  val_batches (a ++ b) = val_batches a ++ val_batches b.
Proof.
  induction a as [|[] a IH]; simpl; auto. now rewrite IH.
Qed.

Lemma num_correct_app (a b : list Event) :
  num_correct (a ++ b) = (num_correct a + num_correct b)%nat.
Proof.
  induction a as [|[] a IH]; simpl; auto. rewrite IH. lia.
Qed.

Lemma num_samples_app (a b : list Event) :
  num_samples (a ++ b) = (num_samples a + num_samples b)%nat.
Proof.
  induction a as [|[] a IH]; simpl; auto. rewrite IH. lia.
Qed.

(** A run of training steps has no validation step, and conversely. *)
Lemma train_steps_facts (t : bool) (tr : list Event) :
  Forall (is_train t) tr ->
  length (train_losses tr) = length tr /\ val_losses tr = [] /\
  val_batches tr = [] /\ num_correct tr = 0%nat /\ num_samples tr = 0%nat.
Proof.
  induction 1 as [|[] tr He _ IH]; simpl in *; try tauto.
  destruct IH as (-> & -> & -> & -> & ->). auto.
Qed.

Lemma validate_steps_facts (t : bool) (tr : list Event) :
  Forall (is_validate t) tr ->
  length (val_losses tr) = length tr /\ train_losses tr = [] /\
  length (val_batches tr) = length tr.
Proof.
  induction 1 as [|[] tr He _ IH]; simpl in *; try tauto.
  destruct IH as (-> & -> & ->). auto.
Qed.

(** The samples of batches that hold a data set once are as many as the
    data set has. *)
Lemma covers_samples (ds : Dataset) (bs : list Batch) :
  covers ds bs ->
  length (concat (map labels bs)) = length (items ds).
Proof.
  intros (xss & -> & Hp). rewrite <- (Permutation_length Hp).
  clear Hp. induction xss as [|xs xss IH]; simpl; [reflexivity|].
  rewrite !length_app, IH, length_map. reflexivity.
Qed.

Lemma num_samples_batches (tr : list Event) :
  num_samples tr = length (concat (map labels (val_batches tr))).
Proof.
  induction tr as [|[] tr IH]; simpl; auto. rewrite length_app, IH. reflexivity.
Qed.

(** The correct classes of a trace are at most its samples, and as many
    only when every class is the label. *)
Lemma num_correct_le (tr : list Event) :
  (num_correct tr <= num_samples tr)%nat.
Proof.
  induction tr as [|[] tr IH]; simpl; auto.
  pose proof (count_true_le (predictions log_ps) (labels b)).
  unfold correct. lia.
Qed.

Lemma num_correct_all (tr : list Event) :
  Forall event_ok tr -> num_correct tr = num_samples tr ->
  forall t b log_ps loss,
    In (EValidate t b log_ps loss) tr -> predictions log_ps = labels b.
Proof.
  induction 1 as [|e tr He _ IH]; intros Hc t b lp loss Hin; [destruct Hin|].
  pose proof (num_correct_le tr) as Hle.
  destruct e as [m|m l|m b0 lp0 l0]; simpl in Hc, Hin;
    try (destruct Hin as [Hin|Hin]; [discriminate|now apply (IH Hc t b lp loss)]).
  pose proof (count_true_le (predictions lp0) (labels b0)) as Hb.
  unfold correct in Hc.
  destruct Hin as [Hin|Hin]; [|apply (IH ltac:(lia) t b lp loss Hin)].
  inversion Hin; subst. destruct He as (_ & (Hl & _) & _).
  apply count_true_all; [|lia].
  unfold predictions. now rewrite length_map.
Qed.

Lemma mode_steps_facts (tr : list Event) :
  Forall is_mode tr ->
  Forall event_ok tr /\ train_losses tr = [] /\ val_losses tr = [] /\
  val_batches tr = [] /\ num_correct tr = 0%nat /\ num_samples tr = 0%nat.
Proof.
  induction 1 as [|[] tr He _ IH]; simpl in *; try tauto.
  - repeat split; auto.
  - destruct IH as (H & -> & -> & -> & -> & ->). repeat split; auto.
Qed.

(** The facts of an epoch, from the steps of its two passes: the switches
    of the mode [pre] and [mid], if any, the training steps [tevs] and the
    validation steps [vevs]. *)
Lemma epoch_facts_intro (trainset testset : Dataset) (epochs e : nat)
  (pre tevs mid vevs : list Event) (t1 t2 : bool) :
  dataset_ok trainset = true -> dataset_ok testset = true ->
  Forall is_mode pre -> Forall is_mode mid ->
  Forall (is_train t1) tevs -> Forall event_ok tevs ->
  length tevs = len (trainloader trainset) ->
  Forall (is_validate t2) vevs -> Forall event_ok vevs ->
  length vevs = len (testloader testset) ->
  covers testset (val_batches vevs) ->
  epoch_facts trainset testset epochs e (pre ++ tevs ++ mid ++ vevs)
    (mkReport (e + 1) epochs
       (sum (train_losses tevs) / INR (len (trainloader trainset)))
       (sum (val_losses vevs) / INR (len (testloader testset)))
       (INR (num_correct vevs) / INR (length (items testset)) * 100)).
Proof.
  intros Hd1 Hd2 Hpre Hmid Ht Hto Htl Hv Hvo Hvl Hcov.
  destruct (mode_steps_facts pre Hpre) as (P0 & P1 & P2 & P3 & P4 & P5).
  destruct (mode_steps_facts mid Hmid) as (M0 & M1 & M2 & M3 & M4 & M5).
  destruct (train_steps_facts t1 tevs Ht) as (T1 & T2 & T3 & T4 & T5).
  destruct (validate_steps_facts t2 vevs Hv) as (V1 & V2 & V3).
  pose proof (dataset_ok_inv _ Hd1) as (Hn1 & _).
  pose proof (dataset_ok_inv _ Hd2) as (Hn2 & _).
  destruct (len_bounds _ 64 Hn1 ltac:(lia)) as (_ & _ & Hc1).
  destruct (len_bounds _ 64 Hn2 ltac:(lia)) as (_ & _ & Hc2).
  assert (num_samples vevs = length (items testset)) as Hns
    by (rewrite num_samples_batches; now apply covers_samples).
  unfold epoch_facts, accuracy_of.
  rewrite !train_losses_app, !val_losses_app, !val_batches_app,
    !num_correct_app, !num_samples_app.
  rewrite P1, P2, P3, P4, P5, M1, M2, M3, M4, M5, T2, T3, T4, T5, V2.
  simpl. rewrite !app_nil_r, T1, V1, Htl, Hvl, Hns.
  repeat split; auto.
  repeat (apply Forall_app; split); auto.
Qed.

Lemma validating_steps (vevs : list Event) :
  Forall (is_validate false) vevs -> validating vevs = true.
Proof.
  induction 1 as [|[] tr He _ IH]; simpl in *; try tauto. now subst.
Qed.

(** An epoch that switches the mode before each of its passes keeps the
    discipline of the modes. *)
Lemma disciplined_intro (tevs vevs : list Event) :
  Forall (is_train true) tevs -> Forall (is_validate false) vevs ->
  disciplined ([EMode true] ++ tevs ++ [EMode false] ++ vevs) = true.
Proof.
  intros Ht Hv. simpl.
  induction Ht as [|[] tr He _ IH]; simpl in *; try tauto.
  - now apply validating_steps.
  - now subst.
Qed.

Lemma unswitched_intro (t : bool) (tevs vevs : list Event) :
  Forall (is_train t) tevs -> Forall (is_validate t) vevs ->
  Forall (unswitched t) (tevs ++ vevs).
Proof.
  intros Ht Hv. apply Forall_app. split.
  - eapply Forall_impl; [|exact Ht]. intros []; simpl; tauto.
  - eapply Forall_impl; [|exact Hv]. intros []; simpl; tauto.
Qed.

End TraceFacts.

(** ** The steps of the loops *)

Section LoopFacts.
Context {K : TopK}.
Variable Rng : Type.
Variable randperm : nat -> Rng -> list nat * Rng.
Variable OptState : Type.
Variable Grad : Type.
Variable grad_zero : Grad.
Variable grad_add : Grad -> Grad -> Grad.
Variable adam : OptState -> Params -> Grad -> Params * OptState.
Context {T : Type} {M : NNModule Rng T}.
Variable autograd : T -> Batch -> Rng -> Grad.
Variable trainset testset : Dataset.

Hypothesis randperm_perm :
  forall n g, Permutation (fst (randperm n g)) (seq 0 n).
Hypothesis adam_ok :
  forall o p d, Params_ok p = true -> Params_ok (fst (adam o p d)) = true.
Hypothesis laws : NNModuleLaws M.
Hypothesis trainset_ok : dataset_ok trainset = true.
Hypothesis testset_ok : dataset_ok testset = true.

Local Abbreviation Store := (State Rng OptState Grad (T := T)).

(** A training step runs on a well-formed batch: it keeps the shapes of the
    parameters and the mode, prints nothing, adds a loss that is not
    negative to [running_loss], and shows it. *)
Lemma train_batch_run (b : Batch) (s : Store) :
  Params_ok (parameters (model s)) = true -> batch_wf b ->
  run (train_batch grad_zero grad_add adam autograd b) s
    (fun c s' =>
       c = Next /\
       Params_ok (parameters (model s')) = true /\
       is_training (model s') = is_training (model s) /\
       stdout s' = stdout s /\
       exists loss, 0 <= loss /\
         running_loss s' = running_loss s + loss /\
         trace s' = trace s ++ [ETrain (is_training (model s)) loss]).
Proof.
  intros Hp (Hb & Hl & Hy).
  destruct (call_ok (model s) (images b) (rng s) Hp Hb) as (lp & g' & Ec & Hlp).
  destruct (nll_loss_ok _ lp (labels b) Hlp Hl Hy) as (loss & El & Hloss).
  pose proof (adam_ok (optimizer s) (parameters (model s))
                (grad_add grad_zero (autograd (model s) b (rng s))) Hp) as Ha.
  unfold run, train_batch, zero_grad, backward, optimizer_step, call_model,
    with_rng, bind, modify, get, lift, ret.
  cbn [model rng grad optimizer set_grad set_rng]. rewrite Ec, El.
  cbn [model rng grad optimizer set_grad set_rng].
  destruct (adam (optimizer s) (parameters (model s))
              (grad_add grad_zero (autograd (model s) b (rng s)))) as [p o].
  eexists _, _. split; [reflexivity|].
  cbn [model stdout trace running_loss set_model set_optimizer
         set_running_loss observe fst] in *.
  rewrite load_parameters, load_mode.
  split; [reflexivity|]. split; [exact Ha|]. split; [reflexivity|].
  split; [reflexivity|]. exists loss. auto.
Qed.

(** A validation step runs on a well-formed batch: it leaves the model, the
    optimizer and the gradients as they were, adds the loss of the batch to
    [testing_loss] and the number of correct top-1 classes to [accuracy],
    and shows the batch and the log-probabilities of the model. *)
Lemma validate_batch_run (b : Batch) (s : Store) :
  Params_ok (parameters (model s)) = true -> batch_wf b ->
  run (validate_batch b) s
    (fun c s' =>
       c = Next /\
       model s' = model s /\ optimizer s' = optimizer s /\
       grad s' = grad s /\ running_loss s' = running_loss s /\
       stdout s' = stdout s /\
       exists lp loss,
         call (model s) (images b) (rng s) = Some (lp, rng s') /\
         log_probs (length (labels b)) lp /\
         nll_loss lp (labels b) = Some loss /\
         testing_loss s' = testing_loss s + loss /\
         accuracy s' = accuracy s + INR (correct lp (labels b)) /\
         trace s' = trace s ++ [EValidate (is_training (model s)) b lp loss]).
Proof.
  intros Hp (Hb & Hl & Hy).
  destruct (call_ok (model s) (images b) (rng s) Hp Hb) as (lp & g' & Ec & Hlp).
  destruct (nll_loss_ok _ lp (labels b) Hlp Hl Hy) as (loss & El & Hloss).
  rewrite <- Hl in Hlp.
  destruct (topk1_predictions lp) as (vs & Et).
  { destruct Hlp as (_ & Hn & _). eapply Forall_impl; [|exact Hn].
    intros r [Hr _] ->. discriminate. }
  assert (view_as (predictions lp) (labels b) = Some (labels b)) as Ev.
  { unfold view_as, predictions. rewrite length_map.
    destruct Hlp as (-> & _). now rewrite Nat.eqb_refl. }
  unfold run, validate_batch, call_model, with_rng, bind, modify, get, lift,
    ret.
  rewrite Ec, El. cbn [model rng set_rng set_testing_loss]. rewrite Et.
  cbn [snd]. rewrite Ev.
  eexists _, _. split; [reflexivity|].
  cbn [model optimizer grad rng running_loss stdout trace testing_loss
         accuracy set_accuracy set_testing_loss set_rng observe].
  repeat (split; [reflexivity|]). exists lp, loss.
  split; [reflexivity|]. split; [exact Hlp|]. split; [exact El|].
  repeat split; reflexivity.
Qed.

(** The loop over the training batches, followed by its [else] suite. *)
Lemma train_loop_run (batches : list Batch) (orelse : SE Store unit)
  (Q : unit -> Store -> Prop) (s : Store) :
  Forall batch_wf batches ->
  Params_ok (parameters (model s)) = true ->
  (forall s1 evs,
     Params_ok (parameters (model s1)) = true ->
     is_training (model s1) = is_training (model s) ->
     stdout s1 = stdout s ->
     trace s1 = trace s ++ evs ->
     Forall (is_train (is_training (model s))) evs ->
     Forall event_ok evs ->
     length evs = length batches ->
     running_loss s1 = running_loss s + sum (train_losses evs) ->
     run orelse s1 Q) ->
  run (for_else batches (train_batch grad_zero grad_add adam autograd) orelse)
    s Q.
Proof.
  intros Hb Hp Helse.
  apply (run_for_else batch_wf
    (fun seen s1 =>
       Params_ok (parameters (model s1)) = true /\
       is_training (model s1) = is_training (model s) /\
       stdout s1 = stdout s /\
       exists evs, trace s1 = trace s ++ evs /\
         Forall (is_train (is_training (model s))) evs /\
         Forall event_ok evs /\ length evs = length seen /\
         running_loss s1 = running_loss s + sum (train_losses evs))
    _ _ _ batches) with (seen := []); [|exact Hb| |].
  - intros seen b s1 Hwf (Hp1 & Hm1 & Ho1 & evs & Ht & Hf & Hok & Hlen & Hr).
    apply (run_weaken _ _ _ _ (train_batch_run b s1 Hp1 Hwf)).
    intros c s2 (-> & Hp2 & Hm2 & Ho2 & loss & Hl & Hr2 & Ht2).
    split; [reflexivity|]. split; [exact Hp2|]. split; [congruence|].
    split; [congruence|]. exists (evs ++ [ETrain (is_training (model s)) loss]).
    rewrite Ht2, Ht, Hm1, <- app_assoc. split; [reflexivity|].
    split; [apply Forall_app; split; [exact Hf|repeat constructor]|].
    split; [apply Forall_app; split;
            [exact Hok|constructor; [exact Hl|constructor]]|].
    split; [rewrite !length_app, Hlen; reflexivity|].
    rewrite Hr2, Hr, train_losses_app, sum_app. simpl. lra.
  - split; [exact Hp|]. split; [reflexivity|]. split; [reflexivity|].
    exists []. rewrite app_nil_r. simpl. repeat split; auto. lra.
  - intros s1 (Hp1 & Hm1 & Ho1 & evs & Ht & Hf & Hok & Hlen & Hr).
    now apply (Helse s1 evs).
Qed.

(** The loop over the held-out batches, followed by its [else] suite. *)
Lemma validation_loop_run (batches : list Batch) (orelse : SE Store unit)
  (Q : unit -> Store -> Prop) (s : Store) :
  Forall batch_wf batches ->
  Params_ok (parameters (model s)) = true ->
  (forall s1 evs,
     model s1 = model s -> optimizer s1 = optimizer s -> grad s1 = grad s ->
     running_loss s1 = running_loss s -> stdout s1 = stdout s ->
     trace s1 = trace s ++ evs ->
     Forall (is_validate (is_training (model s))) evs ->
     Forall event_ok evs ->
     val_batches evs = batches ->
     testing_loss s1 = testing_loss s + sum (val_losses evs) ->
     accuracy s1 = accuracy s + INR (num_correct evs) ->
     run orelse s1 Q) ->
  run (for_else batches (@validate_batch Rng K OptState Grad T M) orelse) s Q.
Proof.
  intros Hb Hp Helse.
  apply (run_for_else batch_wf
    (fun seen s1 =>
       model s1 = model s /\ optimizer s1 = optimizer s /\
       grad s1 = grad s /\ running_loss s1 = running_loss s /\
       stdout s1 = stdout s /\
       exists evs, trace s1 = trace s ++ evs /\
         Forall (is_validate (is_training (model s))) evs /\
         Forall event_ok evs /\ val_batches evs = seen /\
         testing_loss s1 = testing_loss s + sum (val_losses evs) /\
         accuracy s1 = accuracy s + INR (num_correct evs))
    _ _ _ batches) with (seen := []); [|exact Hb| |].
  - intros seen b s1 Hwf
      (Hm1 & Hopt1 & Hg1 & Hr1 & Ho1 & evs & Ht & Hf & Hok & Hvb & Hl & Ha).
    assert (Params_ok (parameters (model s1)) = true) as Hp1 by now rewrite Hm1.
    apply (run_weaken _ _ _ _ (validate_batch_run b s1 Hp1 Hwf)).
    intros c s2
      (-> & Hm2 & Hopt2 & Hg2 & Hr2 & Ho2 & lp & loss & _ & Hlp & Hn & Hl2 & Ha2
          & Ht2).
    split; [reflexivity|]. repeat (split; [congruence|]).
    exists (evs ++ [EValidate (is_training (model s)) b lp loss]).
    rewrite Ht2, Ht, Hm1, <- app_assoc. split; [reflexivity|].
    split; [apply Forall_app; split; [exact Hf|repeat constructor]|].
    split; [apply Forall_app; split;
            [exact Hok|constructor; [simpl; auto|constructor]]|].
    split; [rewrite val_batches_app, Hvb; reflexivity|].
    rewrite Hl2, Hl, Ha2, Ha, val_losses_app, sum_app, num_correct_app,
      plus_INR.
    simpl. rewrite Nat.add_0_r. split; lra.
  - repeat (split; [reflexivity|]). exists []. rewrite app_nil_r. simpl.
    repeat split; auto; lra.
  - intros s1
      (Hm1 & Hopt1 & Hg1 & Hr1 & Ho1 & evs & Ht & Hf & Hok & Hvb & Hl & Ha).
    now apply (Helse s1 evs).
Qed.

(** The [else] suite of the validation loop divides and prints. *)
Lemma report_run (e epochs : nat) (s : Store) :
  run (report trainset testset e epochs) s
    (fun _ s' =>
       model s' = model s /\ optimizer s' = optimizer s /\
       grad s' = grad s /\ rng s' = rng s /\ trace s' = trace s /\
       running_loss s' = running_loss s / INR (len (trainloader trainset)) /\
       testing_loss s' = testing_loss s / INR (len (testloader testset)) /\
       accuracy s' = accuracy s / INR (length (items testset)) /\
       stdout s' = stdout s ++
         [mkReport (e + 1) epochs (running_loss s') (testing_loss s')
            (accuracy s' * 100)]).
Proof.
  pose proof (dataset_ok_inv _ trainset_ok) as (Hn1 & _).
  pose proof (dataset_ok_inv _ testset_ok) as (Hn2 & _).
  destruct (len_bounds _ 64 Hn1 ltac:(lia)) as (_ & _ & Hc1).
  destruct (len_bounds _ 64 Hn2 ltac:(lia)) as (_ & _ & Hc2).
  unfold run, report, bind, get, modify, lift, ret, divide.
  change (len (trainloader trainset))
    with ((length (items trainset) + 64 - 1) / 64)%nat.
  change (len (testloader testset))
    with ((length (items testset) + 64 - 1) / 64)%nat.
  cbn [dataset testloader].
  destruct (Nat.eqb_spec ((length (items trainset) + 64 - 1) / 64) 0); [lia|].
  destruct (Nat.eqb_spec ((length (items testset) + 64 - 1) / 64) 0); [lia|].
  destruct (Nat.eqb_spec (length (items testset)) 0); [lia|].
  eexists _, _. split; [reflexivity|]. cbn. repeat split; reflexivity.
Qed.

Lemma with_rng_run {A : Type} (m : SE Rng A) (s : Store)
  (Q : A -> Store -> Prop) :
  run m (rng s) (fun a g => Q a (set_rng g s)) -> run (with_rng m) s Q.
Proof.
  intros (a & g & E & H). exists a, (set_rng g s). unfold with_rng.
  rewrite E. auto.
Qed.

(** The validation pass of cell 13 runs from every store with a well-shaped
    model: it leaves the model, the optimizer and the gradients as they
    were, shows one validation step for each batch of the test loader, and
    prints the line of the epoch. *)
Lemma validation13_run (epochs e : nat) (s : Store) :
  Params_ok (parameters (model s)) = true ->
  run (validation13 randperm trainset testset epochs e) s
    (fun _ s' =>
       model s' = model s /\ optimizer s' = optimizer s /\
       grad s' = grad s /\
       exists vevs,
         trace s' = trace s ++ vevs /\
         Forall (is_validate (is_training (model s))) vevs /\
         Forall event_ok vevs /\
         length vevs = len (testloader testset) /\
         covers testset (val_batches vevs) /\
         stdout s' = stdout s ++
           [mkReport (e + 1) epochs
              (running_loss s / INR (len (trainloader trainset)))
              (sum (val_losses vevs) / INR (len (testloader testset)))
              (INR (num_correct vevs) / INR (length (items testset)) * 100)]).
Proof.
  intro Hp. unfold validation13.
  apply run_bind, run_modify. apply run_bind, run_modify.
  apply run_bind, with_rng_run. cbn [rng set_accuracy set_testing_loss].
  destruct (iter_ok Rng randperm randperm_perm testset 64 true (rng s)
              testset_ok ltac:(lia)) as (bs & g' & E & Hlen & Hc & Hwf & Hcov).
  exists bs, g'. split; [exact E|].
  apply validation_loop_run; [exact Hwf|exact Hp|].
  intros s1 vevs Hm Hopt Hg Hr Ho Ht Hf Hok Hvb Hl Ha.
  apply (run_weaken _ _ _ _ (report_run e epochs s1)).
  intros _ s2 (Hm2 & Hopt2 & Hg2 & _ & Ht2 & Hr2 & Hl2 & Ha2 & Ho2).
  cbn [model optimizer grad running_loss stdout trace testing_loss accuracy
         set_rng set_accuracy set_testing_loss] in *.
  split; [congruence|]. split; [congruence|]. split; [congruence|].
  exists vevs. split; [congruence|]. split; [exact Hf|]. split; [exact Hok|].
  destruct (validate_steps_facts _ vevs Hf) as (_ & _ & Hvl).
  split; [rewrite <- Hvl, Hvb; exact Hlen|].
  split; [rewrite Hvb; exact Hcov|].
  rewrite Ho2, Ho, Hr2, Hl2, Ha2, Hr, Hl, Ha. repeat f_equal; lra.
Qed.

(** The validation pass of cell 17 is the one of cell 13 after
    [model.eval()]. *)
Lemma validation17_unfold (epochs e : nat) (s : Store) :
  validation17 randperm trainset testset epochs e s =
  validation13 randperm trainset testset epochs e
    (observe (EMode false) (set_model (eval (model s)) s)).
Proof. reflexivity. Qed.

(** A traversal of a loader of cell 1, from the store. *)
Lemma iter_run (ds : Dataset) (s : Store) :
  dataset_ok ds = true ->
  run (with_rng (iter randperm (mkDataLoader ds 64 true))) s
    (fun bs s' =>
       (exists g, s' = set_rng g s) /\
       length bs = len (mkDataLoader ds 64 true) /\
       Forall batch_wf bs /\ covers ds bs).
Proof.
  intro Hds. apply with_rng_run.
  destruct (iter_ok Rng randperm randperm_perm ds 64 true (rng s)
              Hds ltac:(lia)) as (bs & g' & E & Hlen & Hc & Hwf & Hcov).
  exists bs, g'. split; [exact E|]. eauto.
Qed.

(** One epoch of cell 13 runs from every store with a well-shaped model: it
    keeps the shapes and the mode, and shows and prints what an epoch is to
    show and print, without a switch of the mode. *)
Lemma epoch13_run (epochs e : nat) (s : Store) :
  Params_ok (parameters (model s)) = true ->
  run (epoch13 randperm grad_zero grad_add adam autograd trainset testset
         epochs e) s
    (fun c s' =>
       c = Next /\ Params_ok (parameters (model s')) = true /\
       is_training (model s') = is_training (model s) /\
       exists seg r,
         trace s' = trace s ++ seg /\ stdout s' = stdout s ++ [r] /\
         epoch_facts trainset testset epochs e seg r /\
         Forall (unswitched (is_training (model s))) seg).
Proof.
  intro Hp. unfold epoch13.
  apply run_bind, run_modify. apply run_bind.
  apply (run_weaken _ _ _ _ (iter_run trainset _ trainset_ok)).
  intros bs s0 ((g & ->) & Hlen & Hwf & _).
  apply run_bind. apply train_loop_run; [exact Hwf|exact Hp|].
  intros s1 tevs Hp1 Hm1 Ho1 Ht1 Hf1 Hok1 Hl1 Hr1.
  apply (run_weaken _ _ _ _ (validation13_run epochs e s1 Hp1)).
  intros _ s2 (Hm2 & _ & _ & vevs & Ht2 & Hf2 & Hok2 & Hl2 & Hcov & Ho2).
  apply run_ret.
  cbn [model stdout trace running_loss set_rng set_running_loss] in *.
  split; [reflexivity|]. split; [now rewrite Hm2|].
  split; [now rewrite Hm2|]. rewrite Hm1 in Hf2.
  eexists (tevs ++ vevs), _. split; [rewrite Ht2, Ht1, app_assoc; reflexivity|].
  split; [rewrite Ho2, Ho1; reflexivity|]. split.
  - replace (running_loss s1) with (sum (train_losses tevs)) by lra.
    apply (epoch_facts_intro trainset testset epochs e [] tevs [] vevs
             (is_training (model s)) (is_training (model s))); auto.
    rewrite Hl1. exact Hlen.
  - now apply unswitched_intro.
Qed.

(** One epoch of cell 17 runs from every store with a well-shaped model: it
    keeps the shapes, and shows and prints what an epoch is to show and
    print, in the discipline of the modes. *)
Lemma epoch17_run (epochs e : nat) (s : Store) :
  Params_ok (parameters (model s)) = true ->
  run (epoch17 randperm grad_zero grad_add adam autograd trainset testset
         epochs e) s
    (fun c s' =>
       c = Next /\ Params_ok (parameters (model s')) = true /\
       exists seg r,
         trace s' = trace s ++ seg /\ stdout s' = stdout s ++ [r] /\
         epoch_facts trainset testset epochs e seg r /\
         disciplined seg = true).
Proof.
  intro Hp. unfold epoch17.
  apply run_bind, run_modify.
  apply run_bind, run_modify. apply run_bind.
  apply (run_weaken _ _ _ _ (iter_run trainset _ trainset_ok)).
  intros bs s0 ((g & ->) & Hlen & Hwf & _).
  apply run_bind. apply train_loop_run; [exact Hwf| |].
  { cbn [model set_rng set_running_loss set_model observe].
    now rewrite train_parameters. }
  intros s1 tevs Hp1 Hm1 Ho1 Ht1 Hf1 Hok1 Hl1 Hr1.
  cbn [model stdout trace running_loss set_rng set_running_loss set_model
         observe] in *.
  rewrite train_mode in *.
  assert (Params_ok (parameters (model
            (observe (EMode false) (set_model (eval (model s1)) s1)))) = true)
    as Hp1'.
  { cbn [model set_model observe]. now rewrite eval_parameters. }
  pose proof (validation13_run epochs e _ Hp1') as Hv.
  apply (run_weaken (validation17 randperm trainset testset epochs e) s1
           _ _ Hv).
  intros _ s2 (Hm2 & _ & _ & vevs & Ht2 & Hf2 & Hok2 & Hl2 & Hcov & Ho2).
  apply run_ret.
  cbn [model stdout trace running_loss set_model observe] in *.
  rewrite eval_mode in Hf2.
  split; [reflexivity|]. split; [now rewrite Hm2, eval_parameters|].
  eexists ([EMode true] ++ tevs ++ [EMode false] ++ vevs), _.
  split; [rewrite Ht2, Ht1, <- !app_assoc; reflexivity|].
  split; [rewrite Ho2, Ho1; reflexivity|]. split.
  - replace (running_loss s1) with (sum (train_losses tevs)) by lra.
    apply (epoch_facts_intro trainset testset epochs e
             [EMode true] tevs [EMode false] vevs true false); auto;
      repeat constructor.
    rewrite Hl1. exact Hlen.
  - now apply disciplined_intro.
Qed.

(** A loop over [range(n)] whose body keeps an invariant and shows and
    prints what [F] says runs, and shows and prints it epoch by epoch. *)
Lemma epochs_run (body : nat -> SE Store ctl) (Inv : Store -> Prop)
  (F : nat -> list Event -> Report -> Prop) :
  (forall e s, Inv s ->
     run (body e) s (fun c s' =>
       c = Next /\ Inv s' /\
       exists seg r, trace s' = trace s ++ seg /\
                     stdout s' = stdout s ++ [r] /\ F e seg r)) ->
  forall n a s, Inv s ->
    run (for_ (seq a n) body) s (fun _ s' =>
      Inv s' /\
      exists segs rs,
        trace s' = trace s ++ concat segs /\ stdout s' = stdout s ++ rs /\
        length segs = n /\ each_epoch (fun i => F (a + i)%nat) segs rs).
Proof.
  intros Hbody. induction n as [|n IH]; intros a s Hs.
  - simpl. apply run_ret. split; [exact Hs|]. exists [], []. simpl.
    rewrite !app_nil_r. repeat split; auto.
    intros [|i] seg r H; discriminate.
  - simpl. apply run_bind. apply (run_weaken _ _ _ _ (Hbody a s Hs)).
    intros c s1 (-> & Hs1 & seg & r & Ht & Ho & HF).
    apply (run_weaken _ _ _ _ (IH (S a) s1 Hs1)).
    intros _ s2 (Hs2 & segs & rs & Ht2 & Ho2 & Hl & Hlen & He).
    split; [exact Hs2|]. exists (seg :: segs), (r :: rs). simpl.
    rewrite Ht2, Ho2, Ht, Ho, <- !app_assoc. simpl.
    repeat split; auto; [simpl; now rewrite Hlen|].
    intros [|i] seg' r' H1 H2; simpl in *.
    + inversion H1; inversion H2; subst. now rewrite Nat.add_0_r.
    + rewrite Nat.add_succ_r. now apply (He i).
Qed.

(** Cell 13 runs for every number of epochs. *)
Lemma cell13_run (epochs : nat) (s : Store) :
  Params_ok (parameters (model s)) = true ->
  run (cell13 randperm grad_zero grad_add adam autograd trainset testset
         epochs) s
    (fun _ s' =>
       is_training (model s') = is_training (model s) /\
       exists segs rs,
         trace s' = trace s ++ concat segs /\ stdout s' = stdout s ++ rs /\
         length segs = epochs /\
         each_epoch (fun e seg r =>
           epoch_facts trainset testset epochs e seg r /\
           Forall (unswitched (is_training (model s))) seg) segs rs).
Proof.
  intro Hp. unfold cell13.
  apply (run_weaken _ _ _ _
    (epochs_run _
       (fun s' => Params_ok (parameters (model s')) = true /\
                  is_training (model s') = is_training (model s))
       (fun e seg r =>
          epoch_facts trainset testset epochs e seg r /\
          Forall (unswitched (is_training (model s))) seg)
       ltac:(intros e s0 [Hp0 Hm0];
             apply (run_weaken _ _ _ _ (epoch13_run epochs e s0 Hp0));
             intros c s1 (-> & Hp1 & Hm1 & seg & r & Ht & Ho & Hf & Hu);
             rewrite Hm0 in Hm1, Hu; eauto 10)
       epochs 0%nat s (conj Hp eq_refl))).
  intros _ s' ((_ & Hm) & H). split; [exact Hm|exact H].
Qed.

(** Cell 17 runs for every number of epochs. *)
Lemma cell17_run (epochs : nat) (s : Store) :
  Params_ok (parameters (model s)) = true ->
  run (cell17 randperm grad_zero grad_add adam autograd trainset testset
         epochs) s
    (fun _ s' =>
       exists segs rs,
         trace s' = trace s ++ concat segs /\ stdout s' = stdout s ++ rs /\
         length segs = epochs /\
         each_epoch (fun e seg r =>
           epoch_facts trainset testset epochs e seg r /\
           disciplined seg = true) segs rs).
Proof.
  intro Hp. unfold cell17.
  apply (run_weaken _ _ _ _
    (epochs_run _
       (fun s' => Params_ok (parameters (model s')) = true)
       (fun e seg r =>
          epoch_facts trainset testset epochs e seg r /\
          disciplined seg = true)
       ltac:(intros e s0 Hp0;
             apply (run_weaken _ _ _ _ (epoch17_run epochs e s0 Hp0));
             intros c s1 (-> & Hp1 & seg & r & Ht & Ho & Hf & Hu); eauto 10)
       epochs 0%nat s Hp)).
  intros _ s' (_ & H). exact H.
Qed.

End LoopFacts.

(** ** The metrics of an epoch *)

Section EpochFacts.
Context {K : TopK}.

Lemma each_epoch_impl (F G : nat -> list Event -> Report -> Prop)
  (segs : list (list Event)) (rs : list Report) :
  (forall i seg r, F i seg r -> G i seg r) ->
  each_epoch F segs rs -> each_epoch G segs rs.
Proof. intros H [Hl HF]. split; [exact Hl|]. eauto. Qed.

Lemma each_epoch_segs (F : nat -> list Event -> Report -> Prop)
  (P : list Event -> Prop) (segs : list (list Event)) (rs : list Report) :
  (forall i seg r, F i seg r -> P seg) ->
  each_epoch F segs rs -> Forall P segs.
Proof.
  intros H [Hl HF]. apply Forall_forall. intros seg Hin.
  destruct (In_nth_error _ _ Hin) as (i & Hi).
  destruct (nth_error rs i) as [r|] eqn:Hr.
  - apply (H i seg r). now apply HF.
  - apply nth_error_None in Hr.
    assert (i < length segs)%nat
      by (apply nth_error_Some; rewrite Hi; discriminate).
    lia.
Qed.

Lemma each_epoch_reports (F : nat -> list Event -> Report -> Prop)
  (Q : Report -> Prop) (segs : list (list Event)) (rs : list Report) :
  (forall i seg r, F i seg r -> Q r) ->
  each_epoch F segs rs -> Forall Q rs.
Proof.
  intros H [Hl HF]. apply Forall_forall. intros r Hin.
  destruct (In_nth_error _ _ Hin) as (i & Hi).
  destruct (nth_error segs i) as [seg|] eqn:Hs.
  - apply (H i seg r). now apply HF.
  - apply nth_error_None in Hs.
    assert (i < length rs)%nat
      by (apply nth_error_Some; rewrite Hi; discriminate).
    lia.
Qed.

Lemma train_losses_nonneg (seg : list Event) :
  Forall event_ok seg -> Forall (fun l => 0 <= l) (train_losses seg).
Proof. induction 1 as [|[] seg He _ IH]; simpl in *; auto. Qed.

Lemma sum_nonneg (x : list R) : Forall (fun l => 0 <= l) x -> 0 <= sum x.
Proof. induction 1 as [|v x Hv _ IH]; simpl; lra. Qed.

(** The mean training loss an epoch prints is not negative. *)
Lemma epoch_facts_training_loss (trainset testset : Dataset)
  (epochs e : nat) (seg : list Event) (r : Report) :
  epoch_facts trainset testset epochs e seg r -> 0 <= training_loss r.
Proof.
  intros (Hok & _ & _ & _ & _ & _ & _ & ->). simpl.
  apply mean_nonneg, sum_nonneg, train_losses_nonneg, Hok.
Qed.

(** The accuracy of an epoch is between 0 and 1, and 1 only when every
    top-1 class is the label. *)
Lemma epoch_metrics_intro (trainset testset : Dataset) (epochs e : nat)
  (seg : list Event) (r : Report) :
  epoch_facts trainset testset epochs e seg r ->
  epoch_metrics trainset testset epochs e seg r.
Proof.
  intro H. split; [exact H|]. destruct H as (Hok & _).
  pose proof (num_correct_le seg) as Hle. unfold accuracy_of.
  destruct (num_samples seg) as [|n] eqn:En.
  - assert (num_correct seg = 0%nat) as -> by lia. simpl.
    unfold Rdiv. rewrite Rmult_0_l. split; [lra|]. intro; lra.
  - assert (0 < INR (S n)) as Hn by (apply lt_0_INR; lia).
    apply le_INR in Hle. pose proof (pos_INR (num_correct seg)) as Hc.
    split; [split|].
    + apply Rmult_le_pos; [exact Hc|]. left. now apply Rinv_0_lt_compat.
    + apply (Rmult_le_reg_r (INR (S n))); [exact Hn|].
      unfold Rdiv. rewrite Rmult_assoc, Rinv_l by lra. lra.
    + intros H1 t b lp loss Hin.
      apply (num_correct_all seg Hok) with (t := t) (loss := loss);
        [|exact Hin].
      rewrite En. apply INR_eq.
      apply (Rmult_eq_compat_r (INR (S n))) in H1.
      unfold Rdiv in H1. rewrite Rmult_assoc, Rinv_l in H1 by lra. lra.
Qed.

(** A trace without a switch of the mode does not keep the discipline. *)
Lemma unswitched_undisciplined (t : bool) (seg : list Event) :
  Forall (unswitched t) seg -> disciplined seg = false.
Proof.
  destruct seg as [|[] seg]; simpl; auto. intro H. inversion H; subst.
  simpl in *. tauto.
Qed.

End EpochFacts.

(** ** What a validation pass leaves alone *)

Section FrameFacts.
Context {K : TopK}.
Variable Rng : Type.
Variable randperm : nat -> Rng -> list nat * Rng.
Variable OptState : Type.
Variable Grad : Type.
Context {T : Type} {M : NNModule Rng T}.
Variable trainset testset : Dataset.

Local Abbreviation Store := (State Rng OptState Grad (T := T)).

Lemma preserves_with_rng {A X : Type} (f : Store -> X) (m : SE Rng A) :
  (forall g s, f (set_rng g s) = f s) -> preserves f (with_rng m).
Proof.
  intros H s a s'. unfold with_rng.
  destruct (m (rng s)) as [[a0 g]|]; [|discriminate].
  intro E. inversion E. apply H.
Qed.

Lemma preserves_call_model {X : Type} (f : Store -> X) (x : Tensor) :
  (forall g s, f (set_rng g s) = f s) -> preserves f (call_model x).
Proof.
  intros H s a s'. unfold call_model, with_rng.
  destruct (call (model s) x (rng s)) as [[a0 g]|]; [|discriminate].
  intro E. inversion E. apply H.
Qed.

Ltac frame :=
  repeat first
    [ apply preserves_ret
    | apply preserves_get
    | apply preserves_lift
    | apply preserves_modify; intro; reflexivity
    | apply preserves_with_rng; intros; reflexivity
    | apply preserves_call_model; intros; reflexivity
    | apply preserves_bind; [|intro]
    | apply preserves_for_else; [intro|] ].

(** A validation step leaves the model as it is. *)
Lemma validate_batch_preserves_model (b : Batch) :
  preserves (fun s : Store => model s) (validate_batch b).
Proof. unfold validate_batch. frame. Qed.

Lemma report_preserves_model (e epochs : nat) :
  preserves (fun s : Store => model s) (report trainset testset e epochs).
Proof. unfold report. frame. Qed.

(** The validation pass of cell 13 leaves the model as it is, from every
    store it completes from. *)
Lemma validation13_preserves_model (epochs e : nat) :
  preserves (fun s : Store => model s)
    (validation13 randperm trainset testset epochs e).
Proof. unfold validation13. frame. Qed.

(** The validation pass of cell 17 leaves the parameters as they are. *)
Lemma validation17_preserves_parameters (epochs e : nat) :
  NNModuleLaws M ->
  preserves (fun s : Store => parameters (model s))
    (validation17 randperm trainset testset epochs e).
Proof.
  intros laws s a s' E. rewrite validation17_unfold in E.
  apply validation13_preserves_model in E. rewrite E. simpl.
  apply eval_parameters.
Qed.

End FrameFacts.

(** ** The [else] suites *)

Section ElseFacts.
Context {K : TopK}.
Variable Rng : Type.
Variable randperm : nat -> Rng -> list nat * Rng.
Variable OptState : Type.
Variable Grad : Type.
Variable grad_zero : Grad.
Variable grad_add : Grad -> Grad -> Grad.
Variable adam : OptState -> Params -> Grad -> Params * OptState.
Context {T : Type} {M : NNModule Rng T}.
Variable autograd : T -> Batch -> Rng -> Grad.
Variable trainset testset : Dataset.

Local Abbreviation Store := (State Rng OptState Grad (T := T)).

Ltac falls :=
  repeat (apply falls_through_bind; intro); apply falls_through_ret.

Lemma train_batch_falls_through (b : Batch) :
  falls_through (S := Store)
    (train_batch grad_zero grad_add adam autograd b).
Proof. unfold train_batch. falls. Qed.

Lemma validate_batch_falls_through (b : Batch) :
  falls_through (S := Store) (validate_batch b).
Proof. unfold validate_batch. falls. Qed.

Lemma validation13_flat (epochs e : nat) (s : Store) :
  validation13 randperm trainset testset epochs e s =
  (modify (set_testing_loss 0) ;;
   modify (set_accuracy 0) ;;
   test_batches <- with_rng (iter randperm (testloader testset)) ;;
   for_ test_batches (@validate_batch Rng K OptState Grad T M) ;;
   report trainset testset e epochs)%se s.
Proof.
  unfold validation13. apply bind_ext. intros _ s1. apply bind_ext.
  intros _ s2. apply bind_ext. intros bs s3.
  apply for_else_flat. apply validate_batch_falls_through.
Qed.

Lemma epoch13_flat_eq (epochs e : nat) (s : Store) :
  epoch13 randperm grad_zero grad_add adam autograd trainset testset
    epochs e s =
  epoch13_flat randperm grad_zero grad_add adam autograd trainset testset
    epochs e s.
Proof.
  unfold epoch13, epoch13_flat. apply bind_ext. intros _ s1.
  apply bind_ext. intros bs s2. unfold bind at 1.
  rewrite (for_else_flat bs _ _ train_batch_falls_through). unfold bind at 1 2.
  destruct (for_ bs (train_batch grad_zero grad_add adam autograd) s2)
    as [[u s3]|]; [|reflexivity].
  rewrite validation13_flat. unfold bind.
  destruct (modify (set_testing_loss 0) s3) as [[u1 s4]|]; [|reflexivity].
  destruct (modify (set_accuracy 0) s4) as [[u2 s5]|]; [|reflexivity].
  destruct (with_rng (iter randperm (testloader testset)) s5)
    as [[tb s6]|]; [|reflexivity].
  destruct (for_ tb _ s6) as [[u3 s7]|]; reflexivity.
Qed.

Lemma epoch17_flat_eq (epochs e : nat) (s : Store) :
  epoch17 randperm grad_zero grad_add adam autograd trainset testset
    epochs e s =
  epoch17_flat randperm grad_zero grad_add adam autograd trainset testset
    epochs e s.
Proof.
  unfold epoch17, epoch17_flat. apply bind_ext. intros _ s0.
  apply bind_ext. intros _ s1.
  apply bind_ext. intros bs s2. unfold bind at 1.
  rewrite (for_else_flat bs _ _ train_batch_falls_through). unfold bind at 1 2.
  destruct (for_ bs (train_batch grad_zero grad_add adam autograd) s2)
    as [[u s3]|]; [|reflexivity].
  rewrite validation17_unfold, validation13_flat. unfold bind.
  unfold model_eval.
  destruct (modify (fun s => observe (EMode false)
              (set_model (eval (model s)) s)) s3) as [[u0 s4]|] eqn:E0;
    [|discriminate].
  inversion E0; subst.
  destruct (modify (set_testing_loss 0) _) as [[u1 s5]|]; [|reflexivity].
  destruct (modify (set_accuracy 0) s5) as [[u2 s6]|]; [|reflexivity].
  destruct (with_rng (iter randperm (testloader testset)) s6)
    as [[tb s7]|]; [|reflexivity].
  destruct (for_ tb _ s7) as [[u3 s8]|]; reflexivity.
Qed.

(** C9. No body of a loop over batches ends with [break], so each loop
    with its [else] suite runs as the loop followed by the suite: from
    every store, with every model, data and framework, cell 13 and cell 17
    end as their variants with unconditional suites end, with the same
    parameters, metrics, printed lines and trace, or raise as they do. *)
Theorem else_suites_unconditional (epochs : nat) (s : Store) :
  cell13 randperm grad_zero grad_add adam autograd trainset testset epochs s =
  cell13_flat randperm grad_zero grad_add adam autograd trainset testset
    epochs s /\
  cell17 randperm grad_zero grad_add adam autograd trainset testset epochs s =
  cell17_flat randperm grad_zero grad_add adam autograd trainset testset
    epochs s.
Proof.
  unfold cell13, cell13_flat, cell17, cell17_flat. split; apply for_ext.
  - apply epoch13_flat_eq.
  - apply epoch17_flat_eq.
Qed.

End ElseFacts.

(** * The properties of the specification *)

Section ForwardClaims.
Variable Rng : Type.
Variable bernoulli : R -> Rng -> bool * Rng.

Lemma batch_ok_intro (B : nat) (rest : list nat) (d : list R) :
  (1 <= B)%nat -> numel rest = 784%nat -> length d = (B * 784)%nat ->
  batch_ok (mkTensor (B :: rest) d) = true.
Proof.
  intros HB Hr Hd. unfold batch_ok, batch_dim, tensor_ok.
  cbn [shape data hd tl length numel fold_right]. fold (numel rest).
  rewrite Hr, Hd, !Nat.eqb_refl. apply Nat.leb_le in HB. rewrite HB.
  reflexivity.
Qed.

(** C2. For every batch of [B >= 1] images of 784 entries, the forward pass
    of the model of cell 3 and of the model of cell 16, in either mode and
    from every state of the generator, returns a matrix of [B] rows of 10
    log-probabilities, and in every row the exponentials of the entries sum
    to 1. *)
Theorem forward_log_probabilities (mb : Baseline.Classifier)
  (mr : Regularized.Classifier) (x : Tensor) (g : Rng) :
  batch_ok x = true ->
  Params_ok (Baseline.parameters mb) = true ->
  Params_ok (Regularized.parameters mr) = true ->
  (exists out,
     Baseline.forward mb x = Some out /\
     length out = batch_dim x /\
     Forall (fun r => length r = 10%nat /\ sum (map exp r) = 1) out) /\
  (exists out g',
     Regularized.forward bernoulli mr x g = Some (out, g') /\
     length out = batch_dim x /\
     Forall (fun r => length r = 10%nat /\ sum (map exp r) = 1) out).
Proof.
  intros Hx Hb Hr. split.
  - destruct (baseline_forward_ok mb x Hb Hx) as (out & E & Hl & Hn & _).
    exists out. auto.
  - destruct (regularized_forward_ok Rng bernoulli mr x g Hr Hx)
      as (out & g' & E & Hl & Hn & _).
    exists out, g'. auto.
Qed.

(** C3. The forward pass of cell 3 is the pipeline affine(784->256),
    rectification, affine(256->128), rectification, affine(128->64),
    rectification, affine(64->10), log-normalization, whatever the mode; the
    forward pass of cell 16 is that pipeline with a dropout of probability
    0.2 after each of the three rectifications, and the pipeline without
    dropout once the model is in evaluation mode. *)
Theorem forward_is_pipeline (mb : Baseline.Classifier)
  (mr : Regularized.Classifier) (x : Tensor) (g : Rng) (t : bool) :
  Params_ok (Baseline.parameters mb) = true ->
  Params_ok (Regularized.parameters mr) = true ->
  Regularized.dropout mr = 2 / 10 ->
  lift (Baseline.forward mb x) g =
    (y <- lift (view_batch x) ;;
     run_pipeline bernoulli t (pipeline_plain (Baseline.parameters mb)) y)%se g
  /\
  Regularized.forward bernoulli mr x g =
    (y <- lift (view_batch x) ;;
     run_pipeline bernoulli (Regularized.training mr)
       (pipeline_dropout (2 / 10) (Regularized.parameters mr)) y)%se g
  /\
  Regularized.forward bernoulli (Regularized.eval mr) x g =
    (y <- lift (view_batch x) ;;
     run_pipeline bernoulli false
       (pipeline_plain (Regularized.parameters mr)) y)%se g.
Proof.
  intros Hb Hr Hd. split; [|split].
  - rewrite (baseline_forward_pipeline Rng bernoulli mb x g Hb).
    unfold bind, lift. destruct (view_batch x) as [y|]; reflexivity.
  - rewrite (regularized_forward_pipeline Rng bernoulli mr x g Hr), Hd.
    reflexivity.
  - rewrite (regularized_forward_pipeline Rng bernoulli (Regularized.eval mr)
               x g Hr).
    unfold bind, lift. destruct (view_batch x) as [y|]; [|reflexivity].
    apply pipeline_dropout_eval.
Qed.

(** C6. In evaluation mode the forward pass is deterministic: after
    [model.eval()], the output for an input is the same from every state of
    the generator, and the pass leaves the generator as it found it, so a
    second pass on the input yields the same output. *)
Theorem eval_mode_deterministic (mb : Baseline.Classifier)
  (mr : Regularized.Classifier) (x : Tensor) (g1 g2 : Rng) :
  Regularized.forward bernoulli (Regularized.eval mr) x g1 =
    match Regularized.forward bernoulli (Regularized.eval mr) x g2 with
    | Some (out, _) => Some (out, g1)
    | None => None
    end /\
  call (NNModule := baseline_module Rng) (Baseline.eval mb) x g1 =
    match call (NNModule := baseline_module Rng) (Baseline.eval mb) x g2 with
    | Some (out, _) => Some (out, g1)
    | None => None
    end.
Proof.
  split.
  - now apply regularized_eval_pure.
  - simpl. unfold lift.
    destruct (Baseline.forward (Baseline.eval mb) x); reflexivity.
Qed.


End ForwardClaims.

Lemma forward_log_probabilities_witness :
  (exists out,
     Baseline.forward baseline0 batch0 = Some out /\
     length out = batch_dim batch0 /\
     Forall (fun r => length r = 10%nat /\ sum (map exp r) = 1) out) /\
  (exists out g',
     Regularized.forward bernoulli0 regularized0 batch0 tt = Some (out, g') /\
     length out = batch_dim batch0 /\
     Forall (fun r => length r = 10%nat /\ sum (map exp r) = 1) out).
Proof.
  apply (forward_log_probabilities unit bernoulli0 baseline0 regularized0
           batch0 tt).
  - reflexivity.
  - exact (proj1 (baseline_init_ok unit uniform0 tt)).
  - exact (proj1 (regularized_init_ok unit uniform0 tt)).
Defined.

Lemma forward_is_pipeline_witness :
  lift (Baseline.forward baseline0 batch0) tt =
    (y <- lift (view_batch batch0) ;;
     run_pipeline bernoulli0 true
       (pipeline_plain (Baseline.parameters baseline0)) y)%se tt
  /\
  Regularized.forward bernoulli0 regularized0 batch0 tt =
    (y <- lift (view_batch batch0) ;;
     run_pipeline bernoulli0 (Regularized.training regularized0)
       (pipeline_dropout (2 / 10) (Regularized.parameters regularized0)) y)%se
      tt
  /\
  Regularized.forward bernoulli0 (Regularized.eval regularized0) batch0 tt =
    (y <- lift (view_batch batch0) ;;
     run_pipeline bernoulli0 false
       (pipeline_plain (Regularized.parameters regularized0)) y)%se tt.
Proof.
  apply (forward_is_pipeline unit bernoulli0 baseline0 regularized0 batch0 tt
           true).
  - exact (proj1 (baseline_init_ok unit uniform0 tt)).
  - exact (proj1 (regularized_init_ok unit uniform0 tt)).
  - exact (proj1 (proj2 (regularized_init_ok unit uniform0 tt))).
Defined.


Section LoopClaims.
Context {K : TopK}.
Variable Rng : Type.
Variable bernoulli : R -> Rng -> bool * Rng.
Variable randperm : nat -> Rng -> list nat * Rng.
Variable OptState : Type.
Variable Grad : Type.
Variable grad_zero : Grad.
Variable grad_add : Grad -> Grad -> Grad.
Variable adam : OptState -> Params -> Grad -> Params * OptState.
Variable autograd13 : Baseline.Classifier -> Batch -> Rng -> Grad.
Variable autograd17 : Regularized.Classifier -> Batch -> Rng -> Grad.
Variable trainset testset : Dataset.

Hypothesis randperm_perm :
  forall n g, Permutation (fst (randperm n g)) (seq 0 n).
Hypothesis adam_ok :
  forall o p d, Params_ok p = true -> Params_ok (fst (adam o p d)) = true.
Hypothesis trainset_ok : dataset_ok trainset = true.
Hypothesis testset_ok : dataset_ok testset = true.

Local Abbreviation Store13 :=
  (State Rng OptState Grad (T := Baseline.Classifier)).
Local Abbreviation Store17 :=
  (State Rng OptState Grad (T := Regularized.Classifier)).
Local Abbreviation M13 := (baseline_module Rng).
Local Abbreviation M17 := (regularized_module bernoulli).

(** C1, as the code has it.  In every epoch of the loop of cell 17 the model
    is switched to training mode before the training steps, which all run in
    training mode, and to evaluation mode before the validation steps, which
    all run in evaluation mode.  The loop of cell 13 never switches the
    mode: all its steps run in the mode the model had at the start, and the
    model has it at the end. *)
Theorem mode_switches (epochs : nat) (s13 : Store13) (s17 : Store17) :
  Params_ok (Baseline.parameters (model s13)) = true ->
  Params_ok (Regularized.parameters (model s17)) = true ->
  (exists s' segs,
     cell17 (M := M17) randperm grad_zero grad_add adam autograd17
       trainset testset epochs s17 = Some (tt, s') /\
     trace s' = trace s17 ++ concat segs /\ length segs = epochs /\
     Forall (fun seg => disciplined seg = true) segs) /\
  (exists s' tr,
     cell13 (M := M13) randperm grad_zero grad_add adam autograd13
       trainset testset epochs s13 = Some (tt, s') /\
     trace s' = trace s13 ++ tr /\
     Forall (unswitched (Baseline.training (model s13))) tr /\
     Baseline.training (model s') = Baseline.training (model s13)).
Proof.
  intros H13 H17. split.
  - destruct (cell17_run Rng randperm OptState Grad grad_zero grad_add adam
                autograd17 trainset testset randperm_perm adam_ok
                (regularized_laws Rng bernoulli) trainset_ok testset_ok
                epochs s17 H17)
      as ([] & s' & E & segs & rs & Ht & Ho & Hl & He).
    exists s', segs. repeat split; auto.
    apply (each_epoch_segs _ _ segs rs) with (2 := He). tauto.
  - destruct (cell13_run Rng randperm OptState Grad grad_zero grad_add adam
                autograd13 trainset testset randperm_perm adam_ok
                (baseline_laws Rng) trainset_ok testset_ok epochs s13 H13)
      as ([] & s' & E & Hm & segs & rs & Ht & Ho & Hl & He).
    exists s', (concat segs). repeat split; auto.
    apply Forall_concat.
    apply (each_epoch_segs _ _ segs rs) with (2 := He). tauto.
Qed.

(** C4. In every epoch of both loops, from every store, whatever the
    running metrics held before: the printed mean training loss is the sum
    of the losses of the training steps of the epoch over the number of
    batches of the training loader, the printed mean validation loss is the
    sum of the losses of its validation steps over the number of batches of
    the test loader, and the printed accuracy is the number of its correct
    top-1 classes over the number of held-out samples; this accuracy is
    between 0 and 1, and it is 1 only if the top-1 class of every sample of
    every validation batch is its label, the batches holding every held-out
    sample once. *)
Theorem reported_metrics (epochs : nat) (s13 : Store13) (s17 : Store17) :
  Params_ok (Baseline.parameters (model s13)) = true ->
  Params_ok (Regularized.parameters (model s17)) = true ->
  (exists s' segs rs,
     cell13 (M := M13) randperm grad_zero grad_add adam autograd13
       trainset testset epochs s13 = Some (tt, s') /\
     trace s' = trace s13 ++ concat segs /\ stdout s' = stdout s13 ++ rs /\
     length segs = epochs /\
     each_epoch (epoch_metrics trainset testset epochs) segs rs) /\
  (exists s' segs rs,
     cell17 (M := M17) randperm grad_zero grad_add adam autograd17
       trainset testset epochs s17 = Some (tt, s') /\
     trace s' = trace s17 ++ concat segs /\ stdout s' = stdout s17 ++ rs /\
     length segs = epochs /\
     each_epoch (epoch_metrics trainset testset epochs) segs rs).
Proof.
  intros H13 H17. split.
  - destruct (cell13_run Rng randperm OptState Grad grad_zero grad_add adam
                autograd13 trainset testset randperm_perm adam_ok
                (baseline_laws Rng) trainset_ok testset_ok epochs s13 H13)
      as ([] & s' & E & Hm & segs & rs & Ht & Ho & Hl & He).
    exists s', segs, rs. split; [exact E|]. split; [exact Ht|].
    split; [exact Ho|]. split; [exact Hl|].
    apply (each_epoch_impl _ _ segs rs) with (2 := He).
    intros i seg r [Hf _]. now apply epoch_metrics_intro.
  - destruct (cell17_run Rng randperm OptState Grad grad_zero grad_add adam
                autograd17 trainset testset randperm_perm adam_ok
                (regularized_laws Rng bernoulli) trainset_ok testset_ok
                epochs s17 H17)
      as ([] & s' & E & segs & rs & Ht & Ho & Hl & He).
    exists s', segs, rs. split; [exact E|]. split; [exact Ht|].
    split; [exact Ho|]. split; [exact Hl|].
    apply (each_epoch_impl _ _ segs rs) with (2 := He).
    intros i seg r [Hf _]. now apply epoch_metrics_intro.
Qed.

(** C5. A validation pass leaves the parameters of the model as they were:
    the validation passes of both cells run from every store with a
    well-shaped model and end with the weights and biases of the four
    affine layers they started with; and from whatever store a validation
    pass completes, it ends with the parameters it started with. *)
Theorem validation_keeps_parameters (epochs e : nat) (s13 : Store13)
  (s17 : Store17) :
  Params_ok (Baseline.parameters (model s13)) = true ->
  Params_ok (Regularized.parameters (model s17)) = true ->
  (exists s',
     validation13 (M := M13) randperm trainset testset epochs e s13
       = Some (tt, s') /\
     Baseline.parameters (model s') = Baseline.parameters (model s13)) /\
  (exists s',
     validation17 (M := M17) randperm trainset testset epochs e s17
       = Some (tt, s') /\
     Regularized.parameters (model s') = Regularized.parameters (model s17))
  /\
  preserves (fun s : Store13 => Baseline.parameters (model s))
    (validation13 (M := M13) randperm trainset testset epochs e) /\
  preserves (fun s : Store17 => Regularized.parameters (model s))
    (validation17 (M := M17) randperm trainset testset epochs e).
Proof.
  intros H13 H17.
  pose proof (validation17_preserves_parameters Rng randperm OptState Grad
                (M := M17) trainset testset epochs e
                (regularized_laws Rng bernoulli)) as P17.
  assert (preserves (fun s : Store13 => Baseline.parameters (model s))
            (validation13 (M := M13) randperm trainset testset epochs e))
    as P13.
  { intros s a s' E.
    now rewrite (validation13_preserves_model Rng randperm OptState Grad
                   (M := M13) trainset testset epochs e s a s' E). }
  repeat split; auto.
  - destruct (validation13_run Rng randperm OptState Grad (M := M13)
                trainset testset randperm_perm (baseline_laws Rng)
                trainset_ok testset_ok epochs e s13 H13)
      as ([] & s' & E & _).
    exists s'. split; [exact E|]. exact (P13 _ _ _ E).
  - assert (Params_ok (parameters (NNModule := M17)
              (model (observe (EMode false)
                 (set_model (Regularized.eval (model s17)) s17)))) = true)
      as H17' by exact H17.
    destruct (validation13_run Rng randperm OptState Grad (M := M17)
                trainset testset randperm_perm
                (regularized_laws Rng bernoulli)
                trainset_ok testset_ok epochs e _ H17')
      as ([] & s' & E & _).
    exists s'. split; [exact E|]. exact (P17 _ _ _ E).
Qed.

(** C7. In every epoch of both loops the printed mean training loss is not
    negative, and neither is the loss of any training step: the loss of a
    batch is the mean of the negated log-probabilities of the true classes,
    none of which is positive. *)
Theorem training_loss_nonnegative (epochs : nat) (s13 : Store13)
  (s17 : Store17) :
  Params_ok (Baseline.parameters (model s13)) = true ->
  Params_ok (Regularized.parameters (model s17)) = true ->
  (exists s' tr rs,
     cell17 (M := M17) randperm grad_zero grad_add adam autograd17
       trainset testset epochs s17 = Some (tt, s') /\
     trace s' = trace s17 ++ tr /\ stdout s' = stdout s17 ++ rs /\
     length rs = epochs /\
     Forall (fun l => 0 <= l) (train_losses tr) /\
     Forall (fun r => 0 <= training_loss r) rs) /\
  (exists s' tr rs,
     cell13 (M := M13) randperm grad_zero grad_add adam autograd13
       trainset testset epochs s13 = Some (tt, s') /\
     trace s' = trace s13 ++ tr /\ stdout s' = stdout s13 ++ rs /\
     length rs = epochs /\
     Forall (fun l => 0 <= l) (train_losses tr) /\
     Forall (fun r => 0 <= training_loss r) rs).
Proof.
  intros H13 H17. split.
  - destruct (cell17_run Rng randperm OptState Grad grad_zero grad_add adam
                autograd17 trainset testset randperm_perm adam_ok
                (regularized_laws Rng bernoulli) trainset_ok testset_ok
                epochs s17 H17)
      as ([] & s' & E & segs & rs & Ht & Ho & Hl & He).
    exists s', (concat segs), rs. repeat split; auto.
    + rewrite <- (proj1 He). exact Hl.
    + apply train_losses_nonneg, Forall_concat.
      apply (each_epoch_segs _ _ segs rs) with (2 := He).
      intros i seg r (Hf & _). apply Hf.
    + apply (each_epoch_reports _ _ segs rs) with (2 := He).
      intros i seg r (Hf & _). eapply epoch_facts_training_loss, Hf.
  - destruct (cell13_run Rng randperm OptState Grad grad_zero grad_add adam
                autograd13 trainset testset randperm_perm adam_ok
                (baseline_laws Rng) trainset_ok testset_ok epochs s13 H13)
      as ([] & s' & E & Hm & segs & rs & Ht & Ho & Hl & He).
    exists s', (concat segs), rs. repeat split; auto.
    + rewrite <- (proj1 He). exact Hl.
    + apply train_losses_nonneg, Forall_concat.
      apply (each_epoch_segs _ _ segs rs) with (2 := He).
      intros i seg r (Hf & _). apply Hf.
    + apply (each_epoch_reports _ _ segs rs) with (2 := He).
      intros i seg r (Hf & _). eapply epoch_facts_training_loss, Hf.
Qed.

(** C8. In a validation step of either loop, the class of a sample that
    enters the count of the accuracy is the index [topk] returns for the row
    of its log-probabilities: an index that holds a largest entry of the
    row, a function of the row.  Which of several largest entries it is, is
    the choice of the framework. *)
Theorem top1_highest_log_probability (b : Batch) (s13 : Store13)
  (s17 : Store17) :
  returns_largest K ->
  Params_ok (Baseline.parameters (model s13)) = true ->
  Params_ok (Regularized.parameters (model s17)) = true ->
  batch_wf b ->
  (exists s' log_ps top_p top_class,
     validate_batch (M := M17) b s17 = Some (Next, s') /\
     call (NNModule := M17) (model s17) (images b) (rng s17)
       = Some (log_ps, rng s') /\
     topk1 log_ps = Some (top_p, top_class) /\
     top_class = map topk_index log_ps /\
     Forall2 largest_at log_ps top_class /\
     accuracy s' =
       accuracy s17 + INR (count_true (equals top_class (labels b)))) /\
  (exists s' log_ps top_p top_class,
     validate_batch (M := M13) b s13 = Some (Next, s') /\
     call (NNModule := M13) (model s13) (images b) (rng s13)
       = Some (log_ps, rng s') /\
     topk1 log_ps = Some (top_p, top_class) /\
     top_class = map topk_index log_ps /\
     Forall2 largest_at log_ps top_class /\
     accuracy s' =
       accuracy s13 + INR (count_true (equals top_class (labels b)))).
Proof.
  intros HK H13 H17 Hb. split.
  - destruct (validate_batch_run Rng OptState Grad (M := M17)
                (regularized_laws Rng bernoulli) b s17 H17 Hb)
      as (c & s' & E & -> & _ & _ & _ & _ & _ & lp & loss & Ec & Hlp & _ & _
            & Ha & _).
    assert (Forall (fun r : list R => r <> []) lp) as Hne.
    { destruct Hlp as (_ & Hn & _). eapply Forall_impl; [|exact Hn].
      intros r [Hr _] ->. discriminate. }
    destruct (topk1_predictions lp Hne) as (vs & Et).
    exists s', lp, vs, (predictions lp).
    split; [exact E|]. split; [exact Ec|]. split; [exact Et|].
    split; [reflexivity|]. split; [|exact Ha].
    now apply predictions_largest.
  - destruct (validate_batch_run Rng OptState Grad (M := M13)
                (baseline_laws Rng) b s13 H13 Hb)
      as (c & s' & E & -> & _ & _ & _ & _ & _ & lp & loss & Ec & Hlp & _ & _
            & Ha & _).
    assert (Forall (fun r : list R => r <> []) lp) as Hne.
    { destruct Hlp as (_ & Hn & _). eapply Forall_impl; [|exact Hn].
      intros r [Hr _] ->. discriminate. }
    destruct (topk1_predictions lp Hne) as (vs & Et).
    exists s', lp, vs, (predictions lp).
    split; [exact E|]. split; [exact Ec|]. split; [exact Et|].
    split; [reflexivity|]. split; [|exact Ha].
    now apply predictions_largest.
Qed.

End LoopClaims.

(** ** The properties on the small instance *)

Lemma randperm0_perm (n : nat) (g : unit) :
  Permutation (fst (randperm0 n g)) (seq 0 n).
Proof. apply Permutation_refl. Qed.

Lemma adam0_ok (o : unit) (p : Params) (d : unit) :
  Params_ok p = true -> Params_ok (fst (adam0 o p d)) = true.
Proof. intro H. exact H. Qed.

Lemma dataset0_ok : dataset_ok dataset0 = true.
Proof. reflexivity. Qed.

Lemma store13_ok : Params_ok (Baseline.parameters (model store13)) = true.
Proof. exact (proj1 (baseline_init_ok unit uniform0 tt)). Qed.

Lemma store17_ok : Params_ok (Regularized.parameters (model store17)) = true.
Proof. exact (proj1 (regularized_init_ok unit uniform0 tt)). Qed.

Lemma sample0_wf : batch_wf sample0.
Proof.
  split; [reflexivity|]. split; [reflexivity|]. repeat constructor.
Qed.

Lemma mode_switches_witness :
  (exists s' segs,
     cell17 (K := topk0) (M := regularized_module bernoulli0)
       randperm0 tt grad_add0 adam0
       autograd0 dataset0 dataset0 2 store17 = Some (tt, s') /\
     trace s' = trace store17 ++ concat segs /\ length segs = 2%nat /\
     Forall (fun seg => disciplined seg = true) segs) /\
  (exists s' tr,
     cell13 (K := topk0) (M := baseline_module unit)
       randperm0 tt grad_add0 adam0
       autograd0 dataset0 dataset0 2 store13 = Some (tt, s') /\
     trace s' = trace store13 ++ tr /\
     Forall (unswitched (Baseline.training (model store13))) tr /\
     Baseline.training (model s') = Baseline.training (model store13)).
Proof.
  exact (mode_switches unit bernoulli0 randperm0 unit unit tt grad_add0 adam0
           autograd0 autograd0 dataset0 dataset0 randperm0_perm adam0_ok
           dataset0_ok dataset0_ok 2 store13 store17 store13_ok store17_ok).
Defined.

(** C1, as it is stated, fails on cell 13: its loop runs an epoch on the
    small instance without a switch of the mode, every step of it, the
    validation step too, in training mode, so the trace of the epoch does
    not keep the discipline of the modes. *)
Lemma baseline_never_switches :
  exists s',
    cell13 (K := topk0) (M := baseline_module unit) randperm0 tt grad_add0 adam0
      autograd0 dataset0 dataset0 1 store13 = Some (tt, s') /\
    Forall (unswitched true) (trace s') /\
    disciplined (trace s') = false /\
    val_batches (trace s') <> [].
Proof.
  destruct (cell13_run (K := topk0) unit randperm0 unit unit tt grad_add0
              adam0 autograd0 dataset0 dataset0 randperm0_perm adam0_ok
              (baseline_laws unit) dataset0_ok dataset0_ok 1 store13
              store13_ok)
    as ([] & s' & E & Hm & segs & rs & Ht & Ho & Hl & He).
  exists s'. split; [exact E|]. clear E.
  assert (is_training (NNModule := baseline_module unit) (model store13)
          = true) as Hmode
    by exact (proj2 (baseline_init_ok unit uniform0 tt)).
  rewrite Hmode in He. change (trace store13) with (@nil Event) in Ht.
  simpl in Ht. rewrite Ht.
  assert (Forall (unswitched true) (concat segs)) as Hu.
  { apply Forall_concat.
    apply (each_epoch_segs _ _ segs rs) with (2 := He). tauto. }
  split; [exact Hu|]. split; [now apply (unswitched_undisciplined true)|].
  destruct segs as [|seg [|seg2 segs]]; simpl in Hl; try lia.
  destruct rs as [|r rs]; [destruct He as [He _]; simpl in He; lia|].
  destruct (proj2 He 0%nat seg r eq_refl eq_refl)
    as ((_ & _ & _ & Hv & Hc & _) & _).
  simpl. rewrite app_nil_r. intro Hnil.
  pose proof (f_equal (@length _) Hnil) as Hlen.
  assert (length (val_batches seg) = length (val_losses seg)) as Hvl.
  { clear. induction seg as [|[] seg IH]; simpl; auto. }
  rewrite Hvl, Hv in Hlen. simpl in Hlen. lia.
Qed.

Lemma reported_metrics_witness :
  (exists s' segs rs,
     cell13 (K := topk0) (M := baseline_module unit)
       randperm0 tt grad_add0 adam0
       autograd0 dataset0 dataset0 2 store13 = Some (tt, s') /\
     trace s' = trace store13 ++ concat segs /\
     stdout s' = stdout store13 ++ rs /\ length segs = 2%nat /\
     each_epoch (epoch_metrics (K := topk0) dataset0 dataset0 2) segs rs) /\
  (exists s' segs rs,
     cell17 (K := topk0) (M := regularized_module bernoulli0)
       randperm0 tt grad_add0 adam0
       autograd0 dataset0 dataset0 2 store17 = Some (tt, s') /\
     trace s' = trace store17 ++ concat segs /\
     stdout s' = stdout store17 ++ rs /\ length segs = 2%nat /\
     each_epoch (epoch_metrics (K := topk0) dataset0 dataset0 2) segs rs).
Proof.
  exact (reported_metrics unit bernoulli0 randperm0 unit unit tt grad_add0
           adam0 autograd0 autograd0 dataset0 dataset0 randperm0_perm
           adam0_ok dataset0_ok dataset0_ok 2 store13 store17 store13_ok
           store17_ok).
Defined.

Lemma validation_keeps_parameters_witness :
  (exists s',
     validation13 (K := topk0) (M := baseline_module unit)
       randperm0 dataset0 dataset0 2 0
       store13 = Some (tt, s') /\
     Baseline.parameters (model s') = Baseline.parameters (model store13)) /\
  (exists s',
     validation17 (K := topk0) (M := regularized_module bernoulli0)
       randperm0 dataset0
       dataset0 2 0 store17 = Some (tt, s') /\
     Regularized.parameters (model s')
       = Regularized.parameters (model store17)) /\
  preserves (fun s : State unit unit unit => Baseline.parameters (model s))
    (validation13 (K := topk0) (M := baseline_module unit)
       randperm0 dataset0 dataset0
       2 0) /\
  preserves (fun s : State unit unit unit => Regularized.parameters (model s))
    (validation17 (K := topk0) (M := regularized_module bernoulli0)
       randperm0 dataset0
       dataset0 2 0).
Proof.
  exact (validation_keeps_parameters unit bernoulli0 randperm0 unit unit
           dataset0 dataset0 randperm0_perm dataset0_ok dataset0_ok 2 0
           store13 store17 store13_ok store17_ok).
Defined.

Lemma training_loss_nonnegative_witness :
  (exists s' tr rs,
     cell17 (K := topk0) (M := regularized_module bernoulli0)
       randperm0 tt grad_add0 adam0
       autograd0 dataset0 dataset0 2 store17 = Some (tt, s') /\
     trace s' = trace store17 ++ tr /\ stdout s' = stdout store17 ++ rs /\
     length rs = 2%nat /\
     Forall (fun l => 0 <= l) (train_losses tr) /\
     Forall (fun r => 0 <= training_loss r) rs) /\
  (exists s' tr rs,
     cell13 (K := topk0) (M := baseline_module unit)
       randperm0 tt grad_add0 adam0
       autograd0 dataset0 dataset0 2 store13 = Some (tt, s') /\
     trace s' = trace store13 ++ tr /\ stdout s' = stdout store13 ++ rs /\
     length rs = 2%nat /\
     Forall (fun l => 0 <= l) (train_losses tr) /\
     Forall (fun r => 0 <= training_loss r) rs).
Proof.
  exact (training_loss_nonnegative unit bernoulli0 randperm0 unit unit tt
           grad_add0 adam0 autograd0 autograd0 dataset0 dataset0
           randperm0_perm adam0_ok dataset0_ok dataset0_ok 2 store13 store17
           store13_ok store17_ok).
Defined.

Lemma top1_highest_log_probability_witness :
  (exists s' log_ps top_p top_class,
     validate_batch (K := topk0) (M := regularized_module bernoulli0) sample0
       store17 = Some (Next, s') /\
     call (NNModule := regularized_module bernoulli0) (model store17)
       (images sample0) (rng store17) = Some (log_ps, rng s') /\
     topk1 (K := topk0) log_ps = Some (top_p, top_class) /\
     top_class = map (topk_index (TopK := topk0)) log_ps /\
     Forall2 largest_at log_ps top_class /\
     accuracy s' =
       accuracy store17
       + INR (count_true (equals top_class (labels sample0)))) /\
  (exists s' log_ps top_p top_class,
     validate_batch (K := topk0) (M := baseline_module unit) sample0 store13
       = Some (Next, s') /\
     call (NNModule := baseline_module unit) (model store13)
       (images sample0) (rng store13) = Some (log_ps, rng s') /\
     topk1 (K := topk0) log_ps = Some (top_p, top_class) /\
     top_class = map (topk_index (TopK := topk0)) log_ps /\
     Forall2 largest_at log_ps top_class /\
     accuracy s' =
       accuracy store13
       + INR (count_true (equals top_class (labels sample0)))).
Proof.
  exact (top1_highest_log_probability (K := topk0) unit bernoulli0 unit unit
           sample0 store13 store17 topk0_largest store13_ok store17_ok
           sample0_wf).
Defined.

(** On the small instance every layer is drawn as zeros, so the ten
    log-probabilities of a sample are equal. *)
Lemma uniform_list0 (n : nat) (a b : R) (g : unit) :
  uniform_list uniform0 n a b g = (repeat 0 n, g).
Proof.
  induction n as [|n IH]; [reflexivity|].
  cbn [uniform_list repeat]. unfold uniform0 at 1. now rewrite IH.
Qed.

Lemma uniform_rows0 (o i : nat) (a b : R) (g : unit) :
  uniform_rows uniform0 o i a b g = (repeat (repeat 0 i) o, g).
Proof.
  induction o as [|o IH]; [reflexivity|].
  cbn [uniform_rows repeat]. now rewrite uniform_list0, IH.
Qed.

Lemma nn_Linear0 (i o : nat) (g : unit) :
  nn_Linear uniform0 i o g
  = (mkLinear i o (repeat (repeat 0 i) o) (repeat 0 o), g).
Proof. unfold nn_Linear. now rewrite uniform_rows0, uniform_list0. Qed.

Lemma baseline0_fc4 :
  Baseline.fc4 baseline0
  = mkLinear 64 10 (repeat (repeat 0 64) 10) (repeat 0 10).
Proof.
  unfold baseline0, Baseline.init. rewrite !nn_Linear0. reflexivity.
Qed.

Lemma store13_fc4 :
  weight (Baseline.fc4 (model store13)) = repeat (repeat 0 64) 10 /\
  bias (Baseline.fc4 (model store13)) = repeat 0 10.
Proof.
  change (model store13) with baseline0. rewrite baseline0_fc4.
  split; reflexivity.
Qed.

Lemma affine_row_repeat (n : nat) (w : list R) (c : R) (x : list R) :
  affine_row (repeat w n) (repeat c n) x = repeat (dot x w + c) n.
Proof.
  induction n as [|n IH]; [reflexivity|].
  cbn [repeat affine_row]. now rewrite IH.
Qed.

Lemma forward_equal_entries (m : Baseline.Classifier) (x : Tensor)
  (out : Matrix) (n : nat) (w : list R) (c : R) :
  weight (Baseline.fc4 m) = repeat w n ->
  bias (Baseline.fc4 m) = repeat c n ->
  Baseline.forward m x = Some out ->
  Forall (fun row => exists v, row = repeat v n) out.
Proof.
  intros Hw Hc. unfold Baseline.forward, obind.
  destruct (view_batch x) as [x0|]; [|discriminate].
  destruct (option_map relu (linear (Baseline.fc1 m) x0)) as [x1|];
    [|discriminate].
  destruct (option_map relu (linear (Baseline.fc2 m) x1)) as [x2|];
    [|discriminate].
  destruct (option_map relu (linear (Baseline.fc3 m) x2)) as [x3|];
    [|discriminate].
  unfold linear. rewrite Hw, Hc.
  destruct (forallb _ x3); [|discriminate].
  cbn [option_map]. intro E. inversion E; subst out. clear E.
  unfold log_softmax. rewrite map_map. apply Forall_map, Forall_forall.
  intros h _. rewrite affine_row_repeat. unfold log_softmax_row.
  rewrite map_repeat. eexists. reflexivity.
Qed.

Lemma first_argmax_equal (c : R) (n : nat) :
  first_argmax (repeat c (S n)) 0.
Proof.
  exists c. split; [reflexivity|]. split.
  - intros u Hu. apply repeat_spec in Hu. subst. lra.
  - intros j u Hj. lia.
Qed.

Lemma baseline_call_forward (m : Baseline.Classifier) (x : Tensor)
  (g g' : unit) (out : Matrix) :
  call (NNModule := baseline_module unit) m x g = Some (out, g') ->
  Baseline.forward m x = Some out.
Proof.
  cbn [call baseline_module]. unfold lift.
  destruct (Baseline.forward m x); [|discriminate].
  intro E. inversion E. reflexivity.
Qed.

Lemma labels_sample0 : labels sample0 = [0%nat].
Proof. reflexivity. Qed.

(** On one row of ten equal entries, the first largest entry is at class 0,
    [topk0] returns class 8, and a label 0 is counted as wrong. *)
Lemma ten_equal_classes (lp : Matrix) :
  length lp = 1%nat ->
  Forall (fun row => exists v, row = repeat v 10) lp ->
  exists vs,
    topk1 (K := topk0) lp = Some (vs, [8%nat]) /\
    Forall2 first_argmax lp [0%nat] /\
    ~ Forall2 first_argmax lp [8%nat] /\
    correct (K := topk0) lp [0%nat] = 0%nat.
Proof.
  intros Hlen Hrows.
  destruct lp as [|row [|row' lp]]; try discriminate Hlen.
  inversion Hrows as [|? ? [v Hv] _]; subst.
  destruct (topk1_predictions (K := topk0) [repeat v 10]) as (vs & Et).
  { constructor; [discriminate|constructor]. }
  unfold predictions in Et. cbn [map] in Et. rewrite topk0_ten_equal in Et.
  exists vs. split; [exact Et|].
  split; [constructor; [apply first_argmax_equal|constructor]|]. split.
  - intro H. inversion H as [|? ? ? ? (u & Hu & _ & Hfst) _]; subst.
    specialize (Hfst 0%nat v ltac:(lia) eq_refl).
    cbn in Hu. inversion Hu; subst u. lra.
  - unfold correct, predictions. cbn [map]. rewrite topk0_ten_equal.
    reflexivity.
Qed.

(** C8, as it is stated, fails when [topk] returns another of the largest
    entries than the first: on the small instance the ten log-probabilities
    of the sample are equal, so that the first largest of them is at class 0,
    the label of the sample; with a [topk] that returns the last but one of
    the largest entries, the class that enters the count is 8, and the
    validation step of cell 13 counts the sample as wrong. *)
Lemma top1_not_first :
  returns_largest topk0 /\
  exists s' log_ps top_p top_class,
    validate_batch (K := topk0) (M := baseline_module unit) sample0 store13
      = Some (Next, s') /\
    call (NNModule := baseline_module unit) (model store13)
      (images sample0) (rng store13) = Some (log_ps, rng s') /\
    topk1 (K := topk0) log_ps = Some (top_p, top_class) /\
    Forall2 first_argmax log_ps (labels sample0) /\
    top_class = [8%nat] /\
    ~ Forall2 first_argmax log_ps top_class /\
    accuracy s' = accuracy store13.
Proof.
  split; [exact topk0_largest|].
  destruct (validate_batch_run (K := topk0) unit unit unit
              (M := baseline_module unit) (baseline_laws unit) sample0
              store13 store13_ok sample0_wf)
    as (c & s' & E & -> & _ & _ & _ & _ & _ & lp & loss & Ec & Hlp & _ & _
          & Ha & _).
  exists s', lp.
  pose proof (baseline_call_forward _ _ _ _ _ Ec) as Ef.
  pose proof (forward_equal_entries (model store13) (images sample0) lp 10
                (repeat 0 64) 0 (proj1 store13_fc4) (proj2 store13_fc4) Ef)
    as Hrows.
  rewrite labels_sample0 in *.
  destruct Hlp as (Hlen & _). clear Ef.
  destruct (ten_equal_classes lp Hlen Hrows) as (vs & Et & Hf & Hn & Hc).
  exists vs, [8%nat].
  split; [exact E|]. split; [exact Ec|]. split; [exact Et|].
  split; [exact Hf|]. split; [reflexivity|]. split; [exact Hn|].
  rewrite Ha, Hc. simpl. lra.
Qed.

(** * More of the notebook *)

(** ** Views, slices and probabilities *)

Section TensorExtras.
Context {K : TopK}.




(** A view keeps the entries and only changes the shape: viewing the
    result in the first shape gives the tensor back, and a view of a view
    is the view of the tensor. *)
Lemma view_round_trip (sh : list nat) (x y : Tensor) :
  view sh x = Some y ->
  data y = data x /\ shape y = sh /\
  view (shape x) y = Some x /\
  forall sh', view sh' y = view sh' x.
Proof.
  unfold view. destruct (Nat.eqb_spec (numel sh) (numel (shape x))) as [E|E];
    [|discriminate].
  intro H. inversion H; subst. simpl. repeat split.
  - rewrite E, Nat.eqb_refl. now destruct x.
  - intro sh'. now rewrite E.
Qed.

Lemma firstn_exact {A : Type} (n : nat) (a r : list A) :
  length a = n -> firstn n (a ++ r) = a.
Proof.
  intros <-. induction a as [|v a IH]; simpl; [now destruct r|now rewrite IH].
Qed.

Lemma skipn_exact {A : Type} (n k : nat) (a r : list A) :
  length a = n -> skipn (n + k) (a ++ r) = skipn k r.
Proof. intros <-. induction a as [|v a IH]; simpl; auto. Qed.

Lemma slice_concat (n i : nat) (xs : list Sample) :
  Forall (fun it => length (fst it) = n) xs ->
  firstn n (skipn (i * n) (concat (map fst xs)))
  = match nth_error xs i with Some x => fst x | None => [] end.
Proof.
  intro H. revert i. induction H as [|x xs Hx _ IH]; intro i.
  - simpl. rewrite skipn_nil, firstn_nil. now destruct i.
  - destruct i as [|i]; simpl.
    + now apply firstn_exact.
    + rewrite (skipn_exact n (i * n) _ _ Hx). apply IH.
Qed.

(** X2. Slicing undoes stacking: the [i]-th slice of the images of a batch
    collated from samples of one shape is the image of the [i]-th sample in
    that shape, and the slice raises when the batch has no [i]-th sample. *)
Theorem select_collate (sh : list nat) (xs : list Sample) (i : nat) :
  Forall (fun it => length (fst it) = numel sh) xs ->
  select i (images (collate sh xs))
  = option_map (fun x => mkTensor sh (fst x)) (nth_error xs i).
Proof.
  intro H. unfold select, collate. cbn [images shape data].
  rewrite (slice_concat (numel sh) i xs H).
  destruct (Nat.ltb_spec i (length xs)) as [Hi|Hi].
  - destruct (nth_error xs i) as [x|] eqn:E; [reflexivity|].
    apply nth_error_None in E. lia.
  - apply nth_error_None in Hi. now rewrite Hi.
Qed.

End TensorExtras.

Lemma select_collate_witness :
  select 1 (images (collate [1; 28; 28]%nat [(image0, 0%nat); (image1, 1%nat)]))
  = option_map (fun x => mkTensor [1; 28; 28]%nat (fst x))
      (nth_error [(image0, 0%nat); (image1, 1%nat)] 1).
Proof.
  apply (select_collate [1; 28; 28]%nat [(image0, 0%nat); (image1, 1%nat)] 1).
  repeat constructor.
Defined.

(** ** The batches of a loader *)

Section LoaderExtras.
Variable Rng : Type.
Variable randperm : nat -> Rng -> list nat * Rng.
Hypothesis randperm_perm :
  forall n g, Permutation (fst (randperm n g)) (seq 0 n).

Lemma chunks_sizes (c bs : nat) (l : list nat) :
  (0 < bs)%nat -> (1 <= c)%nat ->
  (c * bs < length l + bs)%nat -> (length l <= c * bs)%nat ->
  exists full last,
    chunks c bs l = full ++ [last] /\
    Forall (fun ch => length ch = bs) full /\
    (1 <= length last <= bs)%nat.
Proof.
  intros Hbs. revert l. induction c as [|c IH]; intros l Hc Hlo Hhi; [lia|].
  destruct c as [|c].
  - exists [], (firstn bs l). simpl. split; [reflexivity|]. split; [constructor|].
    rewrite length_firstn. lia.
  - destruct (IH (skipn bs l)) as (full & last & E & Hf & Hl);
      try (rewrite length_skipn); try lia; try nia.
    exists (firstn bs l :: full), last. split.
    + change (chunks (S (S c)) bs l)
        with (firstn bs l :: chunks (S c) bs (skipn bs l)).
      now rewrite E.
    + split; [|exact Hl]. constructor; [|exact Hf].
      rewrite length_firstn. nia.
Qed.

(** The batches of a traversal are the collated chunks of the shuffled
    samples. *)
Lemma iter_collated (ds : Dataset) (bs : nat) (sh : bool) (g : Rng) :
  dataset_ok ds = true -> (0 < bs)%nat ->
  exists perm g' xss,
    iter randperm (mkDataLoader ds bs sh) g
      = Some (map (collate (image_shape ds)) xss, g') /\
    length perm = length (items ds) /\
    Forall2 (fun xs ix => length xs = length ix) xss
      (chunks (len (mkDataLoader ds bs sh)) bs perm) /\
    Permutation (concat xss) (items ds).
Proof.
  intros Hds Hbs. pose proof (dataset_ok_inv ds Hds) as (Hn & _ & _).
  unfold iter, len. cbn [dataset batch_size shuffle].
  set (n := length (items ds)) in *.
  set (c := ((n + bs - 1) / bs)%nat).
  destruct (len_bounds n bs Hn Hbs) as (Hc1 & Hc2 & Hc3). fold c in Hc1, Hc2, Hc3.
  assert (exists perm g', (if sh then randperm n g else (seq 0 n, g)) = (perm, g')
                          /\ Permutation perm (seq 0 n)) as (perm & g' & -> & Hp).
  { destruct sh.
    - pose proof (randperm_perm n g) as Hp.
      destruct (randperm n g) as [perm g']. eauto.
    - eauto using Permutation_refl. }
  assert (length perm = n) as Hlen
    by (rewrite (Permutation_length Hp); apply length_seq).
  pose proof (chunks_concat c bs perm ltac:(lia)) as Hcat.
  destruct (batches_of_ok ds (chunks c bs perm)) as (xss & -> & E & F).
  { apply Forall_concat. rewrite Hcat. now apply perm_in_range. }
  rewrite Hcat in E.
  exists perm, g', xss. simpl. repeat split; auto.
  apply Permutation_Some. rewrite E, <- nth_error_seq.
  apply Permutation_map. exact Hp.
Qed.

(** X3. One traversal of a loader over a well-formed data set, shuffled or
    not: it yields [len(loader)] batches; every batch but the last has
    exactly [batch_size] samples and the last has between one and
    [batch_size]; the images of a batch are stacked in the shape of as many
    images as the batch has labels; and the batches hold every sample of
    the data set exactly once. *)
Theorem loader_batches (ds : Dataset) (bs : nat) (sh : bool) (g : Rng) :
  dataset_ok ds = true -> (0 < bs)%nat ->
  exists batches g' full last,
    iter randperm (mkDataLoader ds bs sh) g = Some (batches, g') /\
    batches = full ++ [last] /\
    length batches = len (mkDataLoader ds bs sh) /\
    Forall (fun b => length (labels b) = bs) full /\
    (1 <= length (labels last) <= bs)%nat /\
    Forall (fun b => shape (images b) = length (labels b) :: image_shape ds)
      batches /\
    covers ds batches.
Proof.
  intros Hds Hbs.
  destruct (iter_collated ds bs sh g Hds Hbs)
    as (perm & g' & xss & E & Hlen & F & Hcov).
  pose proof (dataset_ok_inv ds Hds) as (Hn & _ & _).
  destruct (len_bounds _ bs Hn Hbs) as (Hc1 & Hc2 & Hc3).
  destruct (chunks_sizes (len (mkDataLoader ds bs sh)) bs perm Hbs)
    as (fullc & lastc & Ec & Hfc & Hlc);
    try (unfold len; cbn [dataset batch_size]; lia).
  pose proof (Forall2_length F) as Hxl. rewrite chunks_length in Hxl.
  rewrite Ec in F. apply Forall2_app_inv_r in F.
  destruct F as (fullx & lastx & F1 & F2 & ->).
  inversion F2 as [|xs ? ? ? Hxs F3]; subst. inversion F3; subst.
  exists (map (collate (image_shape ds)) (fullx ++ [xs])), g',
    (map (collate (image_shape ds)) fullx), (collate (image_shape ds) xs).
  split; [exact E|]. split; [now rewrite map_app|].
  split; [now rewrite length_map|]. split; [|split; [|split]].
  - apply Forall_map. apply Forall_forall. intros x Hx.
    destruct (Forall2_In_left _ _ _ x F1 Hx) as (ix & Hix & Hl).
    rewrite Forall_forall in Hfc. unfold collate. cbn [labels].
    rewrite length_map. etransitivity; [exact Hl|now apply Hfc].
  - unfold collate. cbn [labels]. rewrite length_map.
    unfold Sample in *. lia.
  - apply Forall_map. apply Forall_forall. intros x _. unfold collate.
    cbn [labels images shape]. now rewrite length_map.
  - exists (fullx ++ [xs]). auto.
Qed.

(** The first batch of a fresh traversal of a loader. *)
Lemma next_batch_ok (ds : Dataset) (bs : nat) (sh : bool) (g : Rng) :
  dataset_ok ds = true -> (0 < bs)%nat ->
  exists xs g',
    next_batch randperm (mkDataLoader ds bs sh) g
      = Some (collate (image_shape ds) xs, g') /\
    length xs = Nat.min bs (length (items ds)) /\
    Forall (fun x => In x (items ds)) xs /\
    batch_wf (collate (image_shape ds) xs).
Proof.
  intros Hds Hbs.
  destruct (iter_collated ds bs sh g Hds Hbs)
    as (perm & g' & xss & E & Hlen & F & Hcov).
  pose proof (dataset_ok_inv ds Hds) as (Hn & _ & _).
  destruct (len_bounds _ bs Hn Hbs) as (Hc1 & Hc2 & Hc3).
  unfold len in F. cbn [dataset batch_size] in F.
  destruct ((length (items ds) + bs - 1) / bs)%nat as [|c] eqn:Ec; [lia|].
  cbn [chunks] in F. inversion F as [|xs ? xss' ? Hxs F']; subst.
  assert (Forall (fun x => In x (items ds)) xs) as Hin.
  { apply Forall_forall. intros x Hx. apply (Permutation_in _ Hcov).
    simpl. apply in_or_app. now left. }
  assert (length xs = Nat.min bs (length (items ds))) as Hl.
  { etransitivity; [exact Hxs|]. now rewrite length_firstn, Hlen. }
  assert (xs <> []) as Hne by (intros ->; simpl in Hl; lia).
  exists xs, g'. unfold next_batch, bind. rewrite E. simpl.
  split; [reflexivity|]. split; [exact Hl|]. split; [exact Hin|].
  now apply collate_wf.
Qed.

End LoaderExtras.

(** ** The accuracy of one batch *)

Section InspectFacts.
Context {K : TopK}.
Variable Rng : Type.
Variable randperm : nat -> Rng -> list nat * Rng.
Variable uniform : R -> R -> Rng -> R * Rng.
Variable testset : Dataset.
Hypothesis randperm_perm :
  forall n g, Permutation (fst (randperm n g)) (seq 0 n).
Hypothesis testset_ok : dataset_ok testset = true.

(** The exponentials of log-probabilities are probabilities. *)
Lemma probabilities (B : nat) (log_ps : Matrix) :
  log_probs B log_ps ->
  length (torch_exp log_ps) = B /\
  Forall (fun row => length row = 10%nat /\ sum row = 1 /\
                     Forall (fun p => 0 < p <= 1) row) (torch_exp log_ps).
Proof.
  intros (Hl & Hn & Hp). unfold torch_exp. split; [now rewrite length_map|].
  apply Forall_map. apply Forall_forall. intros r Hr.
  rewrite Forall_forall in Hn, Hp. destruct (Hn r Hr) as [H10 Hs].
  split; [now rewrite length_map|]. split; [exact Hs|].
  apply Forall_map. eapply Forall_impl; [|exact (Hp r Hr)].
  intros v Hv. simpl in Hv. split; [apply exp_pos|].
  rewrite <- exp_0. destruct Hv as [Hv| ->]; [left; now apply exp_increasing|].
  right. reflexivity.
Qed.




(** What the four cells assign and print, on a well-formed test set. *)
Lemma cells_5_to_11_run (g : Rng) :
  exists r g' log_ps,
    cells_5_to_11 randperm uniform testset g = Some (r, g') /\
    Baseline.forward (v_model r) (v_images r) = Some log_ps /\
    log_probs (length (v_labels r)) log_ps /\
    length (v_labels r) = Nat.min 64 (length (items testset)) /\
    v_ps r = torch_exp log_ps /\
    printed_shape r = shape2 (v_ps r) /\
    v_top_class r = predictions (v_ps r) /\
    printed_classes r = firstn 10 (v_top_class r) /\
    v_equals r = equals (v_top_class r) (v_labels r) /\
    v_accuracy r = mean (map float (v_equals r)) /\
    printed_accuracy r = v_accuracy r * 100 /\
    topk1 (v_ps r) = Some (v_top_p r, v_top_class r).
Proof.
  unfold cells_5_to_11, bind.
  pose proof (baseline_init_ok Rng uniform g) as [Hp _].
  destruct (Baseline.init uniform g) as [model g1]. simpl in Hp.
  destruct (next_batch_ok Rng randperm randperm_perm testset 64 true g1
              testset_ok ltac:(lia)) as (xs & g2 & E & Hl & Hin & Hwf).
  change (testloader testset) with (mkDataLoader testset 64 true).
  rewrite E. set (b := collate (image_shape testset) xs) in *.
  destruct Hwf as (Hb & Hlb & Hy).
  destruct (baseline_forward_ok model (images b) Hp Hb) as (lp & Ef & Hlp).
  rewrite <- Hlb in Hlp. unfold lift at 1. rewrite Ef.
  assert (Forall (fun r : list R => r <> []) (torch_exp lp)) as Hne.
  { unfold torch_exp. apply Forall_map. destruct Hlp as (_ & Hn & _).
    eapply Forall_impl; [|exact Hn]. intros r [Hr _] Hm.
    apply (f_equal (@length _)) in Hm. rewrite length_map in Hm.
    simpl in Hm. lia. }
  destruct (topk1_predictions _ Hne) as (vs & Et).
  unfold lift at 1. rewrite Et. cbn [snd fst].
  assert (view_as (predictions (torch_exp lp)) (labels b)
          = Some (labels b)) as Ev.
  { unfold view_as, predictions, torch_exp. rewrite !length_map.
    destruct Hlp as (-> & _). now rewrite Nat.eqb_refl. }
  unfold lift, ret. rewrite Ev.
  eexists _, _, lp. split; [reflexivity|].
  cbn [v_model v_images v_labels v_ps v_top_p v_top_class v_equals
       v_accuracy printed_shape printed_classes printed_accuracy].
  split; [exact Ef|]. split; [exact Hlp|]. split.
  { subst b. unfold collate. cbn [labels]. rewrite length_map. exact Hl. }
  repeat (split; [reflexivity|]). exact Et.
Qed.

(** X4. Cell 5 prints the shape [[B; 10]] where [B] is the size of the first
    batch of the test loader, 64 when the test set has at least 64 images,
    and every row of [ps] is a distribution over the ten classes: its
    entries are positive, at most 1, and sum to 1. *)
Theorem first_batch_probabilities (g : Rng) :
  exists r g',
    cells_5_to_11 randperm uniform testset g = Some (r, g') /\
    printed_shape r = [Nat.min 64 (length (items testset)); 10%nat] /\
    Forall (fun row => length row = 10%nat /\ sum row = 1 /\
                       Forall (fun p => 0 < p <= 1) row) (v_ps r).
Proof.
  destruct (cells_5_to_11_run g)
    as (r & g' & lp & E & _ & Hlp & Hl & Hps & Hsh & _).
  exists r, g'. split; [exact E|].
  destruct (probabilities _ lp Hlp) as [Hlen Hrows].
  rewrite Hsh, Hps. split; [|exact Hrows].
  unfold shape2. rewrite Hlen, Hl.
  pose proof (dataset_ok_inv _ testset_ok) as (Hn & _).
  destruct (torch_exp lp) as [|row rows]; [simpl in Hlen; lia|].
  inversion Hrows as [|? ? (H10 & _) _]; subst. simpl. now rewrite H10.
Qed.


(** The largest entry of a row and its index, as [topk] returns them. *)
Lemma topk1_combine (x : Matrix) (vs : list R) (cs : list nat) :
  returns_largest K ->
  topk1 x = Some (vs, cs) ->
  Forall2 (fun row pc => largest_at row (snd pc) /\
                         nth_error row (snd pc) = Some (fst pc))
    x (combine vs cs).
Proof.
  intro HK. revert vs cs. induction x as [|row x IH]; intros vs cs E.
  - inversion E. constructor.
  - cbn [topk1] in E. destruct row as [|v row]; [discriminate|].
    cbn [topk1_row obind] in E.
    destruct (topk1 x) as [[vs' cs']|]; [|discriminate].
    cbn [obind fst snd] in E. inversion E; subst. clear E.
    cbn [combine]. constructor; [|now apply IH].
    pose proof (HK (v :: row) ltac:(discriminate)) as Hf.
    cbn [fst snd]. split; [exact Hf|].
    destruct Hf as (m & Hm & _). rewrite Hm. f_equal. symmetry.
    exact (nth_error_nth (v :: row) (topk_index (v :: row)) v Hm).
Qed.

Lemma sum_le_bound (row : list R) (p : R) :
  (forall q, In q row -> q <= p) -> sum row <= INR (length row) * p.
Proof.
  induction row as [|v row IH]; intro H.
  - simpl. lra.
  - change (sum (v :: row)) with (v + sum row).
    change (length (v :: row)) with (S (length row)). rewrite S_INR.
    pose proof (H v (or_introl eq_refl)) as Hv.
    assert (sum row <= INR (length row) * p) as Hs
      by (apply IH; intros q Hq; apply H; now right).
    lra.
Qed.

Lemma top_bounds (rows : Matrix) (pcs : list (R * nat)) :
  Forall2 (fun row pc => largest_at row (snd pc) /\
                         nth_error row (snd pc) = Some (fst pc)) rows pcs ->
  Forall (fun row => length row = 10%nat /\ sum row = 1 /\
                     Forall (fun p => 0 < p <= 1) row) rows ->
  Forall2 (fun row pc =>
             nth_error row (snd pc) = Some (fst pc) /\
             (forall q, In q row -> q <= fst pc) /\
             1 / 10 <= fst pc <= 1) rows pcs.
Proof.
  induction 1 as [|row pc rows pcs [Hf Hn] Hc IH]; intro Hrows;
    constructor.
  - inversion Hrows as [|? ? (H10 & Hs & Hr) _]; subst.
    split; [exact Hn|].
    destruct Hf as (m & Hm & Hmax).
    rewrite Hn in Hm. inversion Hm; subst m. clear Hm.
    split; [exact Hmax|].
    pose proof (sum_le_bound row (fst pc) Hmax) as Hb.
    rewrite H10, Hs in Hb. simpl in Hb.
    rewrite Forall_forall in Hr.
    pose proof (Hr _ (nth_error_In _ _ Hn)) as Hp.
    split; lra.
  - apply IH. now inversion Hrows.
Qed.

(** X13. The pairs cell 7 takes from the probabilities of the first batch:
    for every row, [top_p] is the entry of the row at [top_class], no entry
    of the row is larger, and, the row being a distribution over ten
    classes, it is at least 1/10 and at most 1. *)
Theorem top_probability (g : Rng) :
  returns_largest K ->
  exists r g',
    cells_5_to_11 randperm uniform testset g = Some (r, g') /\
    Forall2 (fun row pc =>
               nth_error row (snd pc) = Some (fst pc) /\
               (forall q, In q row -> q <= fst pc) /\
               1 / 10 <= fst pc <= 1)
      (v_ps r) (combine (v_top_p r) (v_top_class r)).
Proof.
  intro HK.
  destruct (cells_5_to_11_run g)
    as (r & g' & lp & E & _ & Hlp & _ & Hps & _ & _ & _ & _ & _ & _ & Et).
  exists r, g'. split; [exact E|].
  destruct (probabilities _ lp Hlp) as [_ Hrows]. rewrite <- Hps in Hrows.
  apply top_bounds; [|exact Hrows]. now apply topk1_combine.
Qed.

End InspectFacts.

Lemma dataset65_ok : dataset_ok dataset65 = true.
Proof. reflexivity. Qed.

Lemma loader_batches_witness :
  exists batches g' full last,
    iter randperm0 (mkDataLoader dataset65 64 true) tt = Some (batches, g') /\
    batches = full ++ [last] /\
    length batches = len (mkDataLoader dataset65 64 true) /\
    Forall (fun b => length (labels b) = 64%nat) full /\
    (1 <= length (labels last) <= 64)%nat /\
    Forall (fun b => shape (images b)
                     = length (labels b) :: image_shape dataset65) batches /\
    covers dataset65 batches.
Proof.
  apply (loader_batches unit randperm0 randperm0_perm dataset65 64 true tt).
  - exact dataset65_ok.
  - lia.
Defined.

Lemma first_batch_probabilities_witness :
  exists r g',
    cells_5_to_11 (K := topk0) randperm0 uniform0 dataset65 tt
      = Some (r, g') /\
    printed_shape r = [Nat.min 64 (length (items dataset65)); 10%nat] /\
    Forall (fun row => length row = 10%nat /\ sum row = 1 /\
                       Forall (fun p => 0 < p <= 1) row) (v_ps r).
Proof.
  exact (first_batch_probabilities (K := topk0) unit randperm0 uniform0
           dataset65
           randperm0_perm dataset65_ok tt).
Defined.

Lemma top_probability_witness :
  exists r g',
    cells_5_to_11 (K := topk0) randperm0 uniform0 dataset65 tt
      = Some (r, g') /\
    Forall2 (fun row pc =>
               nth_error row (snd pc) = Some (fst pc) /\
               (forall q, In q row -> q <= fst pc) /\
               1 / 10 <= fst pc <= 1)
      (v_ps r) (combine (v_top_p r) (v_top_class r)).
Proof.
  exact (top_probability (K := topk0) unit randperm0 uniform0 dataset65
           randperm0_perm dataset65_ok tt topk0_largest).
Defined.



(** ** Inference on one image (cell 19) *)

Section InferenceFacts.
Variable Rng : Type.
Variable randperm : nat -> Rng -> list nat * Rng.
Variable OptState : Type.
Variable Grad : Type.
Context {T : Type} {M : NNModule Rng T}.
Variable testset : Dataset.
Hypothesis randperm_perm :
  forall n g, Permutation (fst (randperm n g)) (seq 0 n).
Hypothesis laws : NNModuleLaws M.
Hypothesis testset_ok : dataset_ok testset = true.

(** The first sample of a batch, cut out of its tensor. *)
Lemma select_first (sh : list nat) (x : Sample) (xs : list Sample) :
  length (fst x) = numel sh ->
  select 0 (images (collate sh (x :: xs))) = Some (mkTensor sh (fst x)).
Proof.
  intro Hx. unfold select, collate.
  cbn [images shape data length Nat.ltb Nat.leb Nat.mul skipn map concat].
  now rewrite firstn_exact.
Qed.

Lemma view_ok (sh : list nat) (x : Tensor) :
  numel sh = numel (shape x) -> view sh x = Some (mkTensor sh (data x)).
Proof. intro H. unfold view. now rewrite H, Nat.eqb_refl. Qed.

(** X6. Cell 19, from a store whose model has well-shaped layers: the model
    is switched to evaluation mode; the image shown is the first sample of
    the first batch of the test loader, a sample of the test set, in the
    shape [1 x 28 x 28]; the probabilities shown are the exponentials of what
    the model in evaluation mode returns for this image in the shape
    [1 x 784], one row of ten positive numbers that sum to 1; the parameters,
    the optimizer, the gradients and the printed lines are as before. *)
Theorem inference_first_image (s : State Rng OptState Grad) :
  Params_ok (parameters (model s)) = true ->
  exists x xs g1 log_ps row s',
    cell19 randperm testset s
      = Some ((mkTensor [1; 28; 28]%nat (fst x), torch_exp log_ps), s') /\
    next_batch randperm (mkDataLoader testset 64 true) (rng s)
      = Some (collate (image_shape testset) (x :: xs), g1) /\
    In x (items testset) /\
    call (eval (model s)) (mkTensor [1; 784]%nat (fst x)) g1
      = Some (log_ps, rng s') /\
    torch_exp log_ps = [row] /\
    length row = 10%nat /\ sum row = 1 /\ Forall (fun p => 0 < p <= 1) row /\
    model s' = eval (model s) /\
    is_training (model s') = false /\
    parameters (model s') = parameters (model s) /\
    optimizer s' = optimizer s /\ grad s' = grad s /\ stdout s' = stdout s.
Proof.
  intro Hp.
  destruct (next_batch_ok Rng randperm randperm_perm testset 64 true (rng s)
              testset_ok ltac:(lia)) as (xs & g1 & E & Hl & Hin & _).
  pose proof (dataset_ok_inv _ testset_ok) as (Hn & Hsh & Hits).
  destruct xs as [|x xs]; [cbn [length] in Hl; lia|].
  inversion Hin as [|? ? Hx _]; subst.
  rewrite Forall_forall in Hits. destruct (Hits x Hx) as [H784 _].
  assert (batch_ok (mkTensor [1; 784]%nat (fst x)) = true) as Hb.
  { apply batch_ok_intro; [lia|reflexivity|]. rewrite H784. lia. }
  assert (Params_ok (parameters (eval (model s))) = true) as Hp'
    by now rewrite eval_parameters.
  destruct (call_ok (eval (model s)) _ g1 Hp' Hb) as (lp & g2 & Ec & Hlp).
  change (batch_dim (mkTensor [1; 784]%nat (fst x))) with 1%nat in Hlp.
  destruct (probabilities 1 lp Hlp) as [Hlen Hrows].
  destruct (torch_exp lp) as [|row [|? ?]] eqn:Ee; try discriminate.
  inversion Hrows as [|? ? (H10 & Hs & Hr) _]; subst.
  exists x, xs, g1, lp, row.
  unfold cell19, bind, model_eval, modify, with_rng.
  cbn [rng observe set_model]. unfold testloader. rewrite E.
  rewrite select_first by (rewrite H784; now symmetry).
  cbn [lift]. rewrite view_ok by (cbn [shape]; rewrite Hsh; reflexivity).
  cbn [lift data]. unfold call_model, with_rng.
  cbn [model set_rng rng observe set_model].
  rewrite Ec. rewrite view_ok by reflexivity. cbn [lift data]. unfold ret.
  eexists. split; [reflexivity|]. cbn [rng model optimizer grad stdout].
  split; [reflexivity|]. split; [exact Hx|]. split; [reflexivity|].
  split; [exact Ee|]. split; [exact H10|]. split; [exact Hs|].
  split; [exact Hr|]. split; [reflexivity|]. split; [apply eval_mode|].
  split; [apply eval_parameters|]. repeat split; reflexivity.
Qed.

End InferenceFacts.

Lemma inference_first_image_witness :
  exists x xs g1 log_ps row s',
    cell19 (M := regularized_module bernoulli0) randperm0 dataset65 store17
      = Some ((mkTensor [1; 28; 28]%nat (fst x), torch_exp log_ps), s') /\
    next_batch randperm0 (mkDataLoader dataset65 64 true) (rng store17)
      = Some (collate (image_shape dataset65) (x :: xs), g1) /\
    In x (items dataset65) /\
    Regularized.forward bernoulli0 (Regularized.eval (model store17))
      (mkTensor [1; 784]%nat (fst x)) g1 = Some (log_ps, rng s') /\
    torch_exp log_ps = [row] /\
    length row = 10%nat /\ sum row = 1 /\ Forall (fun p => 0 < p <= 1) row /\
    model s' = Regularized.eval (model store17) /\
    Regularized.training (model s') = false /\
    Regularized.parameters (model s')
      = Regularized.parameters (model store17) /\
    optimizer s' = optimizer store17 /\ grad s' = grad store17 /\
    stdout s' = stdout store17.
Proof.
  exact (inference_first_image unit randperm0 unit unit
           (M := regularized_module bernoulli0) dataset65
           randperm0_perm (regularized_laws unit bernoulli0) dataset65_ok
           store17 store17_ok).
Defined.

(** ** What the forward pass and the steps of the loops accept *)

Section AcceptFacts.
Variable Rng : Type.
Variable bernoulli : R -> Rng -> bool * Rng.

Lemma Linear_ok_in (i o : nat) (l : Linear) :
  Linear_ok i o l = true -> in_features l = i.
Proof.
  unfold Linear_ok. rewrite !andb_true_iff, !Nat.eqb_eq. tauto.
Qed.

(** A well-formed tensor that is not a batch of images of 784 entries has no
    flattening the first layer applies to. *)
Lemma view_batch_reject (x : Tensor) (l : Linear) (m : Matrix) :
  tensor_ok x = true -> batch_ok x = false -> in_features l = 784%nat ->
  view_batch x = Some m -> linear l m = None.
Proof.
  unfold tensor_ok, batch_ok, batch_dim, view_batch, tensor_ok.
  destruct x as [[|B rest] d]; cbn [shape data hd tl length]; [discriminate|].
  intros Hd Hb Hl. rewrite Hd in Hb. apply Nat.eqb_eq in Hd.
  cbn [numel fold_right] in *. fold (numel rest) in *.
  destruct (Nat.eqb_spec (B * numel rest) 0) as [|Hz]; [discriminate|].
  intro Hm. inversion Hm; subst m. clear Hm.
  destruct B as [|b]; [lia|]. cbn [Nat.leb Nat.eqb andb negb] in Hb.
  rewrite !andb_true_r in Hb. apply Nat.eqb_neq in Hb.
  unfold linear. cbn [rows forallb].
  rewrite length_firstn, Hl, Nat.min_l by lia.
  apply Nat.eqb_neq in Hb. now rewrite Hb.
Qed.

(** X7. The forward passes of cell 3 and of cell 16, with the layers their
    constructors build, return a result on a well-formed tensor exactly when
    it is a batch of at least one image whose entries after the first
    dimension are 784; on every other tensor they raise, in either mode and
    from every state of the generator. *)
Theorem forward_accepts_exactly (mb : Baseline.Classifier)
  (mr : Regularized.Classifier) (x : Tensor) (g : Rng) :
  tensor_ok x = true ->
  Params_ok (Baseline.parameters mb) = true ->
  Params_ok (Regularized.parameters mr) = true ->
  (Baseline.forward mb x <> None <-> batch_ok x = true) /\
  (Regularized.forward bernoulli mr x g <> None <-> batch_ok x = true).
Proof.
  intros Hx Hb Hr.
  pose proof (Params_ok_inv _ Hb) as (Hb1 & _).
  pose proof (Params_ok_inv _ Hr) as (Hr1 & _).
  apply Linear_ok_in in Hb1, Hr1. cbn [Baseline.parameters layer1] in Hb1.
  cbn [Regularized.parameters layer1] in Hr1.
  split; split.
  - intro H. destruct (batch_ok x) eqn:Eb; [reflexivity|]. exfalso. apply H.
    unfold Baseline.forward. destruct (view_batch x) as [m|] eqn:Ev;
      [|reflexivity].
    cbn [obind]. now rewrite (view_batch_reject x _ m Hx Eb Hb1 Ev).
  - intro Eb. destruct (baseline_forward_ok mb x Hb Eb) as (out & E & _).
    now rewrite E.
  - intro H. destruct (batch_ok x) eqn:Eb; [reflexivity|]. exfalso. apply H.
    unfold Regularized.forward, bind. destruct (view_batch x) as [m|] eqn:Ev;
      [|reflexivity].
    cbn [lift]. now rewrite (view_batch_reject x _ m Hx Eb Hr1 Ev).
  - intro Eb.
    destruct (regularized_forward_ok Rng bernoulli mr x g Hr Eb)
      as (out & g' & E & _).
    now rewrite E.
Qed.



End AcceptFacts.

Lemma forward_accepts_exactly_witness :
  (Baseline.forward baseline0 batch_narrow <> None
   <-> batch_ok batch_narrow = true) /\
  (Regularized.forward bernoulli0 regularized0 batch_narrow tt <> None
   <-> batch_ok batch_narrow = true).
Proof.
  apply (forward_accepts_exactly unit bernoulli0 baseline0 regularized0
           batch_narrow tt).
  - reflexivity.
  - exact (proj1 (baseline_init_ok unit uniform0 tt)).
  - exact (proj1 (regularized_init_ok unit uniform0 tt)).
Defined.

(** ** The steps of the loops *)

Section StepFacts.
Context {K : TopK}.
Variable Rng : Type.
Variable OptState : Type.
Variable Grad : Type.
Variable grad_zero : Grad.
Variable grad_add : Grad -> Grad -> Grad.
Variable adam : OptState -> Params -> Grad -> Params * OptState.
Context {T : Type} {M : NNModule Rng T}.
Variable autograd : T -> Batch -> Rng -> Grad.
Hypothesis laws : NNModuleLaws M.

Local Abbreviation Store := (State Rng OptState Grad (T := T)).


(** X9. A training step on a well-formed batch is one step of the optimizer
    on the gradient of this batch alone: the gradients left by earlier steps
    are zeroed before the loss of the batch is differentiated, for the
    model and the generator the forward pass started from; the parameters
    and the state of the optimizer are what Adam returns for this gradient;
    the mode of the model is kept, the loss of the batch is added to
    [running_loss], and the statistics of the validation and the printed
    lines are left as they were. *)
Theorem training_step_update (b : Batch) (s : Store) :
  Params_ok (parameters (model s)) = true -> batch_wf b ->
  exists log_ps loss s',
    train_batch grad_zero grad_add adam autograd b s = Some (Next, s') /\
    call (model s) (images b) (rng s) = Some (log_ps, rng s') /\
    nll_loss log_ps (labels b) = Some loss /\
    grad s' = grad_add grad_zero (autograd (model s) b (rng s)) /\
    adam (optimizer s) (parameters (model s)) (grad s')
      = (parameters (model s'), optimizer s') /\
    is_training (model s') = is_training (model s) /\
    running_loss s' = running_loss s + loss /\
    testing_loss s' = testing_loss s /\ accuracy s' = accuracy s /\
    stdout s' = stdout s.
Proof.
  intros Hp (Hb & Hl & Hy).
  destruct (call_ok (model s) (images b) (rng s) Hp Hb) as (lp & g' & Ec & Hlp).
  destruct (nll_loss_ok _ lp (labels b) Hlp Hl Hy) as (loss & El & _).
  exists lp, loss.
  unfold train_batch, zero_grad, backward, optimizer_step, call_model,
    with_rng, bind, modify, get, lift, ret.
  cbn [model rng grad optimizer set_grad set_rng]. rewrite Ec, El.
  cbn [model rng grad optimizer set_grad set_rng].
  destruct (adam (optimizer s) (parameters (model s))
              (grad_add grad_zero (autograd (model s) b (rng s))))
    as [p o] eqn:Ea.
  eexists. split; [reflexivity|].
  cbn [model rng grad optimizer stdout running_loss testing_loss accuracy
       set_model set_optimizer set_running_loss set_grad set_rng observe].
  rewrite load_parameters, load_mode, Ea.
  repeat split; reflexivity.
Qed.

End StepFacts.


Lemma training_step_update_witness :
  exists log_ps loss s',
    train_batch (M := regularized_module bernoulli0) tt grad_add0 adam0
      autograd0 sample0 store17 = Some (Next, s') /\
    call (NNModule := regularized_module bernoulli0) (model store17)
      (images sample0) (rng store17) = Some (log_ps, rng s') /\
    nll_loss log_ps (labels sample0) = Some loss /\
    grad s' = grad_add0 tt (autograd0 (model store17) sample0 (rng store17)) /\
    adam0 (optimizer store17)
      (parameters (NNModule := regularized_module bernoulli0) (model store17))
      (grad s')
      = (parameters (NNModule := regularized_module bernoulli0) (model s'),
         optimizer s') /\
    is_training (NNModule := regularized_module bernoulli0) (model s')
      = is_training (NNModule := regularized_module bernoulli0)
          (model store17) /\
    running_loss s' = running_loss store17 + loss /\
    testing_loss s' = testing_loss store17 /\
    accuracy s' = accuracy store17 /\
    stdout s' = stdout store17.
Proof.
  exact (training_step_update unit unit unit tt grad_add0 adam0
           (M := regularized_module bernoulli0) autograd0
           (regularized_laws unit bernoulli0) sample0 store17 store17_ok
           sample0_wf).
Defined.

(** ** The two models side by side *)

Section ModelFacts.
Variable Rng : Type.
Variable bernoulli : R -> Rng -> bool * Rng.
Variable uniform : R -> R -> Rng -> R * Rng.

Lemma init_parameters_eq (g : Rng) :
  Regularized.parameters (fst (Regularized.init uniform g))
    = Baseline.parameters (fst (Baseline.init uniform g)) /\
  snd (Regularized.init uniform g) = snd (Baseline.init uniform g).
Proof.
  unfold Regularized.init, Baseline.init.
  destruct (nn_Linear uniform 784 256 g) as [l1 g1].
  destruct (nn_Linear uniform 256 128 g1) as [l2 g2].
  destruct (nn_Linear uniform 128 64 g2) as [l3 g3].
  destruct (nn_Linear uniform 64 10 g3) as [l4 g4].
  split; reflexivity.
Qed.

(** X10. In evaluation mode the model of cell 16 computes what the model of
    cell 3 computes with the same layers: the same result or the same
    failure on every input, in whatever mode the model of cell 3 is, and
    the generator is left as it was. *)
Theorem eval_forward_is_baseline (mb : Baseline.Classifier)
  (mr : Regularized.Classifier) (x : Tensor) (g : Rng) :
  Regularized.parameters mr = Baseline.parameters mb ->
  Regularized.forward bernoulli (Regularized.eval mr) x g
    = lift (Baseline.forward mb x) g.
Proof.
  destruct mb as [b1 b2 b3 b4 tb], mr as [r1 r2 r3 r4 q tr].
  unfold Regularized.parameters, Baseline.parameters.
  cbn [Regularized.fc1 Regularized.fc2 Regularized.fc3 Regularized.fc4
       Baseline.fc1 Baseline.fc2 Baseline.fc3 Baseline.fc4].
  intro E. inversion E; subst. clear E.
  unfold Regularized.forward, Baseline.forward, Regularized.eval,
    Regularized.call_dropout, Torch.dropout, bind, lift, ret, obind.
  cbn [Regularized.fc1 Regularized.fc2 Regularized.fc3 Regularized.fc4
       Regularized.training Regularized.dropout
       Baseline.fc1 Baseline.fc2 Baseline.fc3 Baseline.fc4].
  destruct (view_batch x) as [x0|]; [|reflexivity].
  destruct (linear b1 x0) as [x1|]; [|reflexivity]. cbn [option_map].
  destruct (linear b2 (relu x1)) as [x2|]; [|reflexivity]. cbn [option_map].
  destruct (linear b3 (relu x2)) as [x3|]; [|reflexivity]. cbn [option_map].
  destruct (linear b4 (relu x3)) as [x4|]; reflexivity.
Qed.

(** X11. The constructors of cell 3 and of cell 16 build the same four
    layers from the same state of the generator and leave it in the same
    state: the layer of dropout draws nothing and has no parameter.  Both
    models start in training mode, with layers of the widths 784, 256, 128,
    64 and 10, and the probability of the dropout is 0.2. *)
Theorem init_same_layers (g : Rng) :
  Regularized.parameters (fst (Regularized.init uniform g))
    = Baseline.parameters (fst (Baseline.init uniform g)) /\
  snd (Regularized.init uniform g) = snd (Baseline.init uniform g) /\
  Params_ok (Baseline.parameters (fst (Baseline.init uniform g))) = true /\
  Baseline.training (fst (Baseline.init uniform g)) = true /\
  Regularized.training (fst (Regularized.init uniform g)) = true /\
  Regularized.dropout (fst (Regularized.init uniform g)) = 2 / 10.
Proof.
  destruct (init_parameters_eq g) as [Hp Hg].
  destruct (baseline_init_ok Rng uniform g) as [Hb Ht].
  destruct (regularized_init_ok Rng uniform g) as (_ & Hd & Hr).
  repeat split; assumption.
Qed.

End ModelFacts.

Lemma eval_forward_is_baseline_witness :
  Regularized.forward bernoulli0 (Regularized.eval regularized0) batch0 tt
    = lift (Baseline.forward baseline0 batch0) tt.
Proof.
  apply (eval_forward_is_baseline unit bernoulli0 baseline0 regularized0
           batch0 tt).
  exact (proj1 (init_parameters_eq unit uniform0 tt)).
Defined.

(** ** The store after the loops *)

Section AfterFacts.
Context {K : TopK}.
Variable Rng : Type.
Variable randperm : nat -> Rng -> list nat * Rng.
Variable OptState : Type.
Variable Grad : Type.
Variable grad_zero : Grad.
Variable grad_add : Grad -> Grad -> Grad.
Variable adam : OptState -> Params -> Grad -> Params * OptState.
Context {T : Type} {M : NNModule Rng T}.
Variable autograd : T -> Batch -> Rng -> Grad.
Variable trainset testset : Dataset.

Local Abbreviation Store := (State Rng OptState Grad (T := T)).

(** What the [else] suite establishes holds after the loop, when no step of
    the loop ends with [break]. *)
Lemma for_else_post {A : Type} (Q : Store -> Prop) (xs : list A)
  (body : A -> SE Store ctl) (orelse : SE Store unit) :
  (forall x, falls_through (body x)) ->
  (forall s u s', orelse s = Some (u, s') -> Q s') ->
  forall s u s', for_else xs body orelse s = Some (u, s') -> Q s'.
Proof.
  intros Hf Ho s u s' E. rewrite for_else_flat in E by exact Hf.
  unfold bind in E. destruct (for_ xs body s) as [[? s1]|]; [|discriminate].
  exact (Ho _ _ _ E).
Qed.

Ltac frame_pair :=
  repeat first
    [ apply preserves_ret
    | apply preserves_get
    | apply preserves_lift
    | apply preserves_modify; intro; reflexivity
    | apply preserves_with_rng; intros; reflexivity
    | apply preserves_call_model; intros; reflexivity
    | apply preserves_bind; [|intro]
    | apply preserves_for_else; [intro|] ].

(** X14. The validation passes of both cells leave the state of the
    optimizer and the gradients as the last training step left them, from
    whatever store they complete: no step of a validation differentiates a
    loss or steps the optimizer. *)
Theorem validation_keeps_optimizer (epochs e : nat) :
  preserves (fun s : Store => (optimizer s, grad s))
    (validation13 randperm trainset testset epochs e) /\
  preserves (fun s : Store => (optimizer s, grad s))
    (validation17 randperm trainset testset epochs e).
Proof.
  split.
  - unfold validation13, validate_batch, report. frame_pair.
  - unfold validation17, model_eval, validate_batch, report. frame_pair.
Qed.

Hypothesis randperm_perm :
  forall n g, Permutation (fst (randperm n g)) (seq 0 n).
Hypothesis adam_ok :
  forall o p d, Params_ok p = true -> Params_ok (fst (adam o p d)) = true.
Hypothesis laws : NNModuleLaws M.
Hypothesis trainset_ok : dataset_ok trainset = true.
Hypothesis testset_ok : dataset_ok testset = true.

(** An epoch of cell 17 ends in evaluation mode. *)
Lemma epoch17_mode (epochs e : nat) (s : Store) (c : ctl) (s' : Store) :
  epoch17 randperm grad_zero grad_add adam autograd trainset testset
    epochs e s = Some (c, s') ->
  is_training (model s') = false.
Proof.
  unfold epoch17, bind, model_train, modify, ret. intro E.
  match type of E with
  | match ?m with _ => _ end = _ => destruct m as [[bs s2]|]; [|discriminate]
  end.
  match type of E with
  | match ?m with _ => _ end = _ =>
      destruct m as [[[] s3]|] eqn:Ef; [|discriminate]
  end.
  inversion E; subst. clear E.
  apply (for_else_post (fun s => is_training (model s) = false)) in Ef;
    [exact Ef| |].
  - intro b. apply train_batch_falls_through.
  - intros s4 u s5 Ev. rewrite validation17_unfold in Ev.
    apply validation13_preserves_model in Ev. rewrite Ev.
    cbn [model observe set_model]. apply eval_mode.
Qed.

Lemma epochs17_mode (epochs n a : nat) (s : Store) :
  Params_ok (parameters (model s)) = true ->
  exists s',
    for_ (seq a (S n))
      (epoch17 randperm grad_zero grad_add adam autograd trainset testset
         epochs) s = Some (tt, s') /\
    is_training (model s') = false /\
    Params_ok (parameters (model s')) = true.
Proof.
  revert a s. induction n as [|n IH]; intros a s Hp;
    destruct (epoch17_run Rng randperm OptState Grad grad_zero grad_add adam
                autograd trainset testset randperm_perm adam_ok laws
                trainset_ok testset_ok epochs a s Hp)
      as (c & s1 & E & -> & Hp1 & _);
    pose proof (epoch17_mode _ _ _ _ _ E) as Hm.
  - exists s1. cbn [seq for_]. unfold bind. rewrite E. auto.
  - destruct (IH (S a) s1 Hp1) as (s' & E' & H').
    exists s'. change (seq a (S (S n))) with (a :: seq (S a) (S n)).
    cbn [for_]. unfold bind. rewrite E. auto.
Qed.

(** X12. Cell 17, run for at least one epoch from a store whose model has
    well-shaped layers, completes and leaves the model in evaluation mode,
    with well-shaped layers: the last switch of an epoch is the one before
    its validation, and nothing after it changes the mode. *)
Theorem cell17_leaves_eval_mode (n : nat) (s : Store) :
  Params_ok (parameters (model s)) = true ->
  exists s',
    cell17 randperm grad_zero grad_add adam autograd trainset testset (S n) s
      = Some (tt, s') /\
    is_training (model s') = false /\
    Params_ok (parameters (model s')) = true.
Proof.
  intro Hp. unfold cell17. now apply epochs17_mode.
Qed.

End AfterFacts.

Lemma cell17_leaves_eval_mode_witness :
  exists s',
    cell17 (K := topk0) (M := regularized_module bernoulli0)
      randperm0 tt grad_add0 adam0
      autograd0 dataset0 dataset0 1 store17 = Some (tt, s') /\
    is_training (NNModule := regularized_module bernoulli0) (model s')
      = false /\
    Params_ok (parameters (NNModule := regularized_module bernoulli0)
                 (model s')) = true.
Proof.
  exact (cell17_leaves_eval_mode unit randperm0 unit unit tt grad_add0 adam0
           (M := regularized_module bernoulli0) autograd0 dataset0 dataset0
           randperm0_perm adam0_ok (regularized_laws unit bernoulli0)
           dataset0_ok dataset0_ok 0 store17 store17_ok).
Defined.

(** ** Cells 13 and 17 from their first line *)

Lemma each_epoch_numbers (F : nat -> list Event -> Report -> Prop)
  (n : nat) (segs : list (list Event)) (rs : list Report) :
  (forall i seg r, F i seg r -> epoch r = (i + 1)%nat /\ of_epochs r = n) ->
  length segs = n -> each_epoch F segs rs ->
  map epoch rs = seq 1 n /\ Forall (fun r => of_epochs r = n) rs.
Proof.
  intros HF Hn [Hl He]. split.
  - apply nth_error_ext. intro i. rewrite List.nth_error_map, List.nth_error_seq.
    destruct (Nat.ltb_spec i n) as [Hi|Hi].
    + destruct (nth_error segs i) as [seg|] eqn:Es;
        [|apply nth_error_None in Es; lia].
      destruct (nth_error rs i) as [r|] eqn:Er;
        [|apply nth_error_None in Er; lia].
      cbn [option_map]. destruct (HF _ _ _ (He _ _ _ Es Er)) as [-> _].
      f_equal. lia.
    + assert (nth_error rs i = None) as -> by (apply nth_error_None; lia).
      reflexivity.
  - apply Forall_forall. intros r Hr.
    destruct (In_nth_error _ _ Hr) as [i Er].
    destruct (nth_error segs i) as [seg|] eqn:Es.
    + exact (proj2 (HF _ _ _ (He _ _ _ Es Er))).
    + apply nth_error_None in Es.
      assert (nth_error rs i <> None) as H by now rewrite Er.
      apply nth_error_Some in H. lia.
Qed.

Lemma epoch_facts_numbers {K : TopK} (trainset testset : Dataset)
  (epochs e : nat) (seg : list Event) (r : Report) :
  epoch_facts trainset testset epochs e seg r ->
  epoch r = (e + 1)%nat /\ of_epochs r = epochs.
Proof.
  intros (_ & _ & _ & _ & _ & _ & _ & ->). split; reflexivity.
Qed.

Section CellFacts.
Context {K : TopK}.
Variable Rng : Type.
Variable bernoulli : R -> Rng -> bool * Rng.
Variable uniform : R -> R -> Rng -> R * Rng.
Variable randperm : nat -> Rng -> list nat * Rng.
Variable OptState : Type.
Variable Grad : Type.
Variable grad_zero : Grad.
Variable grad_add : Grad -> Grad -> Grad.
Variable adam : OptState -> Params -> Grad -> Params * OptState.
Variable optim_Adam : Params -> OptState.
Variable autograd13 : Baseline.Classifier -> Batch -> Rng -> Grad.
Variable autograd17 : Regularized.Classifier -> Batch -> Rng -> Grad.
Variable trainset testset : Dataset.

Hypothesis randperm_perm :
  forall n g, Permutation (fst (randperm n g)) (seq 0 n).
Hypothesis adam_ok :
  forall o p d, Params_ok p = true -> Params_ok (fst (adam o p d)) = true.
Hypothesis trainset_ok : dataset_ok trainset = true.
Hypothesis testset_ok : dataset_ok testset = true.

(** X15. Cells 13 and 17 as they are written, from [Classifier()] to the
    last of their 30 epochs, run to completion on data sets of images of
    784 entries with labels among the ten classes, from every state of the
    generator: the constructors build the layers the loops need.  Each
    prints 30 lines, numbered 1 to 30 of 30.  Cell 13 leaves its model in
    the training mode the constructor put it in; cell 17 leaves its model
    in evaluation mode. *)
Theorem cells_run_from_scratch (g : Rng) :
  (exists s',
     notebook_cell13 uniform randperm grad_zero grad_add adam optim_Adam
       autograd13 trainset testset g = Some s' /\
     map epoch (stdout s') = seq 1 30 /\
     Forall (fun r => of_epochs r = 30%nat) (stdout s') /\
     Baseline.training (model s') = true) /\
  (exists s',
     notebook_cell17 bernoulli uniform randperm grad_zero grad_add adam
       optim_Adam autograd17 trainset testset g = Some s' /\
     map epoch (stdout s') = seq 1 30 /\
     Forall (fun r => of_epochs r = 30%nat) (stdout s') /\
     Regularized.training (model s') = false).
Proof.
  split.
  - unfold notebook_cell13.
    destruct (baseline_init_ok Rng uniform g) as [Hp Ht].
    destruct (Baseline.init uniform g) as [m g1]. cbn [fst] in Hp, Ht.
    destruct (cell13_run Rng randperm OptState Grad grad_zero grad_add adam
                (M := baseline_module Rng) autograd13 trainset testset
                randperm_perm adam_ok (baseline_laws Rng) trainset_ok
                testset_ok 30
                (fresh grad_zero m (optim_Adam (Baseline.parameters m)) g1)
                Hp)
      as ([] & s' & E & Hm & segs & rs & _ & Ho & Hl & He).
    exists s'. rewrite E. split; [reflexivity|].
    cbn [fresh stdout app] in Ho. rewrite Ho.
    destruct (each_epoch_numbers _ 30 segs rs
                (fun i seg r H =>
                   epoch_facts_numbers trainset testset 30 i seg r (proj1 H))
                Hl He) as [H1 H2].
    split; [exact H1|]. split; [exact H2|].
    etransitivity; [exact Hm|exact Ht].
  - unfold notebook_cell17.
    destruct (regularized_init_ok Rng uniform g) as (Hp & _ & _).
    destruct (Regularized.init uniform g) as [m g1]. cbn [fst] in Hp.
    destruct (cell17_run Rng randperm OptState Grad grad_zero grad_add adam
                (M := regularized_module bernoulli) autograd17 trainset
                testset randperm_perm adam_ok
                (regularized_laws Rng bernoulli) trainset_ok testset_ok 30
                (fresh grad_zero m (optim_Adam (Regularized.parameters m))
                   g1) Hp)
      as ([] & s' & E & segs & rs & _ & Ho & Hl & He).
    destruct (epochs17_mode Rng randperm OptState Grad grad_zero grad_add
                adam (M := regularized_module bernoulli) autograd17 trainset
                testset randperm_perm adam_ok
                (regularized_laws Rng bernoulli) trainset_ok testset_ok 30
                29 0
                (fresh grad_zero m (optim_Adam (Regularized.parameters m))
                   g1) Hp)
      as (s'' & E' & Hm & _).
    unfold cell17 in E. rewrite E in E'. inversion E'; subst s''. clear E'.
    exists s'. unfold cell17. rewrite E. split; [reflexivity|].
    cbn [fresh stdout app] in Ho. rewrite Ho.
    destruct (each_epoch_numbers _ 30 segs rs
                (fun i seg r H =>
                   epoch_facts_numbers trainset testset 30 i seg r (proj1 H))
                Hl He) as [H1 H2].
    split; [exact H1|]. split; [exact H2|]. exact Hm.
Qed.

End CellFacts.

Lemma cells_run_from_scratch_witness :
  (exists s',
     notebook_cell13 (K := topk0) uniform0 randperm0 tt grad_add0 adam0
       (fun _ => tt)
       autograd0 dataset0 dataset0 tt = Some s' /\
     map epoch (stdout s') = seq 1 30 /\
     Forall (fun r => of_epochs r = 30%nat) (stdout s') /\
     Baseline.training (model s') = true) /\
  (exists s',
     notebook_cell17 (K := topk0) bernoulli0 uniform0 randperm0 tt grad_add0
       adam0 (fun _ => tt) autograd0 dataset0 dataset0 tt = Some s' /\
     map epoch (stdout s') = seq 1 30 /\
     Forall (fun r => of_epochs r = 30%nat) (stdout s') /\
     Regularized.training (model s') = false).
Proof.
  exact (cells_run_from_scratch (K := topk0) unit bernoulli0 uniform0
           randperm0 unit unit
           tt grad_add0 adam0 (fun _ => tt) autograd0 autograd0 dataset0
           dataset0 randperm0_perm adam0_ok dataset0_ok dataset0_ok tt).
Defined.
